(** * Quote Vault: the data-access layer of mcp-theanswer

    A shallow embedding of [database/schema.py], [database/models.py],
    [database/operations.py] and [seed_data.py].

    The SQLite database is a record of three tables kept in rowid order plus
    the two AUTOINCREMENT counters.  Every SQL statement the Python code
    sends is a function on that record; constraint violations (PRIMARY KEY,
    UNIQUE, FOREIGN KEY) raise [IntegrityError] as [sqlite3] does.  A
    connection carries the committed database and the working copy of the
    open transaction; [conn.commit()] publishes the working copy and
    [conn.close()] in a [finally] block drops it.

    Conventions of the model:
    - a Python [str] is a [string] holding the bytes of its UTF-8 encoding;
      [str.strip()] removes the characters for which [str.isspace] holds,
      the ones beyond the ASCII range included;
    - TEXT values compare bytewise (SQLite's BINARY collation);
    - [ORDER BY] is a stable sort of the rows in the order the statement
      scans them, so rows with equal keys keep their rowid order;
    - an [int] argument is any integer; binding one that does not fit in
      64 bits raises OverflowError, as [sqlite3] does;
    - the rowids the database hands out are not bounded, and faults of the
      storage itself (no file, no disk space) are not part of the model. *)

From Stdlib Require Import List ZArith Lia Bool Ascii String.
From Stdlib Require Import Permutation Sorted RelationClasses OrdersEx ListDec.
From Stdlib Require Import DecimalString.
Import ListNotations.

Local Open Scope Z_scope.
Local Open Scope string_scope.
Local Open Scope list_scope.

(** ** Python strings *)

Module PyStr.

(** The characters for which [str.isspace] holds, in UTF-8.  One byte:
    tab, newline, vertical tab, form feed, carriage return, the four
    separators 0x1c..0x1f and the space. *)
Definition isspace (c : ascii) : bool :=
  let n := N_of_ascii c in
  ((9 <=? n) && (n <=? 13) || (28 <=? n) && (n <=? 32))%N.

(** Two bytes: U+0085 (C2 85) and U+00A0 (C2 A0). *)
Definition isspace2 (c1 c2 : ascii) : bool :=
  let n1 := N_of_ascii c1 in
  let n2 := N_of_ascii c2 in
  ((n1 =? 194) && ((n2 =? 133) || (n2 =? 160)))%N.

(** Three bytes: U+1680 (E1 9A 80), U+2000..U+200A (E2 80 80..8A),
    U+2028, U+2029, U+202F (E2 80 A8, A9, AF), U+205F (E2 81 9F) and
    U+3000 (E3 80 80). *)
Definition isspace3 (c1 c2 c3 : ascii) : bool :=
  let n1 := N_of_ascii c1 in
  let n2 := N_of_ascii c2 in
  let n3 := N_of_ascii c3 in
  ((n1 =? 225) && (n2 =? 154) && (n3 =? 128)
   || (n1 =? 226) && (n2 =? 128)
      && ((128 <=? n3) && (n3 <=? 138)
          || (n3 =? 168) || (n3 =? 169) || (n3 =? 175))
   || (n1 =? 226) && (n2 =? 129) && (n3 =? 159)
   || (n1 =? 227) && (n2 =? 128) && (n3 =? 128))%N.

(** Dropping the white space a byte sequence starts with.  [sp2] and [sp3]
    recognise the two- and three-byte characters; read from the end of a
    string they see the bytes in the opposite order. *)
Fixpoint drop_spaces (sp2 : ascii -> ascii -> bool)
    (sp3 : ascii -> ascii -> ascii -> bool) (l : list ascii) : list ascii :=
  match l with
  | [] => []
  | c1 :: l1 =>
      if isspace c1 then drop_spaces sp2 sp3 l1
      else
        match l1 with
        | [] => l
        | c2 :: l2 =>
            if sp2 c1 c2 then drop_spaces sp2 sp3 l2
            else
              match l2 with
              | [] => l
              | c3 :: l3 =>
                  if sp3 c1 c2 c3 then drop_spaces sp2 sp3 l3 else l
              end
        end
  end.

Definition lstrip_chars (l : list ascii) : list ascii :=
  drop_spaces isspace2 isspace3 l.

Definition rstrip_chars (l : list ascii) : list ascii :=
  rev (drop_spaces (fun c2 c1 => isspace2 c1 c2)
                   (fun c3 c2 c1 => isspace3 c1 c2 c3) (rev l)).

Definition lstrip (s : string) : string :=
  string_of_list_ascii (lstrip_chars (list_ascii_of_string s)).

Definition rstrip (s : string) : string :=
  string_of_list_ascii (rstrip_chars (list_ascii_of_string s)).

(** [s.strip()] *)
Definition strip (s : string) : string := rstrip (lstrip s).

(** One white-space character, as the bytes of its encoding. *)
Definition space_char (w : list ascii) : bool :=
  match w with
  | [c] => isspace c
  | [c1; c2] => isspace2 c1 c2
  | [c1; c2; c3] => isspace3 c1 c2 c3
  | _ => false
  end.

(** Truth value of a [str]: the empty string is false. *)
Definition truthy (s : string) : bool :=
  match s with
  | EmptyString => false
  | String _ _ => true
  end.

(** [not s or not s.strip()], the test every validation uses. *)
Definition blank (s : string) : bool :=
  negb (truthy s) || negb (truthy (strip s)).

(** SQLite's [LOWER()]: only the 26 ASCII capitals change. *)
Definition lower_char (c : ascii) : ascii :=
  let n := N_of_ascii c in
  if ((65 <=? n) && (n <=? 90))%N then ascii_of_N (n + 32) else c.

Fixpoint lower (s : string) : string :=
  match s with
  | EmptyString => EmptyString
  | String c s' => String (lower_char c) (lower s')
  end.

End PyStr.

(** ** SQLite's LIKE operator

    The pattern language has [%] (any run of characters) and [_] (one
    character); other characters match themselves, letters of the ASCII
    range without regard to case.  [_] consumes one UTF-8 character: a
    byte and the continuation bytes after it.

    SQLite reads both operands as NUL-terminated strings, so what follows
    a NUL byte in the text or in the pattern is not looked at.  It refuses
    a pattern of more than SQLITE_MAX_LIKE_PATTERN_LENGTH bytes with
    OperationalError as soon as LIKE is evaluated on a row; on which rows
    it is evaluated is the planner's choice, so that failure is not part
    of [like], and what is proved of [like] further down is stated for
    patterns within the limit. *)

Module Like.

Definition is_continuation (c : ascii) : bool :=
  let n := N_of_ascii c in ((128 <=? n) && (n <=? 191))%N.

Fixpoint skip_continuation (s : list ascii) : list ascii :=
  match s with
  | [] => []
  | c :: s' => if is_continuation c then skip_continuation s' else s
  end.

Definition same_char (a b : ascii) : bool :=
  Ascii.eqb (PyStr.lower_char a) (PyStr.lower_char b).

Fixpoint matches (p s : list ascii) : bool :=
  match p with
  | [] => match s with [] => true | _ :: _ => false end
  | c :: p' =>
      if Ascii.eqb c "%"%char then
        (fix any (s : list ascii) : bool :=
           matches p' s ||
           match s with
           | [] => false
           | _ :: s' => any s'
           end) s
      else if Ascii.eqb c "_"%char then
        match s with
        | [] => false
        | _ :: s' => matches p' (skip_continuation s')
        end
      else
        match s with
        | [] => false
        | d :: s' => same_char c d && matches p' s'
        end
  end.

(** The bytes before the first NUL. *)
Fixpoint until_nul (l : list ascii) : list ascii :=
  match l with
  | [] => []
  | c :: l' => if Ascii.eqb c Ascii.zero then [] else c :: until_nul l'
  end.

Definition c_string (s : string) : list ascii :=
  until_nul (list_ascii_of_string s).

(** SQLITE_MAX_LIKE_PATTERN_LENGTH, in bytes *)
Definition MAX_PATTERN_LENGTH : Z := 50000.

(** [text LIKE pattern] *)
Definition like (text pattern : string) : bool :=
  matches (c_string pattern) (c_string text).

End Like.

(** ** Stable sorting, the model of ORDER BY *)

Section StableSort.
Context {A : Type}.
Variable before : A -> A -> bool.

(** [before x y] says that [x] may stay in front of [y]. *)
Fixpoint insert_row (x : A) (l : list A) : list A :=
  match l with
  | [] => [x]
  | y :: l' => if before x y then x :: l else y :: insert_row x l'
  end.

Definition order_by (l : list A) : list A :=
  fold_right insert_row [] l.
End StableSort.

(** ** Schema (schema.py) *)

(** CREATE TABLE quotes (id INTEGER PRIMARY KEY AUTOINCREMENT,
    text TEXT NOT NULL, author TEXT NOT NULL, source TEXT, year INTEGER,
    created_at TIMESTAMP DEFAULT CURRENT_TIMESTAMP) *)
Record QuoteRow := mkQuoteRow {
  row_id : Z;
  row_text : string;
  row_author : string;
  row_source : option string;
  row_year : option Z;
  row_created_at : string
}.

(** CREATE TABLE tags (id INTEGER PRIMARY KEY AUTOINCREMENT,
    name TEXT UNIQUE NOT NULL) *)
Record TagRow := mkTagRow {
  tag_id : Z;
  tag_name : string
}.

(** CREATE TABLE quote_tags (quote_id INTEGER NOT NULL,
    tag_id INTEGER NOT NULL, PRIMARY KEY (quote_id, tag_id),
    FOREIGN KEY (quote_id) REFERENCES quotes(id) ON DELETE CASCADE,
    FOREIGN KEY (tag_id) REFERENCES tags(id) ON DELETE CASCADE) *)
Record QuoteTagRow := mkQuoteTagRow {
  qt_quote_id : Z;
  qt_tag_id : Z
}.

(** The database file: the three tables in rowid order and the
    [sqlite_sequence] entries of the two AUTOINCREMENT tables. *)
Record Database := mkDatabase {
  quotes : list QuoteRow;
  tags : list TagRow;
  quote_tags : list QuoteTagRow;
  seq_quotes : Z;
  seq_tags : Z
}.

(** The database [init_database] leaves behind. *)
Definition init_database : Database :=
  mkDatabase [] [] [] 0 0.

Definition quote_ids (db : Database) : list Z := map row_id (quotes db).
Definition tag_ids (db : Database) : list Z := map tag_id (tags db).
Definition tag_names (db : Database) : list string := map tag_name (tags db).

Definition QuoteTagRow_eq_dec (a b : QuoteTagRow) : {a = b} + {a <> b}.
Proof. decide equality; apply Z.eq_dec. Defined.

Definition QuoteRow_eq_dec (a b : QuoteRow) : {a = b} + {a <> b}.
Proof.
  decide equality;
    try apply string_dec; try apply Z.eq_dec;
    decide equality; try apply string_dec; apply Z.eq_dec.
Defined.

Definition mem_Z (x : Z) (l : list Z) : bool := existsb (Z.eqb x) l.
Definition mem_string (x : string) (l : list string) : bool :=
  existsb (String.eqb x) l.

(** What the schema guarantees of every database the program can build. *)
Record wf_db (db : Database) : Prop := mk_wf_db {
  wf_quote_pk : NoDup (quote_ids db);
  wf_tag_pk : NoDup (tag_ids db);
  wf_tag_unique : NoDup (tag_names db);
  wf_quote_tag_pk : NoDup (quote_tags db);
  wf_fk_quote : Forall (fun qt => In (qt_quote_id qt) (quote_ids db))
                       (quote_tags db);
  wf_fk_tag : Forall (fun qt => In (qt_tag_id qt) (tag_ids db))
                     (quote_tags db)
}.

(** check_if_seeded on a database that exists and is initialised:
    SELECT COUNT( * ) FROM quotes, then [count > 0].  (Without the file or
    the table the source answers False.) *)
Definition check_if_seeded (db : Database) : bool :=
  (0 <? Z.of_nat (List.length (quotes db)))%Z.

(** ** Connections and transactions (sqlite3) *)

Inductive exn :=
| InvalidInputError (msg : string)
| IntegrityError
| OverflowError
| TypeError.

Inductive result (A : Type) :=
| Ok (a : A)
| Raise (e : exn).
Arguments Ok {A} a.
Arguments Raise {A} e.

(** A connection: the committed file and the working copy of the implicit
    transaction that the first writing statement opens. *)
Record Conn := mkConn {
  disk : Database;
  txn : Database
}.

(** Code running on an open connection.  An exception leaves the
    connection as it is so that the [finally] block can close it. *)
Definition M (A : Type) : Type := Conn -> result A * Conn.

Definition ret {A} (a : A) : M A := fun c => (Ok a, c).

Definition bind {A B} (m : M A) (f : A -> M B) : M B :=
  fun c =>
    match m c with
    | (Ok a, c') => f a c'
    | (Raise e, c') => (Raise e, c')
    end.

Notation "x <- m ;; k" := (bind m (fun x => k))
  (at level 61, m at next level, right associativity).
Notation "m ;; k" := (bind m (fun _ => k))
  (at level 61, right associativity).

(** cursor = conn.execute(SELECT ...) and the fetch that follows *)
Definition fetch {A} (q : Database -> A) : M A :=
  fun c => (Ok (q (txn c)), c).

(** conn.execute(INSERT / UPDATE / DELETE ...); the value is what the
    cursor reports afterwards ([lastrowid] or [rowcount]). *)
Definition execute {A} (stmt : Database -> result (A * Database)) : M A :=
  fun c =>
    match stmt (txn c) with
    | Ok (a, db') => (Ok a, mkConn (disk c) db')
    | Raise e => (Raise e, c)
    end.

(** [sqlite3] converts the parameters of a statement before it runs the
    statement: a Python [int] that does not fit SQLite's 64-bit INTEGER
    raises OverflowError and nothing is executed.  [binding ints] is that
    conversion for the [int] arguments of the caller that the next
    statement binds.  An integer that comes out of the database
    ([lastrowid], the column of a fetched row) fits as it is. *)
Definition fits_int64 (n : Z) : bool :=
  (- 2 ^ 63 <=? n)%Z && (n <? 2 ^ 63)%Z.

Arguments fits_int64 : simpl never.

Definition binding (ints : list Z) : M unit :=
  fun c =>
    if forallb fits_int64 ints then (Ok tt, c) else (Raise OverflowError, c).

(** An optional [int] argument as a parameter: [None] is bound as NULL. *)
Definition int_param (v : option Z) : list Z :=
  match v with
  | Some n => [n]
  | None => []
  end.

(** conn.commit() *)
Definition commit : M unit :=
  fun c => (Ok tt, mkConn (txn c) (txn c)).

(** An operation of the data-access layer: what it returns or raises, and
    the database file once it is over. *)
Definition Op (A : Type) : Type := Database -> result A * Database.

(** conn = _get_connection(db_path); try: body finally: conn.close() *)
Definition with_connection {A} (body : M A) : Op A :=
  fun db =>
    let '(r, c) := body (mkConn db db) in
    (r, disk c).

(** raise before any connection is opened *)
Definition raise_op {A} (e : exn) : Op A := fun db => (Raise e, db).

(** ** SQL statements *)

Module Sql.

Definition max_rowid (ids : list Z) : Z := fold_right Z.max 0 ids.

(** AUTOINCREMENT: one more than the largest rowid the table ever had. *)
Definition next_rowid (seq : Z) (ids : list Z) : Z :=
  Z.max seq (max_rowid ids) + 1.

(** INSERT INTO quotes (text, author, source, year) VALUES (?, ?, ?, ?);
    [created_at] takes its default, CURRENT_TIMESTAMP. *)
Definition insert_quote (current_timestamp : string)
    (text author : string) (source : option string) (year : option Z)
    (db : Database) : result (Z * Database) :=
  let id := next_rowid (seq_quotes db) (quote_ids db) in
  Ok (id, mkDatabase
            (quotes db ++ [mkQuoteRow id text author source year current_timestamp])
            (tags db) (quote_tags db) id (seq_tags db)).

(** SELECT id FROM tags WHERE name = ?  -- fetchone() *)
Definition select_tag_id (name : string) (db : Database) : option Z :=
  option_map tag_id (find (fun t => String.eqb (tag_name t) name) (tags db)).

(** INSERT INTO tags (name) VALUES (?) *)
Definition insert_tag (name : string) (db : Database)
  : result (Z * Database) :=
  if mem_string name (tag_names db) then Raise IntegrityError
  else
    let id := next_rowid (seq_tags db) (tag_ids db) in
    Ok (id, mkDatabase (quotes db) (tags db ++ [mkTagRow id name])
              (quote_tags db) (seq_quotes db) id).

(** INSERT INTO quote_tags (quote_id, tag_id) VALUES (?, ?) *)
Definition insert_quote_tag (quote_id tag_id : Z) (db : Database)
  : result (unit * Database) :=
  let row := mkQuoteTagRow quote_id tag_id in
  if in_dec QuoteTagRow_eq_dec row (quote_tags db) then Raise IntegrityError
  else if negb (mem_Z quote_id (quote_ids db)) then Raise IntegrityError
  else if negb (mem_Z tag_id (tag_ids db)) then Raise IntegrityError
  else Ok (tt, mkDatabase (quotes db) (tags db) (quote_tags db ++ [row])
                 (seq_quotes db) (seq_tags db)).

(** SELECT 1 FROM quote_tags WHERE quote_id = ? AND tag_id = ? *)
Definition select_quote_tag (quote_id tag_id : Z) (db : Database)
  : option Z :=
  if existsb (fun qt => Z.eqb (qt_quote_id qt) quote_id
                        && Z.eqb (qt_tag_id qt) tag_id) (quote_tags db)
  then Some 1 else None.

(** DELETE FROM quote_tags WHERE quote_id = ? *)
Definition delete_quote_tags (quote_id : Z) (db : Database)
  : result (unit * Database) :=
  Ok (tt, mkDatabase (quotes db) (tags db)
            (filter (fun qt => negb (Z.eqb (qt_quote_id qt) quote_id))
                    (quote_tags db))
            (seq_quotes db) (seq_tags db)).

(** DELETE FROM quotes WHERE id = ?  -- with foreign_keys = ON the rows of
    quote_tags that reference a deleted quote go with it (ON DELETE
    CASCADE); the value is the cursor's rowcount. *)
Definition delete_quote (quote_id : Z) (db : Database)
  : result (Z * Database) :=
  let gone := filter (fun r => Z.eqb (row_id r) quote_id) (quotes db) in
  Ok (Z.of_nat (List.length gone),
      mkDatabase
        (filter (fun r => negb (Z.eqb (row_id r) quote_id)) (quotes db))
        (tags db)
        (filter (fun qt => negb (mem_Z (qt_quote_id qt) (map row_id gone)))
                (quote_tags db))
        (seq_quotes db) (seq_tags db)).

(** SELECT id FROM quotes WHERE id = ?  -- fetchone() *)
Definition select_quote_id (quote_id : Z) (db : Database) : option Z :=
  option_map row_id (find (fun r => Z.eqb (row_id r) quote_id) (quotes db)).

(** SELECT id, text, author, source, year, created_at FROM quotes
    WHERE id = ?  -- fetchone() *)
Definition select_quote (quote_id : Z) (db : Database) : option QuoteRow :=
  find (fun r => Z.eqb (row_id r) quote_id) (quotes db).

(** One [field = ?] of an UPDATE with the value bound to it; [None] is
    NULL. *)
Inductive Assignment :=
| SetText (v : option string)
| SetAuthor (v : option string)
| SetSource (v : option string)
| SetYear (v : option Z).

(** The [int] values among the parameters of an UPDATE. *)
Definition int_params (fields : list Assignment) : list Z :=
  flat_map (fun a => match a with
                     | SetYear v => int_param v
                     | _ => []
                     end) fields.
Arguments int_params : simpl never.

(** [text] and [author] are NOT NULL. *)
Definition assign (r : result QuoteRow) (a : Assignment) : result QuoteRow :=
  match r with
  | Raise e => Raise e
  | Ok r =>
      match a with
      | SetText (Some v) =>
          Ok (mkQuoteRow (row_id r) v (row_author r) (row_source r)
                (row_year r) (row_created_at r))
      | SetAuthor (Some v) =>
          Ok (mkQuoteRow (row_id r) (row_text r) v (row_source r)
                (row_year r) (row_created_at r))
      | SetSource v =>
          Ok (mkQuoteRow (row_id r) (row_text r) (row_author r) v
                (row_year r) (row_created_at r))
      | SetYear v =>
          Ok (mkQuoteRow (row_id r) (row_text r) (row_author r)
                (row_source r) v (row_created_at r))
      | SetText None | SetAuthor None => Raise IntegrityError
      end
  end.

Fixpoint update_rows (fields : list Assignment) (quote_id : Z)
    (rows : list QuoteRow) : result (list QuoteRow) :=
  match rows with
  | [] => Ok []
  | r :: rest =>
      match (if Z.eqb (row_id r) quote_id
             then fold_left assign fields (Ok r) else Ok r) with
      | Raise e => Raise e
      | Ok r' =>
          match update_rows fields quote_id rest with
          | Raise e => Raise e
          | Ok rest' => Ok (r' :: rest')
          end
      end
  end.

(** UPDATE quotes SET f1 = ?, f2 = ?, ... WHERE id = ? *)
Definition update_quotes (fields : list Assignment) (quote_id : Z)
    (db : Database) : result (unit * Database) :=
  match update_rows fields quote_id (quotes db) with
  | Raise e => Raise e
  | Ok rows =>
      Ok (tt, mkDatabase rows (tags db) (quote_tags db)
                (seq_quotes db) (seq_tags db))
  end.

(** The rows of [tags t JOIN quote_tags qt ON t.id = qt.tag_id]. *)
Definition tags_join_quote_tags (db : Database)
  : list (TagRow * QuoteTagRow) :=
  flat_map (fun t =>
    map (fun qt => (t, qt))
        (filter (fun qt => Z.eqb (tag_id t) (qt_tag_id qt)) (quote_tags db)))
    (tags db).

(** SELECT t.name FROM tags t JOIN quote_tags qt ON t.id = qt.tag_id
    WHERE qt.quote_id = ? ORDER BY t.name *)
Definition select_tag_names (quote_id : Z) (db : Database) : list string :=
  order_by String.leb
    (map (fun r => tag_name (fst r))
         (filter (fun r => Z.eqb (qt_quote_id (snd r)) quote_id)
                 (tags_join_quote_tags db))).

(** ORDER BY created_at DESC *)
Definition newest_first (a b : QuoteRow) : bool :=
  String.leb (row_created_at b) (row_created_at a).

(** SELECT id, text, author, source, year, created_at FROM quotes
    ORDER BY created_at DESC *)
Definition select_all_quotes (db : Database) : list QuoteRow :=
  order_by newest_first (quotes db).

(** The rows of [quotes q JOIN quote_tags qt ON q.id = qt.quote_id
    JOIN tags t ON qt.tag_id = t.id]. *)
Definition quotes_join_tags (db : Database) : list (QuoteRow * TagRow) :=
  flat_map (fun q =>
    flat_map (fun qt =>
      map (fun t => (q, t))
          (filter (fun t => Z.eqb (qt_tag_id qt) (tag_id t)) (tags db)))
      (filter (fun qt => Z.eqb (row_id q) (qt_quote_id qt)) (quote_tags db)))
    (quotes db).

(** [(q.text LIKE ? OR q.author LIKE ?)] with both parameters bound to
    [f"%{query}%"]; the clause is there only [if query]. *)
Definition where_query (query : option string) (q : QuoteRow) : bool :=
  match query with
  | Some s =>
      if PyStr.truthy s then
        Like.like (row_text q) ("%" ++ s ++ "%")
        || Like.like (row_author q) ("%" ++ s ++ "%")
      else true
  | None => true
  end.

(** [LOWER(q.author) = LOWER(?)]; the clause is there only [if author]. *)
Definition where_author (author : option string) (q : QuoteRow) : bool :=
  match author with
  | Some a =>
      if PyStr.truthy a
      then String.eqb (PyStr.lower (row_author q)) (PyStr.lower a)
      else true
  | None => true
  end.

(** COUNT(DISTINCT t.id) over the rows of one group *)
Definition count_distinct_tag_ids (group : list (QuoteRow * TagRow)) : Z :=
  Z.of_nat (List.length (nodup Z.eq_dec (map (fun r => tag_id (snd r)) group))).

(** The joined rows that pass
    WHERE t.name IN (?, ..., ?) [AND query clause] [AND author clause]. *)
Definition search_where (query author : option string) (names : list string)
    (db : Database) : list (QuoteRow * TagRow) :=
  filter (fun r => mem_string (tag_name (snd r)) names
                   && where_query query (fst r)
                   && where_author author (fst r))
         (quotes_join_tags db).

(** GROUP BY q.id: the rows of the group with key [k]. *)
Definition group_by_id (k : Z) (rows : list (QuoteRow * TagRow))
  : list (QuoteRow * TagRow) :=
  filter (fun r => Z.eqb (row_id (fst r)) k) rows.

(** HAVING COUNT(DISTINCT t.id) = ?, the parameter bound to len(tags). *)
Definition having_all_tags (names : list string)
    (group : list (QuoteRow * TagRow)) : bool :=
  Z.eqb (count_distinct_tag_ids group) (Z.of_nat (List.length names)).

(** The statement search_quotes assembles.  With [tags]:

    SELECT DISTINCT q.id, q.text, q.author, q.source, q.year, q.created_at
    FROM quotes q JOIN quote_tags qt ON q.id = qt.quote_id
                  JOIN tags t ON qt.tag_id = t.id
    WHERE t.name IN (?, ..., ?) [AND query clause] [AND author clause]
    GROUP BY q.id HAVING COUNT(DISTINCT t.id) = ?
    ORDER BY q.created_at DESC

    (the selected columns of a group are those of one of its rows) and
    without, the same SELECT DISTINCT over [quotes q] alone with the query
    and author clauses. *)
Definition search (query author : option string)
    (tags : option (list string)) (db : Database) : list QuoteRow :=
  match tags with
  | Some ((_ :: _) as names) =>
      let kept := search_where query author names db in
      let keys := nodup Z.eq_dec (map (fun r => row_id (fst r)) kept) in
      let selected :=
        flat_map (fun k =>
          let group := group_by_id k kept in
          if having_all_tags names group
          then firstn 1 (map fst group) else []) keys in
      order_by newest_first (nodup QuoteRow_eq_dec selected)
  | _ =>
      order_by newest_first
        (nodup QuoteRow_eq_dec
           (filter (fun q => where_query query q && where_author author q)
                   (quotes db)))
  end.

(** The rows of [tags t LEFT JOIN quote_tags qt ON t.id = qt.tag_id]. *)
Definition tags_left_join_quote_tags (db : Database)
  : list (TagRow * option QuoteTagRow) :=
  flat_map (fun t =>
    match filter (fun qt => Z.eqb (tag_id t) (qt_tag_id qt)) (quote_tags db)
    with
    | [] => [(t, None)]
    | matched => map (fun qt => (t, Some qt)) matched
    end) (tags db).

Definition TagRow_eq_dec (a b : TagRow) : {a = b} + {a <> b}.
Proof. decide equality; [apply string_dec | apply Z.eq_dec]. Defined.

Definition TagRow_eqb (a b : TagRow) : bool :=
  if TagRow_eq_dec a b then true else false.

(** COUNT(qt.quote_id): the rows of the group whose quote_id is not NULL *)
Definition count_quote_id (group : list (TagRow * option QuoteTagRow)) : Z :=
  Z.of_nat (List.length (filter (fun r => match snd r with
                                          | Some _ => true
                                          | None => false
                                          end) group)).

(** SELECT t.name, COUNT(qt.quote_id) as count
    FROM tags t LEFT JOIN quote_tags qt ON t.id = qt.tag_id
    GROUP BY t.id, t.name ORDER BY t.name *)
Definition select_tag_counts (db : Database) : list (string * Z) :=
  let joined := tags_left_join_quote_tags db in
  let keys := nodup TagRow_eq_dec (map fst joined) in
  order_by (fun a b => String.leb (fst a) (fst b))
    (map (fun k =>
            (tag_name k,
             count_quote_id (filter (fun r => TagRow_eqb (fst r) k) joined)))
         keys).

End Sql.

(** ** Models (models.py) *)

(** The two clocks the code reads: SQLite's CURRENT_TIMESTAMP, the default
    of [created_at], and Python's [datetime.now().isoformat()]. *)
Record Clock := mkClock {
  current_timestamp : string;
  datetime_now : string
}.

Module Models.

Record Quote := mkQuote {
  id : Z;
  text : string;
  author : string;
  source : option string;
  year : option Z;
  created_at : string;
  tags : list string
}.

(** Quote.from_row(row, tags): [created_at] falls back to the Python clock
    when the column is empty, and [tags or []] is the list itself. *)
Definition from_row (clock : Clock) (row : QuoteRow) (tags : list string)
  : Quote :=
  mkQuote (row_id row) (row_text row) (row_author row) (row_source row)
          (row_year row)
          (if PyStr.truthy (row_created_at row) then row_created_at row
           else datetime_now clock)
          (match tags with [] => [] | _ :: _ => tags end).

End Models.

(** ** Operations (operations.py) *)

Definition _get_or_create_tag (tag_name : string) : M Z :=
  row <- fetch (Sql.select_tag_id tag_name);;
  match row with
  | Some tag_id => ret tag_id
  | None => execute (Sql.insert_tag tag_name)
  end.

Definition _get_tags_for_quote (quote_id : Z) : M (list string) :=
  fetch (Sql.select_tag_names quote_id).

(** The loop [for tag_name in tags] of add_quote; [tag_names] is the list
    the loop appends to. *)
Fixpoint add_quote_tags (quote_id : Z) (tags tag_names : list string)
  : M (list string) :=
  match tags with
  | [] => ret tag_names
  | tag_name :: rest =>
      if PyStr.truthy tag_name && PyStr.truthy (PyStr.strip tag_name) then
        tag_id <- _get_or_create_tag (PyStr.strip tag_name);;
        execute (Sql.insert_quote_tag quote_id tag_id);;
        add_quote_tags quote_id rest (tag_names ++ [PyStr.strip tag_name])
      else add_quote_tags quote_id rest tag_names
  end.

Definition add_quote (clock : Clock) (text author : string)
    (source : option string) (year : option Z) (tags : option (list string))
  : Op Models.Quote :=
  if PyStr.blank text then
    raise_op (InvalidInputError "Quote text cannot be empty")
  else if PyStr.blank author then
    raise_op (InvalidInputError "Author name cannot be empty")
  else
    with_connection (
      binding (int_param year);;
      quote_id <- execute (Sql.insert_quote (current_timestamp clock)
                             (PyStr.strip text) (PyStr.strip author)
                             source year);;
      tag_names <- match tags with
                   | Some ((_ :: _) as l) => add_quote_tags quote_id l []
                   | _ => ret []
                   end;;
      commit;;
      row <- fetch (Sql.select_quote quote_id);;
      match row with
      | Some r => ret (Models.from_row clock r tag_names)
      | None => fun c => (Raise TypeError, c)
      end).

(** The loop every listing runs over the fetched rows:
    [tags = _get_tags_for_quote(conn, row[0])], then
    [quotes.append(Quote.from_row(row, tags))]. *)
Fixpoint quotes_of_rows (clock : Clock) (rows : list QuoteRow)
  : M (list Models.Quote) :=
  match rows with
  | [] => ret []
  | row :: rest =>
      tags <- _get_tags_for_quote (row_id row);;
      quotes <- quotes_of_rows clock rest;;
      ret (Models.from_row clock row tags :: quotes)
  end.

Definition get_quote_by_id (clock : Clock) (quote_id : Z)
  : Op (option Models.Quote) :=
  with_connection (
    binding [quote_id];;
    row <- fetch (Sql.select_quote quote_id);;
    match row with
    | None => ret None
    | Some r =>
        tags <- _get_tags_for_quote quote_id;;
        ret (Some (Models.from_row clock r tags))
    end).

Definition get_all_quotes (clock : Clock) : Op (list Models.Quote) :=
  with_connection (
    rows <- fetch Sql.select_all_quotes;;
    quotes_of_rows clock rows).

Definition search_quotes (clock : Clock) (query author : option string)
    (tags : option (list string)) : Op (list Models.Quote) :=
  with_connection (
    rows <- fetch (Sql.search query author tags);;
    quotes_of_rows clock rows).

(** ** update_quote's keyword arguments

    A key of [**kwargs] is absent ([None]) or present with a value; the
    value itself may be Python's [None]. *)
Record Kwargs := mkKwargs {
  kw_text : option (option string);
  kw_author : option (option string);
  kw_source : option (option string);
  kw_year : option (option Z);
  kw_tags : option (option (list string))
}.

(** ["f" in kwargs and (not kwargs["f"] or not kwargs["f"].strip())] *)
Definition kw_blank (v : option (option string)) : bool :=
  match v with
  | None => false
  | Some None => true
  | Some (Some s) => PyStr.blank s
  end.

(** [if field in ["text", "author"] and value: value = value.strip()] *)
Definition strip_if_truthy (v : option string) : option string :=
  match v with
  | Some s => if PyStr.truthy s then Some (PyStr.strip s) else v
  | None => None
  end.

Definition update_fields (kwargs : Kwargs) : list Sql.Assignment :=
  (match kw_text kwargs with
   | Some v => [Sql.SetText (strip_if_truthy v)] | None => [] end) ++
  (match kw_author kwargs with
   | Some v => [Sql.SetAuthor (strip_if_truthy v)] | None => [] end) ++
  (match kw_source kwargs with
   | Some v => [Sql.SetSource v] | None => [] end) ++
  (match kw_year kwargs with
   | Some v => [Sql.SetYear v] | None => [] end).

(** The loop [for tag_name in kwargs["tags"]] of update_quote. *)
Fixpoint update_quote_tags (quote_id : Z) (tags : list string) : M unit :=
  match tags with
  | [] => ret tt
  | tag_name :: rest =>
      if PyStr.truthy tag_name && PyStr.truthy (PyStr.strip tag_name) then
        tag_id <- _get_or_create_tag (PyStr.strip tag_name);;
        execute (Sql.insert_quote_tag quote_id tag_id);;
        update_quote_tags quote_id rest
      else update_quote_tags quote_id rest
  end.

Definition update_quote (quote_id : Z) (kwargs : Kwargs) : Op bool :=
  if kw_blank (kw_text kwargs) then
    raise_op (InvalidInputError "Quote text cannot be empty")
  else if kw_blank (kw_author kwargs) then
    raise_op (InvalidInputError "Author name cannot be empty")
  else
    with_connection (
      binding [quote_id];;
      found <- fetch (Sql.select_quote_id quote_id);;
      match found with
      | None => ret false
      | Some _ =>
          match update_fields kwargs with
          | [] => ret tt
          | (_ :: _) as fields =>
              binding (Sql.int_params fields);;
              execute (Sql.update_quotes fields quote_id)
          end;;
          match kw_tags kwargs with
          | None => ret tt
          | Some v =>
              execute (Sql.delete_quote_tags quote_id);;
              match v with
              | Some ((_ :: _) as l) => update_quote_tags quote_id l
              | _ => ret tt
              end
          end;;
          commit;;
          ret true
      end).

Definition delete_quote (quote_id : Z) : Op bool :=
  with_connection (
    binding [quote_id];;
    rowcount <- execute (Sql.delete_quote quote_id);;
    commit;;
    ret (0 <? rowcount)%Z).

Definition add_tag_to_quote (quote_id : Z) (tag : string) : Op bool :=
  if PyStr.blank tag then
    raise_op (InvalidInputError "Tag name cannot be empty")
  else
    with_connection (
      binding [quote_id];;
      found <- fetch (Sql.select_quote_id quote_id);;
      match found with
      | None => ret false
      | Some _ =>
          tag_id <- _get_or_create_tag (PyStr.strip tag);;
          linked <- fetch (Sql.select_quote_tag quote_id tag_id);;
          match linked with
          | Some _ => commit;; ret true
          | None =>
              execute (Sql.insert_quote_tag quote_id tag_id);;
              commit;;
              ret true
          end
      end).

Definition list_all_tags : Op (list (string * Z)) :=
  with_connection (fetch Sql.select_tag_counts).

(** ** Seed data (seed_data.py) *)

(** One entry of SEED_QUOTES; the optional keys are read with
    [quote_data.get]. *)
Record SeedQuote := mkSeedQuote {
  seed_text : string;
  seed_author : string;
  seed_source : option string;
  seed_year : option Z;
  seed_tags : option (list string)
}.

Definition SEED_QUOTES : list SeedQuote := [
  mkSeedQuote
    "The answer to the great question of life, the universe and everything is forty-two."
    "Douglas Adams"
    (Some "The Hitchhiker's Guide to the Galaxy")
    (Some 1979)
    (Some ["philosophy"; "humor"; "existence"; "famous"]);
  mkSeedQuote
    "Don't Panic."
    "Douglas Adams"
    (Some "The Hitchhiker's Guide to the Galaxy")
    (Some 1979)
    (Some ["humor"; "life"; "wisdom"; "famous"]);
  mkSeedQuote
    "Time is an illusion. Lunchtime doubly so."
    "Douglas Adams"
    (Some "The Hitchhiker's Guide to the Galaxy")
    (Some 1979)
    (Some ["philosophy"; "humor"; "time"; "absurdism"]);
  mkSeedQuote
    "In the beginning the Universe was created. This has made a lot of people very angry and been widely regarded as a bad move."
    "Douglas Adams"
    (Some "The Restaurant at the End of the Universe")
    (Some 1980)
    (Some ["philosophy"; "humor"; "existence"; "satire"]);
  mkSeedQuote
    "I may not have gone where I intended to go, but I think I have ended up where I needed to be."
    "Douglas Adams"
    (Some "The Long Dark Tea-Time of the Soul")
    (Some 1988)
    (Some ["life"; "wisdom"; "philosophy"; "journey"]);
  mkSeedQuote
    "A learning experience is one of those things that says, 'You know that thing you just did? Don't do that.'"
    "Douglas Adams"
    (Some "The Salmon of Doubt")
    (Some 2002)
    (Some ["wisdom"; "humor"; "life"; "learning"]);
  mkSeedQuote
    "I love deadlines. I love the whooshing noise they make as they go by."
    "Douglas Adams"
    (Some "The Salmon of Doubt")
    (Some 2002)
    (Some ["humor"; "life"; "work"; "procrastination"]);
  mkSeedQuote
    "The fact that we live at the bottom of a deep gravity well, on the surface of a gas covered planet going around a nuclear fireball 90 million miles away and think this to be normal is obviously some indication of how skewed our perspective tends to be."
    "Douglas Adams"
    (Some "The Salmon of Doubt")
    (Some 2002)
    (Some ["philosophy"; "science"; "perspective"; "existence"]);
  mkSeedQuote
    "For instance, on the planet Earth, man had always assumed that he was more intelligent than dolphins because he had achieved so much—the wheel, New York, wars and so on—whilst all the dolphins had ever done was muck about in the water having a good time. But conversely, the dolphins had always believed that they were far more intelligent than man—for precisely the same reasons."
    "Douglas Adams"
    (Some "The Hitchhiker's Guide to the Galaxy")
    (Some 1979)
    (Some ["philosophy"; "humor"; "intelligence"; "perspective"; "satire"]);
  mkSeedQuote
    "Let's think the unthinkable, let's do the undoable. Let us prepare to grapple with the ineffable itself, and see if we may not eff it after all."
    "Douglas Adams"
    (Some "Dirk Gently's Holistic Detective Agency")
    (Some 1987)
    (Some ["philosophy"; "humor"; "language"; "challenge"]);
  mkSeedQuote
    "There is a theory which states that if ever anyone discovers exactly what the Universe is for and why it is here, it will instantly disappear and be replaced by something even more bizarre and inexplicable. There is another theory which states that this has already happened."
    "Douglas Adams"
    (Some "The Restaurant at the End of the Universe")
    (Some 1980)
    (Some ["philosophy"; "humor"; "existence"; "mystery"; "absurdism"]);
  mkSeedQuote
    "We demand rigidly defined areas of doubt and uncertainty!"
    "Douglas Adams"
    (Some "The Hitchhiker's Guide to the Galaxy")
    (Some 1979)
    (Some ["humor"; "philosophy"; "certainty"; "absurdism"]);
  mkSeedQuote
    "It is a mistake to think you can solve any major problems just with potatoes."
    "Douglas Adams"
    (Some "Life, the Universe and Everything")
    (Some 1982)
    (Some ["humor"; "wisdom"; "absurdism"]);
  mkSeedQuote
    "Anyone who is capable of getting themselves made President should on no account be allowed to do the job."
    "Douglas Adams"
    (Some "The Restaurant at the End of the Universe")
    (Some 1980)
    (Some ["politics"; "humor"; "satire"; "wisdom"]);
  mkSeedQuote
    "Nothing travels faster than the speed of light, with the possible exception of bad news, which obeys its own special laws."
    "Douglas Adams"
    (Some "Mostly Harmless")
    (Some 1992)
    (Some ["humor"; "science"; "absurdism"]);
  mkSeedQuote
    "The ships hung in the sky in much the same way that bricks don't."
    "Douglas Adams"
    (Some "The Hitchhiker's Guide to the Galaxy")
    (Some 1979)
    (Some ["humor"; "science-fiction"; "imagery"; "absurdism"]);
  mkSeedQuote
    "If there's anything more important than my ego around, I want it caught and shot now."
    "Douglas Adams"
    (Some "The Hitchhiker's Guide to the Galaxy")
    (Some 1979)
    (Some ["humor"; "ego"; "satire"; "character"]);
  mkSeedQuote
    "Human beings, who are almost unique in having the ability to learn from the experience of others, are also remarkable for their apparent disinclination to do so."
    "Douglas Adams"
    (Some "Last Chance to See")
    (Some 1990)
    (Some ["wisdom"; "philosophy"; "human-nature"; "learning"]);
  mkSeedQuote
    "I'd far rather be happy than right any day."
    "Douglas Adams"
    (Some "The Hitchhiker's Guide to the Galaxy")
    (Some 1979)
    (Some ["wisdom"; "life"; "happiness"; "philosophy"]);
  mkSeedQuote
    "The mere thought hadn't even begun to speculate about the merest possibility of crossing my mind."
    "Douglas Adams"
    (Some "The Hitchhiker's Guide to the Galaxy")
    (Some 1979)
    (Some ["humor"; "language"; "absurdism"])
].

(** The loop [for quote_data in SEED_QUOTES]: an entry whose add_quote
    raises is reported and skipped.  [clock k] is what the clocks show
    during the k-th call of the run. *)
Fixpoint seed_loop (clock : nat -> Clock) (k : nat) (entries : list SeedQuote)
    (added_count : Z) (db : Database) : Z * Database :=
  match entries with
  | [] => (added_count, db)
  | quote_data :: rest =>
      match add_quote (clock k) (seed_text quote_data)
              (seed_author quote_data) (seed_source quote_data)
              (seed_year quote_data) (seed_tags quote_data) db with
      | (Ok _, db') => seed_loop clock (S k) rest (added_count + 1) db'
      | (Raise _, db') => seed_loop clock (S k) rest added_count db'
      end
  end.

Definition seed_database (clock : nat -> Clock) (force : bool)
  : Op (Z * Z) :=
  fun db =>
    if negb force && check_if_seeded db then
      match get_all_quotes (clock O) db with
      | (Ok existing_quotes, db') =>
          (Ok (0, Z.of_nat (List.length existing_quotes)), db')
      | (Raise e, db') => (Raise e, db')
      end
    else
      let '(added_count, db1) := seed_loop clock O SEED_QUOTES 0 db in
      match get_all_quotes (clock (List.length SEED_QUOTES)) db1 with
      | (Ok all_quotes, db2) =>
          (Ok (added_count, Z.of_nat (List.length all_quotes)), db2)
      | (Raise e, db2) => (Raise e, db2)
      end.

(** ** Vocabulary of the statements *)

(** The names a tag loop works on: blank entries are skipped, the others
    are trimmed. *)
Definition surviving_names (tags : list string) : list string :=
  map PyStr.strip (filter (fun t => negb (PyStr.blank t)) tags).

Definition supplied_names (tags : option (list string)) : list string :=
  match tags with
  | Some l => surviving_names l
  | None => []
  end.

(** The [year] argument can be bound: it is None or fits in 64 bits. *)
Definition year_fits (year : option Z) : bool :=
  forallb fits_int64 (int_param year).

(** The same for the year among update_quote's fields. *)
Definition kw_year_fits (kwargs : Kwargs) : bool :=
  match kw_year kwargs with
  | Some v => year_fits v
  | None => true
  end.

(** The quotes table can hand out one more id: the next AUTOINCREMENT
    value is still a 64-bit integer. *)
Definition has_room (db : Database) : Prop :=
  fits_int64 (Sql.next_rowid (seq_quotes db) (quote_ids db)) = true.

(** An optional string argument that [if arg:] takes for absent. *)
Definition no_string (o : option string) : Prop :=
  o = None \/ o = Some EmptyString.

(** An optional list argument that [if arg:] takes for absent. *)
Definition no_list (o : option (list string)) : Prop :=
  o = None \/ o = Some [].

(** A string that is empty or made of white space only: its bytes are the
    encodings of white-space characters, one after the other. *)
Definition whitespace_only (s : string) : Prop :=
  exists ws, forallb PyStr.space_char ws = true
             /\ list_ascii_of_string s = List.concat ws.

(** Quote [quote_id] carries the tag called [name]. *)
Definition carries (db : Database) (quote_id : Z) (name : string) : Prop :=
  exists t, In t (tags db) /\ tag_name t = name
            /\ In (mkQuoteTagRow quote_id (tag_id t)) (quote_tags db).

(** The tag with id [i] is called [n]. *)
Definition tag_called (db : Database) (i : Z) (n : string) : Prop :=
  In (mkTagRow i n) (tags db).

(** The tag [name] exists and quote [quote_id] is associated with the row
    that SELECT id FROM tags WHERE name = ? returns. *)
Definition linked (db : Database) (quote_id : Z) (name : string) : Prop :=
  exists i, Sql.select_tag_id name db = Some i
            /\ In (mkQuoteTagRow quote_id i) (quote_tags db).

(** Lexicographic order of tag names, as ORDER BY t.name yields it. *)
Definition sort_names (names : list string) : list string :=
  order_by String.leb names.

Definition name_le (a b : string) : Prop := String.leb a b = true.

(** The names of the tags joined to a quote, before ORDER BY. *)
Definition joined_names (quote_id : Z) (db : Database) : list string :=
  map (fun r => tag_name (fst r))
      (filter (fun r => Z.eqb (qt_quote_id (snd r)) quote_id)
              (Sql.tags_join_quote_tags db)).

(** How many associations quote [quote_id] has with the tag [name]. *)
Definition association_count (db : Database) (quote_id : Z) (name : string)
  : nat :=
  count_occ string_dec (joined_names quote_id db) name.

(** ** The writing operations as functions on the working copy *)

(** What _get_or_create_tag does to the working copy, and the id it
    returns. *)
Definition get_or_create (name : string) (w : Database) : Z * Database :=
  match Sql.select_tag_id name w with
  | Some tag_id => (tag_id, w)
  | None =>
      let tag_id := Sql.next_rowid (seq_tags w) (tag_ids w) in
      (tag_id, mkDatabase (quotes w) (tags w ++ [mkTagRow tag_id name])
                 (quote_tags w) (seq_quotes w) tag_id)
  end.

(** One round of a tag loop on the working copy: resolve the name, insert
    the association. *)
Definition link (quote_id : Z) (name : string) (w : Database)
  : result Database :=
  let '(tag_id, w1) := get_or_create name w in
  match Sql.insert_quote_tag quote_id tag_id w1 with
  | Ok (_, w2) => Ok w2
  | Raise e => Raise e
  end.

Fixpoint link_all (quote_id : Z) (names : list string) (w : Database)
  : result Database :=
  match names with
  | [] => Ok w
  | name :: rest =>
      match link quote_id name w with
      | Ok w' => link_all quote_id rest w'
      | Raise e => Raise e
      end
  end.

(** The row INSERT INTO quotes adds for add_quote. *)
Definition new_quote_row (clock : Clock) (text author : string)
    (source : option string) (year : option Z) (db : Database) : QuoteRow :=
  mkQuoteRow (Sql.next_rowid (seq_quotes db) (quote_ids db))
             (PyStr.strip text) (PyStr.strip author) source year
             (current_timestamp clock).

(** The working copy once that row is in. *)
Definition with_new_quote (row : QuoteRow) (db : Database) : Database :=
  mkDatabase (quotes db ++ [row]) (tags db) (quote_tags db)
             (row_id row) (seq_tags db).

(** An assignment that respects NOT NULL. *)
Definition assignment_ok (a : Sql.Assignment) : Prop :=
  match a with
  | Sql.SetText None | Sql.SetAuthor None => False
  | _ => True
  end.

(** The UPDATE of update_quote on the working copy: skipped when no column
    is set. *)
Definition apply_fields (kwargs : Kwargs) (quote_id : Z) (w : Database)
  : result Database :=
  match update_fields kwargs with
  | [] => Ok w
  | (_ :: _) as fields =>
      match Sql.update_quotes fields quote_id w with
      | Ok (_, w') => Ok w'
      | Raise e => Raise e
      end
  end.

(** The working copy after DELETE FROM quote_tags WHERE quote_id = ?. *)
Definition without_tags (quote_id : Z) (w : Database) : Database :=
  mkDatabase (quotes w) (tags w)
    (filter (fun qt => negb (Z.eqb (qt_quote_id qt) quote_id)) (quote_tags w))
    (seq_quotes w) (seq_tags w).

(** The tag part of update_quote on the working copy. *)
Definition replace_tags (kwargs : Kwargs) (quote_id : Z) (w : Database)
  : result Database :=
  match kw_tags kwargs with
  | None => Ok w
  | Some v => link_all quote_id (supplied_names v) (without_tags quote_id w)
  end.

(** ** Checking the constraints, sample data *)

(** A checker for [wf_db], to establish it of concrete databases. *)
Fixpoint distinct_b {A} (eqb : A -> A -> bool) (l : list A) : bool :=
  match l with
  | [] => true
  | x :: l' => negb (existsb (eqb x) l') && distinct_b eqb l'
  end.

Definition QuoteTagRow_eqb (a b : QuoteTagRow) : bool :=
  Z.eqb (qt_quote_id a) (qt_quote_id b) && Z.eqb (qt_tag_id a) (qt_tag_id b).

Definition wf_db_b (db : Database) : bool :=
  distinct_b Z.eqb (quote_ids db)
  && distinct_b Z.eqb (tag_ids db)
  && distinct_b String.eqb (tag_names db)
  && distinct_b QuoteTagRow_eqb (quote_tags db)
  && forallb (fun qt => mem_Z (qt_quote_id qt) (quote_ids db)) (quote_tags db)
  && forallb (fun qt => mem_Z (qt_tag_id qt) (tag_ids db)) (quote_tags db).

Definition noon : Clock :=
  mkClock "2024-05-25 12:00:00" "2024-05-25T12:00:00".

Definition one_past_noon : Clock :=
  mkClock "2024-05-25 12:00:01" "2024-05-25T12:00:01".

(** U+00A0, the no-break space, in UTF-8: white space for [str.strip()]. *)
Definition nbsp : string :=
  String (ascii_of_N 194) (String (ascii_of_N 160) EmptyString).

(** The least integer above SQLite's INTEGER range. *)
Definition beyond_int64 : Z := 2 ^ 63.

(** Two quotes, as in the scenario of the test-suite: the first tagged
    philosophy, the second humor. *)
Definition two_quotes : Database :=
  snd (add_quote one_past_noon "Don't Panic" "Douglas Adams" None None
         (Some ["humor"])
         (snd (add_quote noon "The answer is 42" "Douglas Adams" None None
                 (Some ["philosophy"]) init_database))).

(** ** Seed entries *)

(** What a quote row holds besides its id and timestamp. *)
Definition payload (r : QuoteRow)
  : string * string * option string * option Z :=
  (row_text r, row_author r, row_source r, row_year r).

Definition seed_payload (e : SeedQuote)
  : string * string * option string * option Z :=
  (seed_text e, seed_author e, seed_source e, seed_year e).

Definition seed_tag_names (e : SeedQuote) : list string :=
  match seed_tags e with
  | Some l => l
  | None => []
  end.

(** An entry add_quote accepts and stores letter for letter: text and
    author are not blank and have no white space around them, the year
    fits in 64 bits, and the tag names are trimmed, not blank and pairwise
    distinct. *)
Definition seed_entry_ok (e : SeedQuote) : bool :=
  year_fits (seed_year e)
  && negb (PyStr.blank (seed_text e))
  && negb (PyStr.blank (seed_author e))
  && String.eqb (PyStr.strip (seed_text e)) (seed_text e)
  && String.eqb (PyStr.strip (seed_author e)) (seed_author e)
  && distinct_b String.eqb (supplied_names (seed_tags e))
  && (if list_eq_dec string_dec (supplied_names (seed_tags e))
                     (seed_tag_names e)
      then true else false).

(** A stored row is the entry it was seeded from, with its tags. *)
Definition seeded_from (db : Database) (r : QuoteRow) (e : SeedQuote) : Prop :=
  payload r = seed_payload e
  /\ forall n, carries db (row_id r) n <-> In n (seed_tag_names e).

(** ** The databases the program can build *)

(** From the initialised database, by any sequence of calls of the writing
    operations, whatever they return or raise. *)
Inductive reachable : Database -> Prop :=
| reach_init : reachable init_database
| reach_add_quote clock text author source year supplied db :
    reachable db ->
    reachable (snd (add_quote clock text author source year supplied db))
| reach_update_quote quote_id kwargs db :
    reachable db -> reachable (snd (update_quote quote_id kwargs db))
| reach_delete_quote quote_id db :
    reachable db -> reachable (snd (delete_quote quote_id db))
| reach_add_tag_to_quote quote_id tag db :
    reachable db -> reachable (snd (add_tag_to_quote quote_id tag db))
| reach_seed_database clock force db :
    reachable db -> reachable (snd (seed_database clock force db)).

(** ** Tactics *)

(** Unfolding of the code that runs on a connection. *)
Ltac run_conn :=
  unfold with_connection, raise_op, bind, binding, fetch, execute, commit, ret;
  simpl.

(** ** The other readers of operations.py *)

Module SqlRead.

(** SELECT id, text, author, source, year, created_at FROM quotes
    WHERE author = ? ORDER BY created_at DESC *)
Definition select_by_author (author : string) (db : Database)
  : list QuoteRow :=
  order_by Sql.newest_first
    (filter (fun r => String.eqb (row_author r) author) (quotes db)).

(** SELECT DISTINCT q.id, q.text, q.author, q.source, q.year, q.created_at
    FROM quotes q JOIN quote_tags qt ON q.id = qt.quote_id
                  JOIN tags t ON qt.tag_id = t.id
    WHERE t.name = ?  -- the candidates of get_random_quote(tag) *)
Definition tagged (tag : string) (db : Database) : list QuoteRow :=
  nodup QuoteRow_eq_dec
    (map fst (filter (fun r => String.eqb (tag_name (snd r)) tag)
                     (Sql.quotes_join_tags db))).

(** The same with ORDER BY q.created_at DESC *)
Definition select_by_tag (tag : string) (db : Database) : list QuoteRow :=
  order_by Sql.newest_first (tagged tag db).

(** SELECT COUNT(DISTINCT author) FROM quotes *)
Definition count_authors (db : Database) : Z :=
  Z.of_nat (List.length (nodup string_dec (map row_author (quotes db)))).

(** ORDER BY count DESC *)
Definition most_first (a b : string * Z) : bool := (snd b <=? snd a)%Z.

(** SELECT author, COUNT( * ) as count FROM quotes GROUP BY author
    ORDER BY count DESC  -- the groups come in the order of their key;
    which of several rows with the largest count comes first is the
    engine's choice, and nothing below depends on it. *)
Definition author_counts (db : Database) : list (string * Z) :=
  order_by most_first
    (map (fun a =>
            (a, Z.of_nat (List.length
                            (filter (fun r => String.eqb (row_author r) a)
                                    (quotes db)))))
         (order_by String.leb
            (nodup string_dec (map row_author (quotes db))))).

(** SELECT t.name, COUNT(qt.quote_id) as count
    FROM tags t JOIN quote_tags qt ON t.id = qt.tag_id
    GROUP BY t.id, t.name ORDER BY count DESC *)
Definition tag_counts (db : Database) : list (string * Z) :=
  let joined := Sql.tags_join_quote_tags db in
  order_by most_first
    (map (fun k =>
            (tag_name k,
             Z.of_nat (List.length
                         (filter (fun r => Sql.TagRow_eqb (fst r) k) joined))))
         (nodup Sql.TagRow_eq_dec (map fst joined))).

End SqlRead.

Definition get_quotes_by_author (clock : Clock) (author : string)
  : Op (list Models.Quote) :=
  with_connection (
    rows <- fetch (SqlRead.select_by_author author);;
    quotes_of_rows clock rows).

Definition get_quotes_by_tag (clock : Clock) (tag : string)
  : Op (list Models.Quote) :=
  with_connection (
    rows <- fetch (SqlRead.select_by_tag tag);;
    quotes_of_rows clock rows).

(** [random.choice(rows)] is [rows[i]] for the index [i] below [len(rows)]
    that the generator draws; [randbelow] is that draw, reduced into the
    range here.  The statement that fetches the candidates has no ORDER
    BY, so the order of [rows] is the engine's; which quote a given draw
    picks depends on it, and what is proved of get_random_quote holds for
    every draw, or for some draw, whatever that order. *)
Definition random_choice {A} (randbelow : nat -> nat) (first : A)
    (rest : list A) : A :=
  let rows := first :: rest in
  nth (randbelow (List.length rows) mod List.length rows) rows first.

Definition get_random_quote (clock : Clock) (randbelow : nat -> nat)
    (tag : option string) : Op (option Models.Quote) :=
  with_connection (
    rows <- fetch (match tag with
                   | Some t => if PyStr.truthy t then SqlRead.tagged t
                               else quotes
                   | None => quotes
                   end);;
    match rows with
    | [] => ret None
    | first :: rest =>
        let row := random_choice randbelow first rest in
        tags <- _get_tags_for_quote (row_id row);;
        ret (Some (Models.from_row clock row tags))
    end).

(** [str(n)] of an [int] *)
Definition py_str (n : Z) : string := NilZero.string_of_int (Z.to_int n).

(** The dictionary get_statistics returns. *)
Record Statistics := mkStatistics {
  total_quotes : Z;
  total_authors : Z;
  total_tags : Z;
  most_quoted_author : string;
  most_common_tag : string
}.

(** LIMIT 1 and [fetchone()]: the first row of the cursor, shown as
    [f"{row[0]} ({row[1]} quotes)"], or ["N/A"] when there is none. *)
Definition top_or_na (rows : list (string * Z)) : string :=
  match rows with
  | [] => "N/A"
  | (name, count) :: _ => name ++ " (" ++ py_str count ++ " quotes)"
  end.

Definition get_statistics : Op Statistics :=
  with_connection (
    total_quotes <- fetch (fun db => Z.of_nat (List.length (quotes db)));;
    total_authors <- fetch SqlRead.count_authors;;
    total_tags <- fetch (fun db => Z.of_nat (List.length (tags db)));;
    by_author <- fetch SqlRead.author_counts;;
    by_tag <- fetch SqlRead.tag_counts;;
    ret (mkStatistics total_quotes total_authors total_tags
           (top_or_na by_author) (top_or_na by_tag))).

(** ** The statistics of resources.py *)

(** [author_counts[author] = author_counts.get(author, 0) + 1] on a dict,
    kept in insertion order. *)
Fixpoint count_up (counts : list (string * Z)) (author : string)
  : list (string * Z) :=
  match counts with
  | [] => [(author, 1)]
  | (a, c) :: rest =>
      if String.eqb a author then (a, c + 1) :: rest
      else (a, c) :: count_up rest author
  end.

(** [max(items, key=lambda x: x[1])]: the first item with the largest
    count. *)
Definition max_by_count (first : string * Z) (rest : list (string * Z))
  : string * Z :=
  fold_left (fun best x => if (snd best <? snd x)%Z then x else best)
            rest first.

Definition top_item_or_na (items : list (string * Z)) : string :=
  match items with
  | [] => "N/A"
  | first :: rest =>
      let top := max_by_count first rest in
      fst top ++ " (" ++ py_str (snd top) ++ " quotes)"
  end.

Definition _get_stats (clock : Clock) : Op Statistics :=
  fun db =>
    match get_all_quotes clock db with
    | (Raise e, db1) => (Raise e, db1)
    | (Ok quotes, db1) =>
        match list_all_tags db1 with
        | (Raise e, db2) => (Raise e, db2)
        | (Ok tags, db2) =>
            let authors := map Models.author quotes in
            (Ok (mkStatistics
                   (Z.of_nat (List.length quotes))
                   (Z.of_nat (List.length (nodup string_dec authors)))
                   (Z.of_nat (List.length tags))
                   (top_item_or_na (fold_left count_up authors []))
                   (top_item_or_na tags)), db2)
        end
    end.

(** ** The database file (schema.py, server.py) *)

Module Schema.

Definition SCHEMA_VERSION : Z := 1.

(** The three tables, empty, and the count test on them, as defined
    above. *)
Definition empty_tables : Database := init_database.
Definition has_quotes : Database -> bool := check_if_seeded.

(** A file with the four tables: the ledger schema_version
    (version INTEGER PRIMARY KEY, applied_at TIMESTAMP DEFAULT
    CURRENT_TIMESTAMP) and the three tables of [Database]. *)
Record Store := mkStore {
  versions : list (Z * string);
  data : Database
}.

(** The path [db_path]: no file, a file without tables, or an initialised
    database. *)
Inductive File :=
| Missing
| Blank
| Initialised (s : Store).

(** init_database: CREATE TABLE / INDEX IF NOT EXISTS leave what exists
    alone; the version is inserted unless
    SELECT version FROM schema_version WHERE version = ? finds it. *)
Definition init_database (clock : Clock) (file : File) : File :=
  match file with
  | Missing | Blank =>
      Initialised (mkStore [(SCHEMA_VERSION, current_timestamp clock)]
                           empty_tables)
  | Initialised s =>
      if existsb (fun v => Z.eqb (fst v) SCHEMA_VERSION) (versions s)
      then file
      else Initialised
             (mkStore (versions s
                       ++ [(SCHEMA_VERSION, current_timestamp clock)])
                      (data s))
  end.

(** check_if_seeded: False without the file, False when the table is not
    there (OperationalError), else [count > 0]. *)
Definition check_if_seeded (file : File) : bool :=
  match file with
  | Missing | Blank => false
  | Initialised s => has_quotes (data s)
  end.

(** get_schema_version: SELECT MAX(version) FROM schema_version, then
    [result[0] if result and result[0] else None]. *)
Definition get_schema_version (file : File) : option Z :=
  match file with
  | Missing | Blank => None
  | Initialised s =>
      match map fst (versions s) with
      | [] => None
      | v :: vs =>
          let m := fold_left Z.max vs v in
          if Z.eqb m 0 then None else Some m
      end
  end.

End Schema.

(** setup_database of server.py: initialise, then seed when auto-seeding is
    on and the database holds no quote.  What seed_database returns is
    only logged, and so is an exception it raises. *)
Definition setup_database (clock : Clock) (seed_clock : nat -> Clock)
    (auto_seed : bool) (file : Schema.File) : Schema.File :=
  let file1 := Schema.init_database clock file in
  let is_seeded := Schema.check_if_seeded file1 in
  if auto_seed && negb is_seeded then
    match file1 with
    | Schema.Initialised s =>
        Schema.Initialised
          (Schema.mkStore (Schema.versions s)
             (snd (seed_database seed_clock false (Schema.data s))))
    | _ => file1
    end
  else file1.

(** ** The tool handlers of tools.py that change the store

    A handler returns one text content; it is modelled by its text. *)

Module Tools.

(** handle_update_quote: [arguments["id"]] and the five optional fields
    copied into [update_kwargs]. *)
Definition no_fields (kwargs : Kwargs) : bool :=
  match kw_text kwargs, kw_author kwargs, kw_source kwargs,
        kw_year kwargs, kw_tags kwargs with
  | None, None, None, None, None => true
  | _, _, _, _, _ => false
  end.

Definition handle_update_quote (quote_id : Z) (kwargs : Kwargs)
  : Op string :=
  fun db =>
    if no_fields kwargs then
      (Ok "Error: No fields specified for update", db)
    else
      match update_quote quote_id kwargs db with
      | (Ok true, db') =>
          (Ok ("Quote " ++ py_str quote_id ++ " updated successfully")%string,
           db')
      | (Ok false, db') =>
          (Ok ("Error: Quote with ID " ++ py_str quote_id ++ " not found")%string,
           db')
      | (Raise (InvalidInputError msg), db') => (Ok ("Error: " ++ msg)%string, db')
      | (Raise e, db') => (Raise e, db')
      end.

Definition handle_delete_quote (quote_id : Z) : Op string :=
  fun db =>
    match delete_quote quote_id db with
    | (Ok true, db') =>
        (Ok ("Quote " ++ py_str quote_id ++ " deleted successfully")%string,
         db')
    | (Ok false, db') =>
        (Ok ("Error: Quote with ID " ++ py_str quote_id ++ " not found")%string,
         db')
    | (Raise e, db') => (Raise e, db')
    end.

Definition handle_add_tag_to_quote (quote_id : Z) (tag : string)
  : Op string :=
  fun db =>
    match add_tag_to_quote quote_id tag db with
    | (Ok true, db') =>
        (Ok ("Tag '" ++ tag ++ "' added to quote " ++ py_str quote_id
             ++ " successfully")%string, db')
    | (Ok false, db') =>
        (Ok ("Error: Quote with ID " ++ py_str quote_id ++ " not found")%string,
         db')
    | (Raise (InvalidInputError msg), db') => (Ok ("Error: " ++ msg)%string, db')
    | (Raise e, db') => (Raise e, db')
    end.

End Tools.

(** ** Vocabulary of the further properties *)

(** [db'] comes from [db] by calls of the writing operations, whatever
    they return or raise. *)
Inductive evolves (db : Database) : Database -> Prop :=
| evolves_refl : evolves db db
| evolves_add_quote clock text author source year supplied db1 :
    evolves db db1 ->
    evolves db (snd (add_quote clock text author source year supplied db1))
| evolves_update_quote quote_id kwargs db1 :
    evolves db db1 -> evolves db (snd (update_quote quote_id kwargs db1))
| evolves_delete_quote quote_id db1 :
    evolves db db1 -> evolves db (snd (delete_quote quote_id db1))
| evolves_add_tag_to_quote quote_id tag db1 :
    evolves db db1 -> evolves db (snd (add_tag_to_quote quote_id tag db1))
| evolves_seed_database clock force db1 :
    evolves db db1 -> evolves db (snd (seed_database clock force db1)).

(** The AUTOINCREMENT counters do not go back and the tag table only gets
    rows appended. *)
Definition grows (db db' : Database) : Prop :=
  (seq_quotes db <= seq_quotes db')%Z
  /\ exists extra, tags db' = tags db ++ extra.

(** The row update_quote leaves where [r] was: a supplied column takes the
    supplied value (text and author trimmed), the others stay. *)
Definition patched (kwargs : Kwargs) (r : QuoteRow) : QuoteRow :=
  mkQuoteRow (row_id r)
    (match kw_text kwargs with
     | Some (Some s) => PyStr.strip s
     | _ => row_text r
     end)
    (match kw_author kwargs with
     | Some (Some s) => PyStr.strip s
     | _ => row_author r
     end)
    (match kw_source kwargs with
     | Some v => v
     | None => row_source r
     end)
    (match kw_year kwargs with
     | Some v => v
     | None => row_year r
     end)
    (row_created_at r).

(** The quote get_quote_by_id and the listings build from a stored row. *)
Definition quote_of_row (clock : Clock) (db : Database) (r : QuoteRow)
  : Models.Quote :=
  Models.from_row clock r (Sql.select_tag_names (row_id r) db).

Definition newest_first_le (a b : QuoteRow) : Prop :=
  Sql.newest_first a b = true.

(** How many associations the tag row [t] has. *)
Definition uses (db : Database) (t : TagRow) : Z :=
  Z.of_nat (List.length
              (filter (fun qt => Z.eqb (tag_id t) (qt_tag_id qt))
                      (quote_tags db))).

(** How many quotes the author has. *)
Definition quotes_by (db : Database) (author : string) : Z :=
  Z.of_nat (List.length
              (filter (fun r => String.eqb (row_author r) author)
                      (quotes db))).

(** [mid] is [q] up to the case of ASCII letters. *)
Definition same_text (q mid : list ascii) : Prop :=
  Forall2 (fun a b => Like.same_char a b = true) q mid.

(** No character of the query is a wildcard of LIKE or the NUL at which
    SQLite stops reading the pattern. *)
Definition literal_query (q : list ascii) : Prop :=
  Forall (fun c => c <> "%"%char /\ c <> "_"%char /\ c <> Ascii.zero) q.

(** The pattern search_quotes builds from the query, [%] + query + [%],
    is within SQLite's limit on the length of a LIKE pattern. *)
Definition within_like_limit (query : option string) : Prop :=
  match query with
  | Some q => (Z.of_nat (String.length q) + 2 <= Like.MAX_PATTERN_LENGTH)%Z
  | None => True
  end.

(** [text], as LIKE reads it (up to its first NUL), contains [q], up to
    the case of ASCII letters. *)
Definition contains_caseless (text q : string) : Prop :=
  exists pre mid post,
    Like.c_string text = pre ++ mid ++ post
    /\ same_text (list_ascii_of_string q) mid.

(** listAllTags rows in the order of their names. *)
Definition by_name_le (a b : string * Z) : Prop :=
  String.leb (fst a) (fst b) = true.

(** The three tables a database file holds once it is initialised; a file
    that is missing or has no tables gets them empty. *)
Definition stored (file : Schema.File) : Database :=
  match file with
  | Schema.Initialised s => Schema.data s
  | _ => Schema.empty_tables
  end.

(** * Properties *)

(** ** Strings *)

Lemma string_of_list_ascii_nil_iff (l : list ascii) :
  string_of_list_ascii l = EmptyString <-> l = [].
Proof. destruct l; simpl; split; congruence. Qed.

Section DropSpaces.
Variable sp2 : ascii -> ascii -> bool.
Variable sp3 : ascii -> ascii -> ascii -> bool.
Hypothesis sp2_lead :
  forall c1 c2, sp2 c1 c2 = true -> PyStr.isspace c1 = false.
Hypothesis sp3_lead :
  forall c1 c2 c3, sp3 c1 c2 c3 = true ->
                   PyStr.isspace c1 = false /\ sp2 c1 c2 = false.

(** One character as [drop_spaces sp2 sp3] reads it. *)
Let reads (w : list ascii) : bool :=
  match w with
  | [c] => PyStr.isspace c
  | [c1; c2] => sp2 c1 c2
  | [c1; c2; c3] => sp3 c1 c2 c3
  | _ => false
  end.

Lemma drop_spaces_char (w rest : list ascii) :
  reads w = true ->
  PyStr.drop_spaces sp2 sp3 (w ++ rest) = PyStr.drop_spaces sp2 sp3 rest.
Proof.
  destruct w as [|c1 [|c2 [|c3 [|c4 w]]]]; simpl; try discriminate; intros H.
  - now rewrite H.
  - now rewrite (sp2_lead _ _ H), H.
  - destruct (sp3_lead _ _ _ H) as [H1 H2]. now rewrite H1, H2, H.
Qed.

Lemma drop_spaces_chars (ws : list (list ascii)) :
  forallb reads ws = true -> PyStr.drop_spaces sp2 sp3 (List.concat ws) = [].
Proof.
  induction ws as [|w ws IH]; simpl; [reflexivity|].
  intros H. apply andb_true_iff in H as [Hw Hws].
  rewrite (drop_spaces_char _ _ Hw). now apply IH.
Qed.

(** Induction along the way [drop_spaces] reads a list. *)
Lemma drop_spaces_ind (P : list ascii -> Prop) :
  P [] ->
  (forall c1 l1, PyStr.isspace c1 = true -> P l1 -> P (c1 :: l1)) ->
  (forall c1 c2 l2, PyStr.isspace c1 = false -> sp2 c1 c2 = true ->
                    P l2 -> P (c1 :: c2 :: l2)) ->
  (forall c1 c2 c3 l3, PyStr.isspace c1 = false -> sp2 c1 c2 = false ->
                       sp3 c1 c2 c3 = true -> P l3 ->
                       P (c1 :: c2 :: c3 :: l3)) ->
  (forall l, l <> [] -> PyStr.drop_spaces sp2 sp3 l = l -> P l) ->
  forall l, P l.
Proof.
  intros Hnil H1 H2 H3 Hstop.
  assert (Hall : forall n l, (List.length l <= n)%nat -> P l).
  { induction n as [|n IH]; intros l Hl.
    - destruct l; [exact Hnil | simpl in Hl; lia].
    - destruct l as [|c1 l1]; [exact Hnil|]. simpl in Hl.
      destruct (PyStr.isspace c1) eqn:E1.
      { apply H1; [exact E1|]. apply IH. lia. }
      destruct l1 as [|c2 l2].
      { apply Hstop; [discriminate|]. simpl. now rewrite E1. }
      simpl in Hl. destruct (sp2 c1 c2) eqn:E2.
      { apply H2; auto. apply IH. lia. }
      destruct l2 as [|c3 l3].
      { apply Hstop; [discriminate|]. simpl. now rewrite E1, E2. }
      simpl in Hl. destruct (sp3 c1 c2 c3) eqn:E3.
      { apply H3; auto. apply IH. lia. }
      apply Hstop; [discriminate|]. simpl. now rewrite E1, E2, E3. }
  intros l. now apply (Hall (List.length l)).
Qed.

Lemma drop_spaces_idem (l : list ascii) :
  PyStr.drop_spaces sp2 sp3 (PyStr.drop_spaces sp2 sp3 l)
  = PyStr.drop_spaces sp2 sp3 l.
Proof.
  induction l as [| c1 l1 E1 IH | c1 c2 l2 E1 E2 IH
                  | c1 c2 c3 l3 E1 E2 E3 IH | l _ Hstop]
    using drop_spaces_ind.
  - reflexivity.
  - simpl. now rewrite E1.
  - simpl. now rewrite E1, E2.
  - simpl. now rewrite E1, E2, E3.
  - now rewrite Hstop.
Qed.

Lemma drop_spaces_nil (l : list ascii) :
  PyStr.drop_spaces sp2 sp3 l = [] ->
  exists ws, forallb reads ws = true /\ l = List.concat ws.
Proof.
  induction l as [| c1 l1 E1 IH | c1 c2 l2 E1 E2 IH
                  | c1 c2 c3 l3 E1 E2 E3 IH | l Hne Hstop]
    using drop_spaces_ind.
  - intros _. exists []. split; reflexivity.
  - simpl. rewrite E1. intros H. destruct (IH H) as (ws & Hws & ->).
    exists ([c1] :: ws). split; [|reflexivity]. simpl. now rewrite E1.
  - simpl. rewrite E1, E2. intros H. destruct (IH H) as (ws & Hws & ->).
    exists ([c1; c2] :: ws). split; [|reflexivity]. simpl. now rewrite E2.
  - simpl. rewrite E1, E2, E3. intros H. destruct (IH H) as (ws & Hws & ->).
    exists ([c1; c2; c3] :: ws). split; [|reflexivity]. simpl.
    now rewrite E3.
  - rewrite Hstop. intros H. contradiction.
Qed.
End DropSpaces.

Lemma isspace2_lead (c1 c2 : ascii) :
  PyStr.isspace2 c1 c2 = true -> PyStr.isspace c1 = false.
Proof.
  unfold PyStr.isspace2, PyStr.isspace. cbv zeta. intros H.
  apply andb_true_iff in H as [H _]. apply N.eqb_eq in H. rewrite H.
  reflexivity.
Qed.

Lemma isspace3_bytes (c1 c2 c3 : ascii) :
  PyStr.isspace3 c1 c2 c3 = true ->
  (225 <= N_of_ascii c1 <= 227)%N /\ (128 <= N_of_ascii c2 <= 154)%N
  /\ (128 <= N_of_ascii c3 <= 175)%N.
Proof.
  unfold PyStr.isspace3. cbv zeta. intros H.
  repeat (apply orb_true_iff in H as [H | H]);
    repeat match goal with
           | H : (_ && _)%bool = true |- _ => apply andb_true_iff in H as [? ?]
           | H : (_ || _)%bool = true |- _ => apply orb_true_iff in H as [?|?]
           | H : (_ =? _)%N = true |- _ => apply N.eqb_eq in H
           | H : (_ <=? _)%N = true |- _ => apply N.leb_le in H
           end; lia.
Qed.

Lemma isspace_low (c : ascii) :
  PyStr.isspace c = true -> (N_of_ascii c <= 32)%N.
Proof.
  unfold PyStr.isspace. cbv zeta. intros H.
  repeat match goal with
         | H : (_ && _)%bool = true |- _ => apply andb_true_iff in H as [? ?]
         | H : (_ || _)%bool = true |- _ => apply orb_true_iff in H as [?|?]
         | H : (_ <=? _)%N = true |- _ => apply N.leb_le in H
         end; lia.
Qed.

Lemma isspace_high (c : ascii) :
  (128 <= N_of_ascii c)%N -> PyStr.isspace c = false.
Proof.
  intros H. destruct (PyStr.isspace c) eqn:E; [|reflexivity].
  apply isspace_low in E. lia.
Qed.

Lemma isspace2_bytes (c1 c2 : ascii) :
  PyStr.isspace2 c1 c2 = true ->
  N_of_ascii c1 = 194%N /\ (128 <= N_of_ascii c2)%N.
Proof.
  unfold PyStr.isspace2. cbv zeta. intros H.
  apply andb_true_iff in H as [H1 H2]. apply N.eqb_eq in H1.
  split; [exact H1|].
  apply orb_true_iff in H2 as [H2 | H2]; apply N.eqb_eq in H2; lia.
Qed.

Lemma isspace2_other_lead (c1 c2 : ascii) :
  N_of_ascii c1 <> 194%N -> PyStr.isspace2 c1 c2 = false.
Proof.
  intros H. destruct (PyStr.isspace2 c1 c2) eqn:E; [|reflexivity].
  apply isspace2_bytes in E as [E _]. contradiction.
Qed.

Lemma isspace3_lead (c1 c2 c3 : ascii) :
  PyStr.isspace3 c1 c2 c3 = true ->
  PyStr.isspace c1 = false /\ PyStr.isspace2 c1 c2 = false.
Proof.
  intros H. apply isspace3_bytes in H as (H1 & _ & _). split.
  - apply isspace_high. lia.
  - apply isspace2_other_lead. lia.
Qed.

(** Read from the end, no white-space character is the start of another
    one either. *)
Lemma isspace2_last (c2 c1 : ascii) :
  PyStr.isspace2 c1 c2 = true -> PyStr.isspace c2 = false.
Proof.
  intros H. apply isspace2_bytes in H as [_ H]. now apply isspace_high.
Qed.

Lemma isspace3_last (c3 c2 c1 : ascii) :
  PyStr.isspace3 c1 c2 c3 = true ->
  PyStr.isspace c3 = false /\ PyStr.isspace2 c2 c3 = false.
Proof.
  intros H. apply isspace3_bytes in H as (_ & H2 & H3). split.
  - apply isspace_high. lia.
  - apply isspace2_other_lead. lia.
Qed.

Lemma lstrip_chars_spaces (ws : list (list ascii)) :
  forallb PyStr.space_char ws = true -> PyStr.lstrip_chars (List.concat ws) = [].
Proof.
  apply (drop_spaces_chars PyStr.isspace2 PyStr.isspace3
           isspace2_lead isspace3_lead).
Qed.

Lemma lstrip_chars_nil (l : list ascii) :
  PyStr.lstrip_chars l = [] ->
  exists ws, forallb PyStr.space_char ws = true /\ l = List.concat ws.
Proof. apply (drop_spaces_nil PyStr.isspace2 PyStr.isspace3). Qed.

Lemma rev_concat {A} (ls : list (list A)) :
  rev (List.concat ls) = List.concat (rev (map (@rev A) ls)).
Proof.
  induction ls as [|l ls IH]; simpl; [reflexivity|].
  rewrite rev_app_distr, IH, concat_app. simpl. now rewrite app_nil_r.
Qed.

Lemma space_char_long (w : list ascii) :
  (4 <= List.length w)%nat -> PyStr.space_char w = false.
Proof.
  destruct w as [|a [|b [|c [|d w]]]]; simpl; intros; try lia; reflexivity.
Qed.

Lemma space_char_rev (w : list ascii) :
  match w with
  | [c] => PyStr.isspace c
  | [c2; c1] => PyStr.isspace2 c1 c2
  | [c3; c2; c1] => PyStr.isspace3 c1 c2 c3
  | _ => false
  end = PyStr.space_char (rev w).
Proof.
  destruct w as [|c1 [|c2 [|c3 [|c4 w]]]]; try reflexivity.
  symmetry. apply space_char_long. rewrite length_rev. simpl. lia.
Qed.

(** A byte sequence that is white space when read from its end is white
    space when read from its start. *)
Lemma rstrip_chars_nil (l : list ascii) :
  PyStr.rstrip_chars l = [] ->
  exists ws, forallb PyStr.space_char ws = true /\ l = List.concat ws.
Proof.
  unfold PyStr.rstrip_chars. intros H.
  apply (f_equal (@rev ascii)) in H. rewrite rev_involutive in H.
  simpl in H.
  apply (drop_spaces_nil (fun c2 c1 => PyStr.isspace2 c1 c2)
           (fun c3 c2 c1 => PyStr.isspace3 c1 c2 c3)) in H
    as (ws & Hws & E).
  exists (rev (map (@rev ascii) ws)). split.
  - rewrite forallb_forall in *. intros w Hw.
    apply in_rev, in_map_iff in Hw as (w' & <- & Hw').
    rewrite <- space_char_rev. now apply Hws.
  - rewrite <- rev_concat, <- E. now rewrite rev_involutive.
Qed.

Lemma strip_empty_iff (s : string) :
  PyStr.strip s = EmptyString <-> whitespace_only s.
Proof.
  unfold PyStr.strip, PyStr.rstrip, PyStr.lstrip, whitespace_only.
  rewrite list_ascii_of_string_of_list_ascii, string_of_list_ascii_nil_iff.
  split.
  - intros H. apply lstrip_chars_nil.
    destruct (rstrip_chars_nil _ H) as (ws & Hws & E).
    apply lstrip_chars_spaces in Hws. rewrite <- E in Hws.
    unfold PyStr.lstrip_chars in Hws.
    rewrite (drop_spaces_idem PyStr.isspace2 PyStr.isspace3) in Hws.
    exact Hws.
  - intros (ws & Hws & E). rewrite E, (lstrip_chars_spaces ws Hws).
    reflexivity.
Qed.

(** [blank] holds of the empty string and of the strings made of white
    space only. *)
Lemma blank_spec (s : string) :
  PyStr.blank s = true <-> whitespace_only s.
Proof.
  unfold PyStr.blank. rewrite <- strip_empty_iff.
  destruct s as [|c s].
  - simpl. split; auto.
  - simpl. destruct (PyStr.strip (String c s)); simpl; split;
      congruence.
Qed.

Lemma blank_false_truthy (s : string) :
  PyStr.blank s = false ->
  PyStr.truthy s && PyStr.truthy (PyStr.strip s) = true.
Proof.
  unfold PyStr.blank.
  destruct (PyStr.truthy s), (PyStr.truthy (PyStr.strip s)); simpl; congruence.
Qed.

Lemma truthy_blank (s : string) :
  PyStr.truthy s && PyStr.truthy (PyStr.strip s) = negb (PyStr.blank s).
Proof.
  unfold PyStr.blank.
  destruct (PyStr.truthy s), (PyStr.truthy (PyStr.strip s)); reflexivity.
Qed.

(** ** ORDER BY *)

Section OrderBy.
Context {A : Type}.
Variable before : A -> A -> bool.

Lemma insert_row_perm (x : A) (l : list A) :
  Permutation (insert_row before x l) (x :: l).
Proof.
  induction l as [|y l IH]; simpl.
  - apply Permutation_refl.
  - destruct (before x y).
    + apply Permutation_refl.
    + eapply perm_trans; [apply perm_skip, IH | apply perm_swap].
Qed.

Lemma order_by_perm (l : list A) : Permutation (order_by before l) l.
Proof.
  induction l as [|x l IH]; simpl.
  - constructor.
  - eapply perm_trans; [apply insert_row_perm | apply perm_skip, IH].
Qed.

Lemma order_by_In (x : A) (l : list A) :
  In x (order_by before l) <-> In x l.
Proof.
  split; apply Permutation_in;
    [apply order_by_perm | apply Permutation_sym, order_by_perm].
Qed.

Lemma order_by_length (l : list A) :
  List.length (order_by before l) = List.length l.
Proof. apply Permutation_length, order_by_perm. Qed.
End OrderBy.

(** ** Lookups *)

Lemma mem_Z_In (x : Z) (l : list Z) : mem_Z x l = true <-> In x l.
Proof.
  unfold mem_Z. rewrite existsb_exists. split.
  - intros (y & Hy & E). apply Z.eqb_eq in E. subst. exact Hy.
  - intros H. exists x. split; [exact H | apply Z.eqb_refl].
Qed.

Lemma mem_Z_false (x : Z) (l : list Z) : mem_Z x l = false <-> ~ In x l.
Proof.
  rewrite <- mem_Z_In. destruct (mem_Z x l); split; congruence.
Qed.

Lemma mem_string_In (x : string) (l : list string) :
  mem_string x l = true <-> In x l.
Proof.
  unfold mem_string. rewrite existsb_exists. split.
  - intros (y & Hy & E). apply String.eqb_eq in E. subst. exact Hy.
  - intros H. exists x. split; [exact H | apply String.eqb_refl].
Qed.

Lemma mem_string_false (x : string) (l : list string) :
  mem_string x l = false <-> ~ In x l.
Proof.
  rewrite <- mem_string_In. destruct (mem_string x l); split; congruence.
Qed.

Lemma select_quote_id_absent (db : Database) (quote_id : Z) :
  ~ In quote_id (quote_ids db) -> Sql.select_quote_id quote_id db = None.
Proof.
  unfold Sql.select_quote_id, quote_ids. intros H.
  destruct (find _ (quotes db)) as [r|] eqn:E; [|reflexivity].
  exfalso. apply find_some in E as [Hin Heq]. apply Z.eqb_eq in Heq.
  apply H. rewrite <- Heq. apply in_map. exact Hin.
Qed.

Lemma select_quote_id_present (db : Database) (quote_id : Z) :
  In quote_id (quote_ids db) ->
  Sql.select_quote_id quote_id db = Some quote_id.
Proof.
  unfold Sql.select_quote_id, quote_ids. intros H.
  apply in_map_iff in H as (r & Hr & Hin).
  destruct (find _ (quotes db)) as [r'|] eqn:E.
  - apply find_some in E as [_ Heq]. apply Z.eqb_eq in Heq.
    simpl. congruence.
  - exfalso. apply (find_none _ _ E) in Hin.
    rewrite Hr, Z.eqb_refl in Hin. discriminate.
Qed.

(** ** Checking the constraints *)

Lemma distinct_b_NoDup {A} (eqb : A -> A -> bool) (l : list A) :
  (forall x y, eqb x y = true <-> x = y) ->
  distinct_b eqb l = true -> NoDup l.
Proof.
  intros Heqb. induction l as [|x l IH]; simpl; intros H.
  - constructor.
  - apply andb_true_iff in H as [Hx Hl]. constructor; [|auto].
    intros Hin. apply negb_true_iff in Hx.
    assert (E : existsb (eqb x) l = true).
    { apply existsb_exists. exists x. split; [exact Hin | now apply Heqb]. }
    congruence.
Qed.

Lemma QuoteTagRow_eqb_eq (a b : QuoteTagRow) :
  QuoteTagRow_eqb a b = true <-> a = b.
Proof.
  unfold QuoteTagRow_eqb. rewrite andb_true_iff, !Z.eqb_eq.
  destruct a, b; simpl. split.
  - intros [-> ->]. reflexivity.
  - intros H. injection H as -> ->. auto.
Qed.

Lemma wf_db_b_sound (db : Database) : wf_db_b db = true -> wf_db db.
Proof.
  unfold wf_db_b. rewrite !andb_true_iff.
  intros [[[[[H1 H2] H3] H4] H5] H6]. constructor.
  - eapply distinct_b_NoDup; [apply Z.eqb_eq | exact H1].
  - eapply distinct_b_NoDup; [apply Z.eqb_eq | exact H2].
  - eapply distinct_b_NoDup; [apply String.eqb_eq | exact H3].
  - eapply distinct_b_NoDup; [apply QuoteTagRow_eqb_eq | exact H4].
  - apply Forall_forall. intros qt Hqt.
    rewrite forallb_forall in H5. apply mem_Z_In, H5, Hqt.
  - apply Forall_forall. intros qt Hqt.
    rewrite forallb_forall in H6. apply mem_Z_In, H6, Hqt.
Qed.

(** ** update_quote: the failure modes *)

(** C10: update_quote validates [text] and [author] before it looks the
    quote up, so on an id that is not in the store a call that supplies an
    empty or whitespace-only text or author raises InvalidInputError
    instead of returning the not-found value false; the store is left as
    it was. *)
Theorem update_quote_invalid_input_precedes_not_found :
  forall (db : Database) (quote_id : Z) (kwargs : Kwargs),
    ~ In quote_id (quote_ids db) ->
    (exists t, kw_text kwargs = Some (Some t) /\ whitespace_only t)
    \/ (exists a, kw_author kwargs = Some (Some a) /\ whitespace_only a) ->
    exists msg,
      update_quote quote_id kwargs db = (Raise (InvalidInputError msg), db).
Proof.
  intros db quote_id kwargs _ [(t & Ht & Hw) | (a & Ha & Hw)];
    apply blank_spec in Hw; unfold update_quote.
  - rewrite Ht. simpl. rewrite Hw. eexists. reflexivity.
  - destruct (kw_blank (kw_text kwargs)).
    + eexists. reflexivity.
    + rewrite Ha. simpl. rewrite Hw. eexists. reflexivity.
Qed.

Lemma update_quote_invalid_input_precedes_not_found_witness :
  exists msg,
    update_quote 7 (mkKwargs (Some (Some (" " ++ nbsp)%string)) None None None None)
                 two_quotes
    = (Raise (InvalidInputError msg), two_quotes).
Proof.
  apply update_quote_invalid_input_precedes_not_found.
  - vm_compute. intros [H | [H | []]]; discriminate H.
  - left. exists (" " ++ nbsp)%string. split; [reflexivity|].
    exists [list_ascii_of_string " "; list_ascii_of_string nbsp].
    split; reflexivity.
Defined.

Lemma binding_fits (ints : list Z) (c : Conn) :
  forallb fits_int64 ints = true -> binding ints c = (Ok tt, c).
Proof. intros H. unfold binding. now rewrite H. Qed.

Lemma binding_overflow (ints : list Z) (c : Conn) :
  forallb fits_int64 ints = false -> binding ints c = (Raise OverflowError, c).
Proof. intros H. unfold binding. now rewrite H. Qed.

Lemma with_connection_binding_fits {A} (ints : list Z) (body : M A)
    (db : Database) :
  forallb fits_int64 ints = true ->
  with_connection (binding ints;; body) db = with_connection body db.
Proof.
  intros H. unfold with_connection, bind. now rewrite (binding_fits _ _ H).
Qed.

Lemma with_connection_binding_overflow {A} (ints : list Z) (body : M A)
    (db : Database) :
  forallb fits_int64 ints = false ->
  with_connection (binding ints;; body) db = (Raise OverflowError, db).
Proof.
  intros H. unfold with_connection, bind.
  now rewrite (binding_overflow _ _ H).
Qed.

Lemma fits_one (n : Z) : forallb fits_int64 [n] = fits_int64 n.
Proof. simpl. apply andb_true_r. Qed.

Lemma delete_quote_fits (quote_id : Z) (db : Database) :
  fits_int64 quote_id = true ->
  delete_quote quote_id db
  = with_connection (
      rowcount <- execute (Sql.delete_quote quote_id);;
      commit;;
      ret (0 <? rowcount)%Z) db.
Proof.
  intros H. unfold delete_quote.
  apply with_connection_binding_fits. now rewrite fits_one.
Qed.

Lemma delete_quote_overflow (quote_id : Z) (db : Database) :
  fits_int64 quote_id = false ->
  delete_quote quote_id db = (Raise OverflowError, db).
Proof.
  intros H. unfold delete_quote.
  apply with_connection_binding_overflow. now rewrite fits_one.
Qed.

Lemma get_quote_by_id_fits (clock : Clock) (quote_id : Z) (db : Database) :
  fits_int64 quote_id = true ->
  get_quote_by_id clock quote_id db
  = with_connection (
      row <- fetch (Sql.select_quote quote_id);;
      match row with
      | None => ret None
      | Some r =>
          tags <- _get_tags_for_quote quote_id;;
          ret (Some (Models.from_row clock r tags))
      end) db.
Proof.
  intros H. unfold get_quote_by_id.
  apply with_connection_binding_fits. now rewrite fits_one.
Qed.

Lemma get_quote_by_id_overflow (clock : Clock) (quote_id : Z)
    (db : Database) :
  fits_int64 quote_id = false ->
  get_quote_by_id clock quote_id db = (Raise OverflowError, db).
Proof.
  intros H. unfold get_quote_by_id.
  apply with_connection_binding_overflow. now rewrite fits_one.
Qed.

Lemma add_tag_to_quote_fits (quote_id : Z) (tag : string) (db : Database) :
  PyStr.blank tag = false ->
  fits_int64 quote_id = true ->
  add_tag_to_quote quote_id tag db
  = with_connection (
      found <- fetch (Sql.select_quote_id quote_id);;
      match found with
      | None => ret false
      | Some _ =>
          tag_id <- _get_or_create_tag (PyStr.strip tag);;
          linked <- fetch (Sql.select_quote_tag quote_id tag_id);;
          match linked with
          | Some _ => commit;; ret true
          | None =>
              execute (Sql.insert_quote_tag quote_id tag_id);;
              commit;;
              ret true
          end
      end) db.
Proof.
  intros Hb H. unfold add_tag_to_quote. rewrite Hb.
  apply with_connection_binding_fits. now rewrite fits_one.
Qed.

Lemma add_tag_to_quote_overflow (quote_id : Z) (tag : string)
    (db : Database) :
  PyStr.blank tag = false ->
  fits_int64 quote_id = false ->
  add_tag_to_quote quote_id tag db = (Raise OverflowError, db).
Proof.
  intros Hb H. unfold add_tag_to_quote. rewrite Hb.
  apply with_connection_binding_overflow. now rewrite fits_one.
Qed.

Lemma add_quote_fits (clock : Clock) (text author : string)
    (source : option string) (year : option Z)
    (supplied : option (list string)) (db : Database) :
  PyStr.blank text = false -> PyStr.blank author = false ->
  year_fits year = true ->
  add_quote clock text author source year supplied db
  = with_connection (
      quote_id <- execute (Sql.insert_quote (current_timestamp clock)
                             (PyStr.strip text) (PyStr.strip author)
                             source year);;
      tag_names <- match supplied with
                   | Some ((_ :: _) as l) => add_quote_tags quote_id l []
                   | _ => ret []
                   end;;
      commit;;
      row <- fetch (Sql.select_quote quote_id);;
      match row with
      | Some r => ret (Models.from_row clock r tag_names)
      | None => fun c => (Raise TypeError, c)
      end) db.
Proof.
  intros Ht Ha H. unfold add_quote. rewrite Ht, Ha.
  now apply with_connection_binding_fits.
Qed.

Lemma add_quote_overflow (clock : Clock) (text author : string)
    (source : option string) (year : option Z)
    (supplied : option (list string)) (db : Database) :
  PyStr.blank text = false -> PyStr.blank author = false ->
  year_fits year = false ->
  add_quote clock text author source year supplied db
  = (Raise OverflowError, db).
Proof.
  intros Ht Ha H. unfold add_quote. rewrite Ht, Ha.
  now apply with_connection_binding_overflow.
Qed.

Lemma update_quote_absent_id_aux (db : Database) (quote_id : Z)
    (kwargs : Kwargs) :
  fits_int64 quote_id = true ->
  ~ In quote_id (quote_ids db) ->
  kw_blank (kw_text kwargs) = false ->
  kw_blank (kw_author kwargs) = false ->
  update_quote quote_id kwargs db = (Ok false, db).
Proof.
  intros Hfits Habs Ht Ha.
  unfold update_quote. rewrite Ht, Ha. run_conn. rewrite Hfits. simpl.
  rewrite (select_quote_id_absent _ _ Habs). reflexivity.
Qed.

Lemma update_quote_overflow_id (db : Database) (quote_id : Z)
    (kwargs : Kwargs) :
  fits_int64 quote_id = false ->
  kw_blank (kw_text kwargs) = false ->
  kw_blank (kw_author kwargs) = false ->
  update_quote quote_id kwargs db = (Raise OverflowError, db).
Proof.
  intros Hfits Ht Ha.
  unfold update_quote. rewrite Ht, Ha. run_conn. rewrite Hfits. reflexivity.
Qed.

(** C5, as the code has it: on a quote id that is not in the store,
    update_quote with valid text and author (absent, or not blank) returns
    false when the id fits in 64 bits and raises OverflowError, at the
    binding of the id, when it does not.  Either way the database is the
    one it started from: no quote row, tag row or association changes. *)
Theorem update_quote_absent_id_returns_false :
  forall (db : Database) (quote_id : Z) (kwargs : Kwargs),
    ~ In quote_id (quote_ids db) ->
    kw_blank (kw_text kwargs) = false ->
    kw_blank (kw_author kwargs) = false ->
    update_quote quote_id kwargs db
    = (if fits_int64 quote_id then Ok false else Raise OverflowError, db).
Proof.
  intros db quote_id kwargs Habs Ht Ha.
  destruct (fits_int64 quote_id) eqn:Hfits.
  - now apply update_quote_absent_id_aux.
  - now apply update_quote_overflow_id.
Qed.

Lemma update_quote_absent_id_returns_false_witness :
  update_quote 999
    (mkKwargs (Some (Some "New text")) None None None (Some (Some ["t"])))
    two_quotes
  = (if fits_int64 999 then Ok false else Raise OverflowError, two_quotes).
Proof.
  apply update_quote_absent_id_returns_false.
  - vm_compute. intros [H | [H | []]]; discriminate H.
  - reflexivity.
  - reflexivity.
Defined.

(** C5, the claim as stated fails: the id 2^63 is not in the store, the
    fields are valid, and update_quote does not return false but raises
    OverflowError. *)
Lemma update_quote_absent_id_overflows :
  ~ In beyond_int64 (quote_ids two_quotes)
  /\ update_quote beyond_int64
       (mkKwargs (Some (Some "New text")) None None None None) two_quotes
     = (Raise OverflowError, two_quotes)
  /\ update_quote beyond_int64
       (mkKwargs (Some (Some "New text")) None None None None) two_quotes
     <> (Ok false, two_quotes).
Proof.
  split; [|split].
  - vm_compute. intros [H | [H | []]]; discriminate H.
  - vm_compute. reflexivity.
  - vm_compute. discriminate.
Qed.

(** ** search_quotes without filters *)

Lemma filter_all {A} (f : A -> bool) (l : list A) :
  (forall x, In x l -> f x = true) -> filter f l = l.
Proof.
  induction l as [|x l IH]; simpl; intros H; [reflexivity|].
  rewrite (H x (or_introl eq_refl)). f_equal. apply IH.
  intros y Hy. apply H. right. exact Hy.
Qed.

Lemma wf_quotes_NoDup (db : Database) : wf_db db -> NoDup (quotes db).
Proof.
  intros H. apply (NoDup_map_inv row_id). exact (wf_quote_pk _ H).
Qed.

Lemma where_query_absent (query : option string) (q : QuoteRow) :
  no_string query -> Sql.where_query query q = true.
Proof. intros [-> | ->]; reflexivity. Qed.

Lemma where_author_absent (author : option string) (q : QuoteRow) :
  no_string author -> Sql.where_author author q = true.
Proof. intros [-> | ->]; reflexivity. Qed.

Lemma search_no_filters_rows (db : Database)
    (query author : option string) (tags : option (list string)) :
  wf_db db -> no_string query -> no_string author -> no_list tags ->
  Sql.search query author tags db = Sql.select_all_quotes db.
Proof.
  intros Hwf Hq Ha Ht.
  assert (E : Sql.search query author tags db
              = order_by Sql.newest_first
                  (nodup QuoteRow_eq_dec
                     (filter (fun q => Sql.where_query query q
                                       && Sql.where_author author q)
                             (quotes db)))).
  { destruct Ht as [-> | ->]; reflexivity. }
  rewrite E. unfold Sql.select_all_quotes.
  rewrite filter_all.
  - rewrite nodup_fixed_point; [reflexivity | apply wf_quotes_NoDup, Hwf].
  - intros q _. rewrite where_query_absent, where_author_absent; auto.
Qed.

(** C9: with no filter supplied -- query, author and tags absent, or given
    as the empty string or the empty list, which [if query:], [if author:]
    and [if tags:] treat alike -- search_quotes returns the very sequence
    get_all_quotes returns, most recent first, and leaves the store as it
    is. *)
Theorem search_quotes_no_filters_is_get_all_quotes :
  forall (clock : Clock) (db : Database)
         (query author : option string) (tags : option (list string)),
    wf_db db ->
    no_string query -> no_string author -> no_list tags ->
    search_quotes clock query author tags db = get_all_quotes clock db.
Proof.
  intros clock db query author tags Hwf Hq Ha Ht.
  unfold search_quotes, get_all_quotes. run_conn.
  rewrite (search_no_filters_rows db query author tags Hwf Hq Ha Ht).
  reflexivity.
Qed.

Lemma search_quotes_no_filters_is_get_all_quotes_witness :
  search_quotes noon (Some "") None (Some []) two_quotes
  = get_all_quotes noon two_quotes.
Proof.
  apply search_quotes_no_filters_is_get_all_quotes.
  - apply wf_db_b_sound. vm_compute. reflexivity.
  - right. reflexivity.
  - left. reflexivity.
  - right. reflexivity.
Defined.

(** ** delete_quote *)

Lemma filter_none {A} (f : A -> bool) (l : list A) :
  (forall x, In x l -> f x = false) -> filter f l = [].
Proof.
  induction l as [|x l IH]; simpl; intros H; [reflexivity|].
  rewrite (H x (or_introl eq_refl)). apply IH.
  intros y Hy. apply H. right. exact Hy.
Qed.

Lemma deleted_ids_mem (quote_id x : Z) (rows : list QuoteRow) :
  mem_Z x (map row_id (filter (fun r => Z.eqb (row_id r) quote_id) rows))
  = Z.eqb x quote_id && mem_Z quote_id (map row_id rows).
Proof.
  induction rows as [|r rows IH]; simpl.
  - now rewrite andb_false_r.
  - destruct (Z.eqb_spec (row_id r) quote_id) as [E|N]; simpl.
    + rewrite IH, E.
      destruct (Z.eqb_spec x quote_id) as [->|]; simpl; [|reflexivity].
      now rewrite !Z.eqb_refl.
    + rewrite IH. destruct (Z.eqb_spec quote_id (row_id r)); [congruence|].
      reflexivity.
Qed.

Lemma delete_quote_present (db : Database) (quote_id : Z) :
  fits_int64 quote_id = true ->
  In quote_id (quote_ids db) ->
  delete_quote quote_id db
  = (Ok true,
     mkDatabase
       (filter (fun r => negb (Z.eqb (row_id r) quote_id)) (quotes db))
       (tags db)
       (filter (fun qt => negb (Z.eqb (qt_quote_id qt) quote_id))
               (quote_tags db))
       (seq_quotes db) (seq_tags db)).
Proof.
  intros Hfits Hin. rewrite (delete_quote_fits _ _ Hfits). run_conn. f_equal.
  - f_equal.
    destruct (filter (fun r => Z.eqb (row_id r) quote_id) (quotes db))
      as [|r gone] eqn:E; [|reflexivity].
    exfalso. unfold quote_ids in Hin.
    apply in_map_iff in Hin as (r & Hr & Hin).
    assert (H : In r (filter (fun r => Z.eqb (row_id r) quote_id) (quotes db))).
    { apply filter_In. split; [exact Hin | now apply Z.eqb_eq]. }
    rewrite E in H. exact H.
  - f_equal. apply filter_ext. intros qt.
    rewrite deleted_ids_mem.
    apply mem_Z_In in Hin. unfold quote_ids in Hin. rewrite Hin.
    now rewrite andb_true_r.
Qed.

Lemma delete_quote_absent (db : Database) (quote_id : Z) :
  fits_int64 quote_id = true ->
  ~ In quote_id (quote_ids db) ->
  delete_quote quote_id db = (Ok false, db).
Proof.
  intros Hfits Habs. rewrite (delete_quote_fits _ _ Hfits). run_conn.
  assert (E : filter (fun r => Z.eqb (row_id r) quote_id) (quotes db) = []).
  { apply filter_none. intros r Hr. apply Z.eqb_neq. intros <-.
    apply Habs. unfold quote_ids. now apply in_map. }
  rewrite E. simpl. f_equal.
  rewrite !filter_all.
  - destruct db; reflexivity.
  - reflexivity.
  - intros r Hr. apply negb_true_iff, Z.eqb_neq. intros <-.
    apply Habs. unfold quote_ids. now apply in_map.
Qed.

Lemma tag_count_zero (db : Database) (t : TagRow) :
  In t (tags db) ->
  (forall qt, In qt (quote_tags db) -> qt_tag_id qt <> tag_id t) ->
  In (tag_name t, 0) (Sql.select_tag_counts db).
Proof.
  intros Ht Hfree. unfold Sql.select_tag_counts.
  apply order_by_In.
  assert (Hnone : filter (fun qt => Z.eqb (tag_id t) (qt_tag_id qt))
                         (quote_tags db) = []).
  { apply filter_none. intros qt Hqt. apply Z.eqb_neq.
    intros E. apply (Hfree qt Hqt). congruence. }
  assert (Hrows : forall r, In r (Sql.tags_left_join_quote_tags db) ->
                            fst r = t -> snd r = None).
  { intros r Hr Hfst. unfold Sql.tags_left_join_quote_tags in Hr.
    apply in_flat_map in Hr as (t' & Ht' & Hr).
    destruct (filter (fun qt => Z.eqb (tag_id t') (qt_tag_id qt))
                     (quote_tags db)) as [|qt l] eqn:E.
    - destruct Hr as [<- | []]. reflexivity.
    - exfalso. apply in_map_iff in Hr as (qt' & <- & Hqt').
      simpl in Hfst. subst t'. rewrite Hnone in E. discriminate. }
  apply in_map_iff. exists t. split.
  - f_equal. unfold Sql.count_quote_id. rewrite filter_none; [reflexivity|].
    intros r Hr. apply filter_In in Hr as [Hr Hk].
    unfold Sql.TagRow_eqb in Hk.
    destruct (Sql.TagRow_eq_dec (fst r) t) as [E|]; [|discriminate].
    now rewrite (Hrows r Hr E).
  - apply nodup_In. apply in_map_iff. exists (t, None). split; [reflexivity|].
    unfold Sql.tags_left_join_quote_tags. apply in_flat_map.
    exists t. split; [exact Ht|]. rewrite Hnone. left. reflexivity.
Qed.

(** C6, as the code has it.  For a quote id that fits in 64 bits (as
    every id the database has handed out does): if it is in the store,
    delete_quote returns true, the quote row and every association of that
    quote are gone, the other quote rows and associations stay, and the
    tag table is untouched, so a tag whose associations were all with that
    quote is listed by list_all_tags afterwards with count 0; if it is not
    in the store, delete_quote returns false and the database is
    unchanged.  For an id that does not fit in 64 bits delete_quote raises
    OverflowError and the database is unchanged. *)
Theorem delete_quote_cascades_and_keeps_tags :
  forall (db : Database) (quote_id : Z),
    (fits_int64 quote_id = true ->
     (In quote_id (quote_ids db) ->
      exists db',
        delete_quote quote_id db = (Ok true, db')
        /\ ~ In quote_id (quote_ids db')
        /\ (forall qt, In qt (quote_tags db') -> qt_quote_id qt <> quote_id)
        /\ quotes db'
           = filter (fun r => negb (Z.eqb (row_id r) quote_id)) (quotes db)
        /\ quote_tags db'
           = filter (fun qt => negb (Z.eqb (qt_quote_id qt) quote_id))
                    (quote_tags db)
        /\ tags db' = tags db
        /\ forall t,
             In t (tags db) ->
             (forall qt, In qt (quote_tags db) ->
                         qt_tag_id qt = tag_id t -> qt_quote_id qt = quote_id) ->
             exists counts,
               list_all_tags db' = (Ok counts, db')
               /\ In (tag_name t, 0) counts)
     /\ (~ In quote_id (quote_ids db) ->
         delete_quote quote_id db = (Ok false, db)))
    /\ (fits_int64 quote_id = false ->
        delete_quote quote_id db = (Raise OverflowError, db)).
Proof.
  intros db quote_id. split; [|apply delete_quote_overflow].
  intros Hfits. split; [|now apply delete_quote_absent].
  intros Hin. eexists. split; [now apply delete_quote_present|]. simpl.
  repeat split.
  - unfold quote_ids. simpl. intros H.
    apply in_map_iff in H as (r & Hr & H).
    apply filter_In in H as [_ H].
    apply negb_true_iff, Z.eqb_neq in H. contradiction.
  - intros qt H. apply filter_In in H as [_ H].
    now apply negb_true_iff, Z.eqb_neq in H.
  - intros t Ht Honly. eexists. split; [reflexivity|].
    apply tag_count_zero; simpl; [exact Ht|].
    intros qt Hqt E. apply filter_In in Hqt as [Hqt Hne].
    apply negb_true_iff, Z.eqb_neq in Hne. apply Hne.
    now apply Honly.
Qed.

Lemma delete_quote_cascades_and_keeps_tags_witness :
  (exists db',
     delete_quote 1 two_quotes = (Ok true, db')
     /\ exists counts,
          list_all_tags db' = (Ok counts, db')
          /\ In ("philosophy", 0) counts)
  /\ delete_quote 5 two_quotes = (Ok false, two_quotes)
  /\ delete_quote beyond_int64 two_quotes = (Raise OverflowError, two_quotes).
Proof.
  destruct (delete_quote_cascades_and_keeps_tags two_quotes 1)
    as [Hfits _].
  destruct (Hfits eq_refl) as [Hpresent _].
  destruct (delete_quote_cascades_and_keeps_tags two_quotes 5)
    as [Hfits5 _].
  destruct (Hfits5 eq_refl) as [_ Habsent].
  destruct (delete_quote_cascades_and_keeps_tags two_quotes beyond_int64)
    as [_ Hbeyond].
  split; [|split].
  - destruct Hpresent as (db' & Hdel & _ & _ & _ & _ & _ & Htags).
    { vm_compute. left. reflexivity. }
    exists db'. split; [exact Hdel|].
    apply (Htags (mkTagRow 1 "philosophy")).
    + vm_compute. left. reflexivity.
    + vm_compute. intros qt [<- | [<- | []]]; simpl; intros E;
        [reflexivity | discriminate E].
  - apply Habsent. vm_compute. intros [H | [H | []]]; discriminate H.
  - apply Hbeyond. reflexivity.
Defined.

(** C6, the claim as stated fails: the id 2^63 is not in the store, and
    delete_quote does not return false but raises OverflowError. *)
Lemma delete_quote_absent_id_overflows :
  ~ In beyond_int64 (quote_ids two_quotes)
  /\ delete_quote beyond_int64 two_quotes = (Raise OverflowError, two_quotes)
  /\ delete_quote beyond_int64 two_quotes <> (Ok false, two_quotes).
Proof.
  split; [|split].
  - vm_compute. intros [H | [H | []]]; discriminate H.
  - vm_compute. reflexivity.
  - vm_compute. discriminate.
Qed.

(** ** Resolving tag names *)

Lemma select_tag_id_None (name : string) (w : Database) :
  Sql.select_tag_id name w = None <-> ~ In name (tag_names w).
Proof.
  unfold Sql.select_tag_id, tag_names. split.
  - intros H Hin. apply in_map_iff in Hin as (t & Ht & Hin).
    destruct (find _ (tags w)) as [t'|] eqn:E; [discriminate|].
    apply (find_none _ _ E) in Hin. rewrite Ht, String.eqb_refl in Hin.
    discriminate.
  - intros H. destruct (find _ (tags w)) as [t'|] eqn:E; [|reflexivity].
    exfalso. apply find_some in E as [Hin Heq]. apply String.eqb_eq in Heq.
    apply H. rewrite <- Heq. now apply in_map.
Qed.

Lemma select_tag_id_Some (name : string) (w : Database) (i : Z) :
  Sql.select_tag_id name w = Some i -> In (mkTagRow i name) (tags w).
Proof.
  unfold Sql.select_tag_id. intros H.
  destruct (find _ (tags w)) as [t|] eqn:E; [|discriminate].
  apply find_some in E as [Hin Heq]. apply String.eqb_eq in Heq.
  simpl in H. injection H as <-. subst name. now destruct t.
Qed.

Lemma find_app {A} (f : A -> bool) (l1 l2 : list A) :
  find f (l1 ++ l2)
  = match find f l1 with Some x => Some x | None => find f l2 end.
Proof.
  induction l1 as [|x l1 IH]; simpl; [reflexivity|].
  destruct (f x); [reflexivity | exact IH].
Qed.

Lemma select_tag_id_app (name : string) (w : Database) (i : Z)
    (extra : list TagRow) (qs : list QuoteRow) (qts : list QuoteTagRow)
    (s1 s2 : Z) :
  Sql.select_tag_id name w = Some i ->
  Sql.select_tag_id name (mkDatabase qs (tags w ++ extra) qts s1 s2) = Some i.
Proof.
  unfold Sql.select_tag_id. simpl. intros H.
  destruct (find _ (tags w)) as [t|] eqn:E; [|discriminate].
  rewrite find_app, E. exact H.
Qed.

Lemma get_or_create_run (name : string) (c : Conn) :
  _get_or_create_tag name c
  = (Ok (fst (get_or_create name (txn c))),
     mkConn (disk c) (snd (get_or_create name (txn c)))).
Proof.
  unfold _get_or_create_tag, get_or_create. run_conn.
  destruct (Sql.select_tag_id name (txn c)) eqn:E; simpl.
  - now destruct c.
  - unfold Sql.insert_tag.
    apply select_tag_id_None, mem_string_false in E. rewrite E. reflexivity.
Qed.

Lemma max_rowid_ge (ids : list Z) (x : Z) :
  In x ids -> x <= Sql.max_rowid ids.
Proof.
  induction ids as [|y ids IH]; simpl; [tauto|].
  intros [-> | H]; [lia|]. specialize (IH H). lia.
Qed.

Lemma next_rowid_fresh (seq : Z) (ids : list Z) :
  ~ In (Sql.next_rowid seq ids) ids.
Proof.
  unfold Sql.next_rowid. intros H. apply max_rowid_ge in H. lia.
Qed.

Section GetOrCreate.
Variable name : string.
Variable w : Database.
Let i := fst (get_or_create name w).
Let w' := snd (get_or_create name w).

Lemma get_or_create_quotes : quotes w' = quotes w.
Proof.
  subst w'. unfold get_or_create.
  destruct (Sql.select_tag_id name w); reflexivity.
Qed.

Lemma get_or_create_quote_tags : quote_tags w' = quote_tags w.
Proof.
  subst w'. unfold get_or_create.
  destruct (Sql.select_tag_id name w); reflexivity.
Qed.

Lemma get_or_create_seq_quotes : seq_quotes w' = seq_quotes w.
Proof.
  subst w'. unfold get_or_create.
  destruct (Sql.select_tag_id name w); reflexivity.
Qed.

Lemma get_or_create_tags :
  (In name (tag_names w) /\ tags w' = tags w)
  \/ (~ In name (tag_names w) /\ ~ In i (tag_ids w)
      /\ tags w' = tags w ++ [mkTagRow i name]).
Proof.
  subst i w'. unfold get_or_create.
  destruct (Sql.select_tag_id name w) eqn:E; simpl.
  - left. split; [|reflexivity].
    apply select_tag_id_Some in E. unfold tag_names.
    apply in_map_iff. exists (mkTagRow z name). auto.
  - right. apply select_tag_id_None in E.
    split; [exact E|]. split; [apply next_rowid_fresh | reflexivity].
Qed.

Lemma get_or_create_row : In (mkTagRow i name) (tags w').
Proof.
  subst i w'. unfold get_or_create.
  destruct (Sql.select_tag_id name w) eqn:E; simpl.
  - now apply select_tag_id_Some.
  - apply in_or_app. right. left. reflexivity.
Qed.

Lemma get_or_create_select : Sql.select_tag_id name w' = Some i.
Proof.
  subst i w'. unfold get_or_create.
  destruct (Sql.select_tag_id name w) eqn:E; simpl; [exact E|].
  unfold Sql.select_tag_id in *. simpl. rewrite find_app.
  destruct (find _ (tags w)); [discriminate|]. simpl.
  now rewrite String.eqb_refl.
Qed.

Lemma get_or_create_stable (n : string) (j : Z) :
  Sql.select_tag_id n w = Some j -> Sql.select_tag_id n w' = Some j.
Proof.
  intros H. subst w'. unfold get_or_create.
  destruct (Sql.select_tag_id name w) eqn:E; simpl; [exact H|].
  now apply select_tag_id_app.
Qed.

Lemma get_or_create_wf : wf_db w -> wf_db w'.
Proof.
  intros [H1 H2 H3 H4 H5 H6].
  pose proof get_or_create_quotes as Eq.
  pose proof get_or_create_quote_tags as Eqt.
  destruct get_or_create_tags as [[_ Et] | (Hn & Hi & Et)].
  - constructor; unfold quote_ids, tag_ids, tag_names in *;
      rewrite ?Eq, ?Eqt, ?Et; assumption.
  - constructor; unfold quote_ids, tag_ids, tag_names in *;
      rewrite ?Eq, ?Eqt, ?Et, ?map_app; simpl; try assumption.
    + apply NoDup_app; [exact H2 | repeat constructor; simpl; tauto |].
      intros x Hx [<- | []]. contradiction.
    + apply NoDup_app; [exact H3 | repeat constructor; simpl; tauto |].
      intros x Hx [<- | []]. contradiction.
    + eapply Forall_impl; [|exact H6]. simpl. intros qt Hqt.
      apply in_or_app. left. exact Hqt.
Qed.
End GetOrCreate.

(** ** Inserting an association *)

Lemma insert_quote_tag_raises (quote_id i : Z) (w : Database) (e : exn) :
  Sql.insert_quote_tag quote_id i w = Raise e -> e = IntegrityError.
Proof.
  unfold Sql.insert_quote_tag.
  destruct (in_dec _ _ _); [congruence|].
  destruct (negb (mem_Z quote_id (quote_ids w))); [congruence|].
  destruct (negb (mem_Z i (tag_ids w))); congruence.
Qed.

Lemma insert_quote_tag_duplicate (quote_id i : Z) (w : Database) :
  In (mkQuoteTagRow quote_id i) (quote_tags w) ->
  Sql.insert_quote_tag quote_id i w = Raise IntegrityError.
Proof.
  intros H. unfold Sql.insert_quote_tag.
  destruct (in_dec _ _ _); [reflexivity | contradiction].
Qed.

Lemma insert_quote_tag_Ok (quote_id i : Z) (w : Database) :
  ~ In (mkQuoteTagRow quote_id i) (quote_tags w) ->
  In quote_id (quote_ids w) -> In i (tag_ids w) ->
  Sql.insert_quote_tag quote_id i w
  = Ok (tt, mkDatabase (quotes w) (tags w)
              (quote_tags w ++ [mkQuoteTagRow quote_id i])
              (seq_quotes w) (seq_tags w)).
Proof.
  intros Hnew Hq Ht. unfold Sql.insert_quote_tag.
  destruct (in_dec _ _ _); [contradiction|].
  apply mem_Z_In in Hq, Ht. now rewrite Hq, Ht.
Qed.

Lemma insert_quote_tag_Ok_inv (quote_id i : Z) (w w2 : Database) (u : unit) :
  Sql.insert_quote_tag quote_id i w = Ok (u, w2) ->
  w2 = mkDatabase (quotes w) (tags w)
         (quote_tags w ++ [mkQuoteTagRow quote_id i])
         (seq_quotes w) (seq_tags w).
Proof.
  unfold Sql.insert_quote_tag.
  destruct (in_dec _ _ _); [discriminate|].
  destruct (negb (mem_Z quote_id (quote_ids w))); [discriminate|].
  destruct (negb (mem_Z i (tag_ids w))); [discriminate|].
  congruence.
Qed.

Lemma NoDup_map_inj_on {A B} (f : A -> B) (l : list A) (a b : A) :
  NoDup (map f l) -> In a l -> In b l -> f a = f b -> a = b.
Proof.
  induction l as [|x l IH]; simpl; [tauto|].
  intros Hnd Ha Hb E. apply NoDup_cons_iff in Hnd as [Hx Hnd].
  destruct Ha as [-> | Ha], Hb as [-> | Hb]; auto.
  - exfalso. apply Hx. rewrite E. now apply in_map.
  - exfalso. apply Hx. rewrite <- E. now apply in_map.
Qed.

(** ** One round of a tag loop *)

Lemma link_raises (quote_id : Z) (name : string) (w : Database) (e : exn) :
  link quote_id name w = Raise e -> e = IntegrityError.
Proof.
  unfold link. destruct (get_or_create name w) as [i w1].
  destruct (Sql.insert_quote_tag quote_id i w1) as [[u w2]|e'] eqn:E;
    [discriminate|].
  intros H. injection H as <-. eapply insert_quote_tag_raises, E.
Qed.

Lemma link_Ok_inv (quote_id : Z) (name : string) (w w2 : Database) :
  link quote_id name w = Ok w2 ->
  let i := fst (get_or_create name w) in
  let w1 := snd (get_or_create name w) in
  w2 = mkDatabase (quotes w1) (tags w1)
         (quote_tags w1 ++ [mkQuoteTagRow quote_id i])
         (seq_quotes w1) (seq_tags w1).
Proof.
  unfold link. destruct (get_or_create name w) as [i w1]. simpl.
  destruct (Sql.insert_quote_tag quote_id i w1) as [[u w2']|e'] eqn:E;
    [|discriminate].
  intros H. injection H as <-. eapply insert_quote_tag_Ok_inv, E.
Qed.

Lemma link_ok (quote_id : Z) (name : string) (w : Database) :
  wf_db w -> In quote_id (quote_ids w) -> ~ carries w quote_id name ->
  exists w2,
    link quote_id name w = Ok w2
    /\ wf_db w2
    /\ quotes w2 = quotes w
    /\ seq_quotes w2 = seq_quotes w
    /\ (forall t, In t (tags w) -> In t (tags w2))
    /\ (forall q n, carries w2 q n
                    <-> carries w q n \/ (q = quote_id /\ n = name)).
Proof.
  intros Hwf Hq Hnot.
  pose proof (get_or_create_quotes name w) as Eq.
  pose proof (get_or_create_quote_tags name w) as Eqt.
  pose proof (get_or_create_seq_quotes name w) as Es.
  pose proof (get_or_create_tags name w) as Et.
  pose proof (get_or_create_row name w) as Hrow.
  pose proof (get_or_create_wf name w Hwf) as Hwf1.
  unfold link.
  destruct (get_or_create name w) as [i w1]. simpl in *.
  assert (Hsub : forall t, In t (tags w) -> In t (tags w1)).
  { intros t Ht. destruct Et as [[_ ->] | (_ & _ & ->)]; auto.
    apply in_or_app. now left. }
  assert (Hold : forall t qt, In t (tags w1) -> In qt (quote_tags w) ->
                              qt_tag_id qt = tag_id t -> In t (tags w)).
  { intros t qt Ht Hqt E.
    destruct Et as [[_ Et] | (_ & Hi & Et)]; rewrite Et in Ht; auto.
    apply in_app_or in Ht as [Ht | [<- | []]]; auto.
    exfalso. apply Hi. simpl in E. rewrite <- E.
    pose proof (wf_fk_tag _ Hwf) as Hfk. rewrite Forall_forall in Hfk.
    now apply Hfk. }
  assert (Hnew : ~ In (mkQuoteTagRow quote_id i) (quote_tags w1)).
  { rewrite Eqt. intros Hin. apply Hnot.
    exists (mkTagRow i name). repeat split; auto.
    apply (Hold _ _ Hrow Hin). reflexivity. }
  rewrite insert_quote_tag_Ok; auto.
  2: { unfold quote_ids. now rewrite Eq. }
  2: { unfold tag_ids. apply in_map_iff. exists (mkTagRow i name). auto. }
  eexists. split; [reflexivity|]. simpl.
  destruct Hwf1 as [H1 H2 H3 H4 H5 H6].
  repeat split; auto.
  - apply NoDup_app; simpl; [exact H4 | repeat constructor; simpl; tauto |].
    intros x Hx [<- | []]. contradiction.
  - simpl. apply Forall_app. split; [exact H5|].
    repeat constructor. simpl. unfold quote_ids. now rewrite Eq.
  - simpl. apply Forall_app. split; [exact H6|].
    repeat constructor. simpl. unfold tag_ids.
    apply in_map_iff. exists (mkTagRow i name). auto.
  - intros (t & Ht & Hn & Hp). simpl in *.
    apply in_app_or in Hp as [Hp | [Hp | []]].
    + left. exists t. rewrite Eqt in Hp. repeat split; auto.
      apply (Hold _ _ Ht Hp). reflexivity.
    + right. injection Hp as -> Hi. split; [reflexivity|].
      assert (E : t = mkTagRow i name).
      { apply (NoDup_map_inj_on tag_id (tags w1)); auto. }
      subst t. simpl in Hn. congruence.
  - intros [(t & Ht & Hn & Hp) | [-> ->]]; simpl.
    + exists t. repeat split; auto. simpl.
      apply in_or_app. left. now rewrite Eqt.
    + exists (mkTagRow i name). repeat split; auto. simpl.
      apply in_or_app. right. left. reflexivity.
Qed.

(** ** A whole tag loop *)

Lemma link_all_ok (quote_id : Z) (names : list string) :
  forall w,
    wf_db w -> In quote_id (quote_ids w) -> NoDup names ->
    (forall n, In n names -> ~ carries w quote_id n) ->
    exists w',
      link_all quote_id names w = Ok w'
      /\ wf_db w'
      /\ quotes w' = quotes w
      /\ seq_quotes w' = seq_quotes w
      /\ (forall t, In t (tags w) -> In t (tags w'))
      /\ (forall q n, carries w' q n
                      <-> carries w q n \/ (q = quote_id /\ In n names)).
Proof.
  induction names as [|name rest IH]; intros w Hwf Hq Hnd Hfree; simpl.
  - exists w. split; [reflexivity|]. split; [assumption|].
    split; [reflexivity|]. split; [reflexivity|]. split; [auto|].
    intros q n. simpl. tauto.
  - apply NoDup_cons_iff in Hnd as [Hname Hnd].
    destruct (link_ok quote_id name w Hwf Hq)
      as (w2 & E & Hwf2 & Eq & Es & Hsub & Hc).
    { apply Hfree. now left. }
    rewrite E.
    destruct (IH w2 Hwf2) as (w' & E' & Hwf' & Eq' & Es' & Hsub' & Hc'); auto.
    { unfold quote_ids. now rewrite Eq. }
    { intros n Hn Hcar. apply Hc in Hcar as [Hcar | [_ ->]].
      - apply (Hfree n); [now right | exact Hcar].
      - contradiction. }
    exists w'. split; [exact E'|]. split; [exact Hwf'|].
    split; [congruence|]. split; [congruence|]. split; [now auto|].
    intros q n. split.
    + intros Hcar. apply Hc' in Hcar as [Hcar | [-> Hn]].
      * apply Hc in Hcar as [Hcar | [-> ->]]; [now left|].
        right. split; [reflexivity | now left].
      * right. split; [reflexivity | now right].
    + intros Hcar. apply Hc'.
      destruct Hcar as [Hcar | [-> [<- | Hn]]].
      * left. apply Hc. now left.
      * left. apply Hc. now right.
      * now right.
Qed.

Lemma link_keeps_seen (quote_id : Z) (name : string) (w w2 : Database)
    (n : string) (j : Z) :
  link quote_id name w = Ok w2 ->
  Sql.select_tag_id n w = Some j ->
  In (mkQuoteTagRow quote_id j) (quote_tags w) ->
  Sql.select_tag_id n w2 = Some j
  /\ In (mkQuoteTagRow quote_id j) (quote_tags w2).
Proof.
  intros E Hs Hp. apply link_Ok_inv in E. simpl in E. subst w2.
  pose proof (get_or_create_stable name w n j Hs) as Hs1.
  pose proof (get_or_create_quote_tags name w) as Eqt.
  split.
  - exact Hs1.
  - simpl. apply in_or_app. left. now rewrite Eqt.
Qed.

Lemma link_all_seen (quote_id : Z) (n : string) (j : Z)
    (names : list string) :
  forall w,
    In n names ->
    Sql.select_tag_id n w = Some j ->
    In (mkQuoteTagRow quote_id j) (quote_tags w) ->
    link_all quote_id names w = Raise IntegrityError.
Proof.
  induction names as [|m rest IH]; intros w Hin Hs Hp; simpl; [destruct Hin|].
  destruct (string_dec m n) as [->|Hne].
  - unfold link, get_or_create. rewrite Hs.
    now rewrite insert_quote_tag_duplicate.
  - destruct Hin as [Hin | Hin]; [contradiction|].
    destruct (link quote_id m w) as [w2|e] eqn:E.
    + destruct (link_keeps_seen _ _ _ _ _ _ E Hs Hp) as [Hs2 Hp2].
      now apply IH.
    + now rewrite (link_raises _ _ _ _ E).
Qed.

Lemma link_links (quote_id : Z) (name : string) (w w2 : Database) :
  link quote_id name w = Ok w2 ->
  exists j, Sql.select_tag_id name w2 = Some j
            /\ In (mkQuoteTagRow quote_id j) (quote_tags w2).
Proof.
  intros E. apply link_Ok_inv in E. simpl in E. subst w2.
  exists (fst (get_or_create name w)). split.
  - exact (get_or_create_select name w).
  - simpl. apply in_or_app. right. left. reflexivity.
Qed.

(** A name that comes twice makes the loop fail on the primary key of
    quote_tags. *)
Lemma link_all_duplicate (quote_id : Z) (names : list string) :
  forall w, ~ NoDup names ->
            link_all quote_id names w = Raise IntegrityError.
Proof.
  induction names as [|m rest IH]; intros w Hdup; simpl.
  - exfalso. apply Hdup. constructor.
  - destruct (link quote_id m w) as [w2|e] eqn:E.
    + destruct (in_dec string_dec m rest) as [Hin | Hnotin].
      * destruct (link_links _ _ _ _ E) as (j & Hs & Hp).
        eapply link_all_seen; eauto.
      * apply IH. intros Hnd. apply Hdup. now constructor.
    + now rewrite (link_raises _ _ _ _ E).
Qed.

Lemma tag_step_run {A} (quote_id : Z) (name : string) (k : M A) (c : Conn) :
  (tag_id <- _get_or_create_tag name;;
   execute (Sql.insert_quote_tag quote_id tag_id);; k) c
  = match link quote_id name (txn c) with
    | Ok w2 => k (mkConn (disk c) w2)
    | Raise e =>
        (Raise e, mkConn (disk c) (snd (get_or_create name (txn c))))
    end.
Proof.
  unfold bind at 1. rewrite get_or_create_run. unfold link.
  destruct (get_or_create name (txn c)) as [i w1]. simpl.
  unfold bind, execute. simpl.
  destruct (Sql.insert_quote_tag quote_id i w1) as [[u w2]|e]; reflexivity.
Qed.

(** The two loops of the source run [link_all] on the surviving names. *)
Lemma add_quote_tags_run (quote_id : Z) (tags : list string) :
  forall (acc : list string) (c : Conn),
    match link_all quote_id (surviving_names tags) (txn c) with
    | Ok w' =>
        add_quote_tags quote_id tags acc c
        = (Ok (acc ++ surviving_names tags), mkConn (disk c) w')
    | Raise e =>
        exists w', add_quote_tags quote_id tags acc c
                   = (Raise e, mkConn (disk c) w')
    end.
Proof.
  induction tags as [|tag rest IH]; intros acc c; simpl.
  - unfold ret. rewrite app_nil_r. now destruct c.
  - unfold surviving_names. simpl. rewrite truthy_blank.
    destruct (PyStr.blank tag); simpl.
    + apply IH.
    + rewrite tag_step_run. fold (surviving_names rest).
      destruct (link quote_id (PyStr.strip tag) (txn c)) as [w2|e].
      * specialize (IH (acc ++ [PyStr.strip tag]) (mkConn (disk c) w2)).
        simpl in IH.
        destruct (link_all quote_id (surviving_names rest) w2).
        -- rewrite IH. now rewrite <- app_assoc.
        -- exact IH.
      * eexists. reflexivity.
Qed.

Lemma update_quote_tags_run (quote_id : Z) (tags : list string) :
  forall (c : Conn),
    match link_all quote_id (surviving_names tags) (txn c) with
    | Ok w' =>
        update_quote_tags quote_id tags c = (Ok tt, mkConn (disk c) w')
    | Raise e =>
        exists w', update_quote_tags quote_id tags c
                   = (Raise e, mkConn (disk c) w')
    end.
Proof.
  induction tags as [|tag rest IH]; intros c; simpl.
  - unfold ret. now destruct c.
  - unfold surviving_names. simpl. rewrite truthy_blank.
    destruct (PyStr.blank tag); simpl.
    + apply IH.
    + rewrite tag_step_run. fold (surviving_names rest).
      destruct (link quote_id (PyStr.strip tag) (txn c)) as [w2|e].
      * exact (IH (mkConn (disk c) w2)).
      * eexists. reflexivity.
Qed.

Lemma link_frame (quote_id : Z) (name : string) (w w2 : Database) :
  link quote_id name w = Ok w2 ->
  quotes w2 = quotes w /\ seq_quotes w2 = seq_quotes w.
Proof.
  intros E. apply link_Ok_inv in E. simpl in E. subst w2. simpl.
  split; [apply get_or_create_quotes | apply get_or_create_seq_quotes].
Qed.

Lemma link_all_frame (quote_id : Z) (names : list string) :
  forall w w',
    link_all quote_id names w = Ok w' ->
    quotes w' = quotes w /\ seq_quotes w' = seq_quotes w.
Proof.
  induction names as [|name rest IH]; intros w w'; simpl.
  - intros H. injection H as <-. auto.
  - destruct (link quote_id name w) as [w2|e] eqn:E; [|discriminate].
    intros H. apply IH in H as [-> ->]. eapply link_frame, E.
Qed.

Lemma link_all_raises (quote_id : Z) (names : list string) :
  forall w e, link_all quote_id names w = Raise e -> e = IntegrityError.
Proof.
  induction names as [|name rest IH]; intros w e; simpl; [discriminate|].
  destruct (link quote_id name w) as [w2|e'] eqn:E.
  - apply IH.
  - intros H. injection H as <-. eapply link_raises, E.
Qed.

(** ** add_quote *)

Lemma select_new_quote (row : QuoteRow) (rows : list QuoteRow) :
  ~ In (row_id row) (map row_id rows) ->
  find (fun r => Z.eqb (row_id r) (row_id row)) (rows ++ [row]) = Some row.
Proof.
  intros Hfresh. rewrite find_app.
  destruct (find _ rows) as [r|] eqn:E.
  - exfalso. apply find_some in E as [Hin Heq]. apply Z.eqb_eq in Heq.
    apply Hfresh. rewrite <- Heq. now apply in_map.
  - simpl. now rewrite Z.eqb_refl.
Qed.

(** add_quote as one step on the database: the INSERT, the tag loop on the
    working copy, and either the commit or the rollback. *)
Lemma add_quote_run (clock : Clock) (text author : string)
    (source : option string) (year : option Z)
    (supplied : option (list string)) (db : Database) :
  PyStr.blank text = false -> PyStr.blank author = false ->
  year_fits year = true ->
  let row := new_quote_row clock text author source year db in
  match link_all (row_id row) (supplied_names supplied)
          (with_new_quote row db)
  with
  | Ok db' =>
      add_quote clock text author source year supplied db
      = (Ok (Models.from_row clock row (supplied_names supplied)), db')
  | Raise e =>
      add_quote clock text author source year supplied db = (Raise e, db)
  end.
Proof.
  intros Ht Ha Hy row.
  pose (loop := match supplied with
                | Some ((_ :: _) as l) => add_quote_tags (row_id row) l []
                | _ => ret []
                end).
  assert (Hloop :
    match link_all (row_id row) (supplied_names supplied)
            (with_new_quote row db)
    with
    | Ok w' =>
        loop (mkConn db (with_new_quote row db))
        = (Ok (supplied_names supplied), mkConn db w')
    | Raise e =>
        exists w',
          loop (mkConn db (with_new_quote row db)) = (Raise e, mkConn db w')
    end).
  { subst loop. destruct supplied as [[|t l]|]; try reflexivity.
    exact (add_quote_tags_run (row_id row) (t :: l) []
             (mkConn db (with_new_quote row db))). }
  assert (Hstart :
    add_quote clock text author source year supplied db
    = (let '(r, c) :=
         match loop (mkConn db (with_new_quote row db)) with
         | (Ok tag_names, c') =>
             (commit;;
              found <- fetch (Sql.select_quote (row_id row));;
              match found with
              | Some r => ret (Models.from_row clock r tag_names)
              | None => fun c => (Raise TypeError, c)
              end) c'
         | (Raise e, c') => (Raise e, c')
         end in (r, disk c))).
  { rewrite (add_quote_fits _ _ _ _ _ _ _ Ht Ha Hy). reflexivity. }
  rewrite Hstart.
  destruct (link_all (row_id row) (supplied_names supplied)
              (with_new_quote row db)) as [w'|e] eqn:E.
  - rewrite Hloop. run_conn.
    apply link_all_frame in E as [Eq _].
    unfold Sql.select_quote. rewrite Eq. cbn [with_new_quote quotes].
    change (Sql.next_rowid (seq_quotes db) (quote_ids db)) with (row_id row).
    rewrite select_new_quote; [reflexivity|].
    apply next_rowid_fresh.
  - destruct Hloop as [w' Hloop]. rewrite Hloop. reflexivity.
Qed.

Lemma with_new_quote_wf (clock : Clock) (text author : string)
    (source : option string) (year : option Z) (db : Database) :
  wf_db db ->
  let row := new_quote_row clock text author source year db in
  wf_db (with_new_quote row db)
  /\ In (row_id row) (quote_ids (with_new_quote row db))
  /\ forall n, ~ carries (with_new_quote row db) (row_id row) n.
Proof.
  intros [H1 H2 H3 H4 H5 H6] row.
  assert (Hfresh : ~ In (row_id row) (quote_ids db))
    by apply next_rowid_fresh.
  split; [|split].
  - constructor; unfold quote_ids, tag_ids, tag_names in *; simpl;
      try assumption.
    + rewrite map_app. apply NoDup_app; [exact H1 | |].
      * repeat constructor; simpl; tauto.
      * intros x Hx [<- | []]. contradiction.
    + eapply Forall_impl; [|exact H5]. simpl. intros qt Hqt.
      rewrite map_app. apply in_or_app. now left.
  - unfold quote_ids. simpl. rewrite map_app.
    apply in_or_app. right. left. reflexivity.
  - intros n (t & _ & _ & Hp). simpl in Hp.
    rewrite Forall_forall in H5. apply H5 in Hp. contradiction.
Qed.

(** add_quote succeeds whenever text and author are not blank and the
    surviving tag names are pairwise distinct. *)
Lemma add_quote_ok (clock : Clock) (text author : string)
    (source : option string) (year : option Z) (supplied : option (list string))
    (db : Database) :
  wf_db db ->
  PyStr.blank text = false -> PyStr.blank author = false ->
  year_fits year = true ->
  NoDup (supplied_names supplied) ->
  let row := new_quote_row clock text author source year db in
  exists db',
    add_quote clock text author source year supplied db
    = (Ok (Models.from_row clock row (supplied_names supplied)), db')
    /\ wf_db db'
    /\ quotes db' = quotes db ++ [row]
    /\ (forall t, In t (tags db) -> In t (tags db'))
    /\ (forall q n, carries db' q n
                    <-> carries db q n
                        \/ (q = row_id row /\ In n (supplied_names supplied))).
Proof.
  intros Hwf Ht Ha Hy Hnd row.
  destruct (with_new_quote_wf clock text author source year db Hwf)
    as (Hwf0 & Hin & Hfree). fold row in Hwf0, Hin, Hfree.
  destruct (link_all_ok (row_id row) (supplied_names supplied)
              (with_new_quote row db) Hwf0 Hin Hnd)
    as (db' & E & Hwf' & Eq & _ & Hsub & Hc).
  { intros n _. apply Hfree. }
  pose proof (add_quote_run clock text author source year supplied db
                Ht Ha Hy)
    as Hrun. cbv zeta in Hrun. fold row in Hrun. rewrite E in Hrun.
  exists db'. split; [exact Hrun|]. split; [exact Hwf'|].
  split; [exact Eq|]. split; [exact Hsub|].
  intros q n. rewrite Hc. split.
  - intros [(t & Ht' & Hn & Hp) | H]; [left | now right].
    exists t. auto.
  - intros [(t & Ht' & Hn & Hp) | H]; [left | now right].
    exists t. auto.
Qed.

Lemma from_row_tags (clock : Clock) (row : QuoteRow) (names : list string) :
  Models.tags (Models.from_row clock row names) = names.
Proof. destruct names; reflexivity. Qed.

(** C2 (the code departs from the claim): when the tag names of an
    add_quote call that survive trimming contain a name twice, the loop
    sends INSERT INTO quote_tags twice with the same (quote_id, tag_id);
    the second one violates the primary key, add_quote raises
    IntegrityError before the commit, and the database stays as it was: no
    quote is created and the names do not collapse.  (With a year that
    does not fit in 64 bits the call fails earlier, with OverflowError at
    the INSERT of the quote; nothing is stored either.) *)
Theorem add_quote_duplicate_tag_raises :
  forall (clock : Clock) (text author : string) (source : option string)
         (year : option Z) (supplied : option (list string)) (db : Database),
    PyStr.blank text = false -> PyStr.blank author = false ->
    ~ NoDup (supplied_names supplied) ->
    add_quote clock text author source year supplied db
    = (Raise (if year_fits year then IntegrityError else OverflowError), db).
Proof.
  intros clock text author source year supplied db Ht Ha Hdup.
  destruct (year_fits year) eqn:Hy.
  - pose proof (add_quote_run clock text author source year supplied db
                  Ht Ha Hy)
      as Hrun. cbv zeta in Hrun.
    rewrite link_all_duplicate in Hrun; assumption.
  - now apply add_quote_overflow.
Qed.

Lemma add_quote_duplicate_tag_raises_witness :
  add_quote noon "The answer is 42" "Douglas Adams" None None
            (Some ["philosophy"; " philosophy "]) init_database
  = (Raise IntegrityError, init_database).
Proof.
  apply (add_quote_duplicate_tag_raises noon "The answer is 42"
           "Douglas Adams" None None (Some ["philosophy"; " philosophy "])
           init_database).
  - reflexivity.
  - reflexivity.
  - vm_compute. intros H. apply NoDup_cons_iff in H as [H _].
    apply H. left. reflexivity.
Defined.

(** add_quote succeeds only with text and author that are not blank and a
    year that can be bound. *)
Lemma add_quote_Ok_inv (clock : Clock) (text author : string)
    (source : option string) (year : option Z)
    (supplied : option (list string)) (db db' : Database)
    (quote : Models.Quote) :
  add_quote clock text author source year supplied db = (Ok quote, db') ->
  PyStr.blank text = false /\ PyStr.blank author = false
  /\ year_fits year = true.
Proof.
  intros H.
  destruct (PyStr.blank text) eqn:Ht.
  { unfold add_quote in H. rewrite Ht in H. discriminate. }
  destruct (PyStr.blank author) eqn:Ha.
  { unfold add_quote in H. rewrite Ht, Ha in H. discriminate. }
  destruct (year_fits year) eqn:Hy; [auto|].
  rewrite (add_quote_overflow _ _ _ _ _ _ _ Ht Ha Hy) in H. discriminate.
Qed.

(** C3 (the code departs from the claim): the [tags] field of the quote
    add_quote returns is the list [tag_names] the loop builds, that is the
    trimmed, non-empty names in the order in which the caller supplied
    them; add_quote does not read them back with _get_tags_for_quote,
    whose ORDER BY t.name sorts them for every other operation. *)
Theorem add_quote_returns_tags_in_supplied_order :
  forall (clock : Clock) (text author : string) (source : option string)
         (year : option Z) (supplied : option (list string))
         (db db' : Database) (quote : Models.Quote),
    add_quote clock text author source year supplied db = (Ok quote, db') ->
    Models.tags quote = supplied_names supplied.
Proof.
  intros clock text author source year supplied db db' quote H.
  destruct (add_quote_Ok_inv _ _ _ _ _ _ _ _ _ H) as (Ht & Ha & Hy).
  pose proof (add_quote_run clock text author source year supplied db
                Ht Ha Hy)
    as Hrun. cbv zeta in Hrun.
  destruct (link_all _ _ _) as [w'|e]; rewrite Hrun in H; [|discriminate].
  injection H as <- _. apply from_row_tags.
Qed.

Lemma add_quote_returns_tags_in_supplied_order_witness :
  exists quote db',
    add_quote noon "Don't Panic" "Douglas Adams" None None
              (Some ["wisdom"; "humor"]) init_database
    = (Ok quote, db')
    /\ Models.tags quote = supplied_names (Some ["wisdom"; "humor"]).
Proof.
  eexists. eexists. split.
  - vm_compute. reflexivity.
  - eapply (add_quote_returns_tags_in_supplied_order noon "Don't Panic"
              "Douglas Adams" None None (Some ["wisdom"; "humor"])
              init_database).
    vm_compute. reflexivity.
Defined.

(** The same call, evaluated: supplied as wisdom, humor, the names come
    back from add_quote as wisdom, humor, while get_quote_by_id shows the
    quote just created with humor, wisdom. *)
Lemma add_quote_returns_unsorted_tags :
  exists quote db' stored,
    add_quote noon "Don't Panic" "Douglas Adams" None None
              (Some ["wisdom"; "humor"]) init_database = (Ok quote, db')
    /\ Models.tags quote = ["wisdom"; "humor"]
    /\ get_quote_by_id noon (Models.id quote) db' = (Ok (Some stored), db')
    /\ Models.tags stored = ["humor"; "wisdom"]
    /\ Models.tags quote
       <> sort_names (supplied_names (Some ["wisdom"; "humor"])).
Proof.
  eexists. eexists. eexists. split; [vm_compute; reflexivity|].
  split; [reflexivity|]. split; [vm_compute; reflexivity|].
  split; [reflexivity|]. vm_compute. discriminate.
Qed.

(** ** Lexicographic order of names *)

Lemma string_compare_OT (a b : string) :
  String.compare a b = String_as_OT.compare a b.
Proof.
  reflexivity.
Qed.

Lemma leb_refl (a : string) : String.leb a a = true.
Proof. destruct (String.leb_total a a); assumption. Qed.

Lemma leb_trans (a b c : string) :
  String.leb a b = true -> String.leb b c = true -> String.leb a c = true.
Proof.
  unfold String.leb.
  pose proof (String_as_OT.compare_spec a b) as Sab.
  pose proof (String_as_OT.compare_spec b c) as Sbc.
  rewrite <- !string_compare_OT in Sab, Sbc.
  destruct Sab as [E | Hab | _].
  - hnf in E. subst b. intros _ H. exact H.
  - destruct Sbc as [E | Hbc | _]; intros _ Hc.
    + hnf in E. subst c. unfold String_as_OT.lt in Hab.
      rewrite <- string_compare_OT in Hab. now rewrite Hab.
    + assert (H : String_as_OT.lt a c) by (etransitivity; eassumption).
      unfold String_as_OT.lt in H.
      rewrite <- string_compare_OT in H. now rewrite H.
    + discriminate Hc.
  - intros H. discriminate H.
Qed.

Lemma insert_row_sorted (x : string) (l : list string) :
  StronglySorted name_le l ->
  StronglySorted name_le (insert_row String.leb x l).
Proof.
  induction 1 as [|y l Hs IH Hy]; simpl.
  - repeat constructor.
  - destruct (String.leb x y) eqn:E.
    + constructor; [now constructor|].
      constructor; [exact E|].
      eapply Forall_impl; [|exact Hy]. intros z Hz.
      eapply leb_trans; eassumption.
    + constructor; [exact IH|].
      assert (Hyx : name_le y x).
      { destruct (String.leb_total x y) as [H|H]; [congruence | exact H]. }
      eapply Permutation_Forall.
      * apply Permutation_sym, insert_row_perm.
      * now constructor.
Qed.

Lemma sort_names_sorted (l : list string) :
  StronglySorted name_le (sort_names l).
Proof.
  induction l as [|x l IH]; simpl; [constructor|].
  now apply insert_row_sorted.
Qed.

Lemma sorted_perm_eq (l1 : list string) :
  forall l2,
    StronglySorted name_le l1 -> StronglySorted name_le l2 ->
    Permutation l1 l2 -> l1 = l2.
Proof.
  induction l1 as [|x l1 IH]; intros l2 H1 H2 Hp.
  - apply Permutation_nil in Hp. now subst.
  - destruct l2 as [|y l2].
    { apply Permutation_sym, Permutation_nil in Hp. discriminate. }
    inversion H1 as [|? ? Hs1 Hx]; subst.
    inversion H2 as [|? ? Hs2 Hy]; subst.
    assert (E : x = y).
    { assert (Hxy : In x (y :: l2))
        by (eapply Permutation_in; [exact Hp | now left]).
      assert (Hyx : In y (x :: l1))
        by (eapply Permutation_in; [apply Permutation_sym, Hp | now left]).
      destruct Hxy as [-> | Hxy]; [reflexivity|].
      destruct Hyx as [-> | Hyx]; [reflexivity|].
      rewrite Forall_forall in Hx, Hy.
      apply String.leb_antisym; [apply Hx, Hyx | apply Hy, Hxy]. }
    subst y. f_equal. apply IH; auto.
    eapply Permutation_cons_inv, Hp.
Qed.

Lemma sort_names_perm (l1 l2 : list string) :
  Permutation l1 l2 -> sort_names l1 = sort_names l2.
Proof.
  intros Hp. apply sorted_perm_eq; try apply sort_names_sorted.
  unfold sort_names.
  eapply perm_trans; [apply order_by_perm|].
  eapply perm_trans; [exact Hp|].
  apply Permutation_sym, order_by_perm.
Qed.

(** ** The tags of a quote *)

Lemma select_tag_names_joined (quote_id : Z) (db : Database) :
  Sql.select_tag_names quote_id db = sort_names (joined_names quote_id db).
Proof. reflexivity. Qed.

Lemma joined_names_In (quote_id : Z) (db : Database) (n : string) :
  In n (joined_names quote_id db) <-> carries db quote_id n.
Proof.
  unfold joined_names, carries, Sql.tags_join_quote_tags. split.
  - intros H. apply in_map_iff in H as ([t qt] & <- & H).
    apply filter_In in H as [H Hq]. simpl in Hq. apply Z.eqb_eq in Hq.
    apply in_flat_map in H as (t' & Ht' & H).
    apply in_map_iff in H as (qt' & E & H). injection E as -> ->.
    apply filter_In in H as [H Hi]. apply Z.eqb_eq in Hi.
    exists t. repeat split; auto. simpl.
    destruct qt as [a b]. simpl in *. now subst.
  - intros (t & Ht & <- & Hp).
    apply in_map_iff. exists (t, mkQuoteTagRow quote_id (tag_id t)).
    split; [reflexivity|]. apply filter_In. split.
    + apply in_flat_map. exists t. split; [exact Ht|].
      apply in_map_iff. eexists. split; [reflexivity|].
      apply filter_In. split; [exact Hp|]. simpl. apply Z.eqb_refl.
    + simpl. apply Z.eqb_refl.
Qed.

Lemma filter_at_most_one {A} (p : A -> bool) (l : list A) (a : A) :
  NoDup l -> (forall x, In x l -> p x = true -> x = a) ->
  filter p l = [] \/ filter p l = [a].
Proof.
  induction l as [|x l IH]; simpl; intros Hnd Hp; [now left|].
  apply NoDup_cons_iff in Hnd as [Hx Hnd].
  destruct (p x) eqn:E.
  - right. assert (x = a) by (apply Hp; auto). subst x. f_equal.
    apply filter_none. intros y Hy.
    destruct (p y) eqn:Ey; [|reflexivity].
    exfalso. apply Hx. rewrite <- (Hp y); auto.
  - apply IH; auto.
Qed.

Lemma NoDup_flat_map_singletons {A B} (f : A -> B) (h : A -> list B)
    (l : list A) :
  NoDup (map f l) ->
  (forall t, In t l -> h t = [] \/ h t = [f t]) ->
  NoDup (flat_map h l).
Proof.
  induction l as [|t l IH]; simpl; intros Hnd Hh; [constructor|].
  apply NoDup_cons_iff in Hnd as [Ht Hnd].
  assert (IHl : NoDup (flat_map h l)) by (apply IH; auto).
  destruct (Hh t (or_introl eq_refl)) as [-> | ->]; simpl; [exact IHl|].
  constructor; [|exact IHl].
  intros Hin. apply in_flat_map in Hin as (t' & Ht' & Hin).
  destruct (Hh t' (or_intror Ht')) as [E | E]; rewrite E in Hin.
  - destruct Hin.
  - destruct Hin as [Hin | []]. apply Ht. rewrite <- Hin. now apply in_map.
Qed.

Lemma map_filter_flat_map {A B C} (f : B -> C) (p : B -> bool)
    (g : A -> list B) (l : list A) :
  map f (filter p (flat_map g l))
  = flat_map (fun t => map f (filter p (g t))) l.
Proof.
  induction l as [|t l IH]; simpl; [reflexivity|].
  now rewrite filter_app, map_app, IH.
Qed.

Lemma filter_paired {A B} (t : A) (p q : B -> bool) (l : list B) :
  filter (fun r : A * B => q (snd r)) (map (fun x => (t, x)) (filter p l))
  = map (fun x => (t, x)) (filter (fun x => p x && q x) l).
Proof.
  induction l as [|x l IH]; simpl; [reflexivity|].
  destruct (p x); simpl; [|exact IH].
  destruct (q x); simpl; [now rewrite IH | exact IH].
Qed.

Lemma joined_names_NoDup (quote_id : Z) (db : Database) :
  wf_db db -> NoDup (joined_names quote_id db).
Proof.
  intros Hwf. unfold joined_names, Sql.tags_join_quote_tags.
  rewrite map_filter_flat_map.
  apply (NoDup_flat_map_singletons tag_name).
  - exact (wf_tag_unique _ Hwf).
  - intros t _.
    rewrite (filter_paired t
               (fun qt => Z.eqb (tag_id t) (qt_tag_id qt))
               (fun qt => Z.eqb (qt_quote_id qt) quote_id)).
    destruct (filter_at_most_one
                (fun qt => Z.eqb (tag_id t) (qt_tag_id qt)
                           && Z.eqb (qt_quote_id qt) quote_id)
                (quote_tags db) (mkQuoteTagRow quote_id (tag_id t))
                (wf_quote_tag_pk _ Hwf)) as [E | E].
    + intros [a b] _ H. apply andb_true_iff in H as [H1 H2].
      apply Z.eqb_eq in H1, H2. simpl in *. now subst.
    + left. now rewrite E.
    + right. now rewrite E.
Qed.

(** Under the schema's constraints the tags a quote is read back with are
    the names it carries, each once, in lexicographic order. *)
Lemma select_tag_names_of_carried (quote_id : Z) (db : Database)
    (names : list string) :
  wf_db db -> NoDup names ->
  (forall n, carries db quote_id n <-> In n names) ->
  Sql.select_tag_names quote_id db = sort_names names.
Proof.
  intros Hwf Hnd Hc. rewrite select_tag_names_joined.
  apply sort_names_perm. apply NoDup_Permutation.
  - now apply joined_names_NoDup.
  - exact Hnd.
  - intros n. rewrite joined_names_In. apply Hc.
Qed.

Lemma association_count_carried (quote_id : Z) (db : Database)
    (name : string) :
  wf_db db -> carries db quote_id name ->
  association_count db quote_id name = 1%nat.
Proof.
  intros Hwf Hc. unfold association_count.
  apply NoDup_count_occ'.
  - now apply joined_names_NoDup.
  - now apply joined_names_In.
Qed.

(** ** add_tag_to_quote *)

Lemma select_quote_tag_present (quote_id i : Z) (w : Database) :
  In (mkQuoteTagRow quote_id i) (quote_tags w) ->
  Sql.select_quote_tag quote_id i w = Some 1.
Proof.
  intros H. unfold Sql.select_quote_tag.
  assert (E : existsb (fun qt => Z.eqb (qt_quote_id qt) quote_id
                                 && Z.eqb (qt_tag_id qt) i) (quote_tags w)
              = true).
  { apply existsb_exists. eexists. split; [exact H|]. simpl.
    now rewrite !Z.eqb_refl. }
  now rewrite E.
Qed.

Lemma select_quote_tag_absent (quote_id i : Z) (w : Database) :
  ~ In (mkQuoteTagRow quote_id i) (quote_tags w) ->
  Sql.select_quote_tag quote_id i w = None.
Proof.
  intros H. unfold Sql.select_quote_tag.
  destruct (existsb _ (quote_tags w)) eqn:E; [|reflexivity].
  exfalso. apply existsb_exists in E as ([a b] & Hin & E).
  apply andb_true_iff in E as [E1 E2]. apply Z.eqb_eq in E1, E2.
  simpl in *. subst. contradiction.
Qed.

Lemma linked_carries (db : Database) (quote_id : Z) (name : string) :
  linked db quote_id name -> carries db quote_id name.
Proof.
  intros (i & Hs & Hp). apply select_tag_id_Some in Hs.
  exists (mkTagRow i name). auto.
Qed.

Lemma carries_linked (db : Database) (quote_id : Z) (name : string) :
  wf_db db -> carries db quote_id name -> linked db quote_id name.
Proof.
  intros Hwf (t & Ht & Hn & Hp).
  destruct (Sql.select_tag_id name db) as [i|] eqn:E.
  - exists i. split; [exact E|].
    apply select_tag_id_Some in E.
    assert (Et : mkTagRow i name = t).
    { apply (NoDup_map_inj_on tag_name (tags db)); auto.
      exact (wf_tag_unique _ Hwf). }
    subst t. exact Hp.
  - exfalso. apply select_tag_id_None in E. apply E.
    unfold tag_names. rewrite <- Hn. now apply in_map.
Qed.

(** Once the association is there the call changes nothing. *)
Lemma add_tag_to_quote_linked (db : Database) (quote_id : Z) (tag : string) :
  PyStr.blank tag = false -> fits_int64 quote_id = true ->
  In quote_id (quote_ids db) ->
  linked db quote_id (PyStr.strip tag) ->
  add_tag_to_quote quote_id tag db = (Ok true, db).
Proof.
  intros Hb Hfits Hq (i & Hs & Hp).
  rewrite (add_tag_to_quote_fits _ _ _ Hb Hfits).
  unfold with_connection. unfold bind at 1, fetch at 1. simpl.
  rewrite (select_quote_id_present _ _ Hq).
  unfold bind at 1. rewrite get_or_create_run. simpl.
  unfold get_or_create. rewrite Hs. simpl.
  unfold bind at 1, fetch at 1. simpl.
  rewrite (select_quote_tag_present _ _ _ Hp). reflexivity.
Qed.

Lemma add_tag_to_quote_first (db : Database) (quote_id : Z) (tag : string) :
  wf_db db -> PyStr.blank tag = false -> fits_int64 quote_id = true ->
  In quote_id (quote_ids db) ->
  exists db1,
    add_tag_to_quote quote_id tag db = (Ok true, db1)
    /\ wf_db db1
    /\ quotes db1 = quotes db
    /\ linked db1 quote_id (PyStr.strip tag).
Proof.
  intros Hwf Hb Hfits Hq.
  set (name := PyStr.strip tag).
  assert (Hrun :
    add_tag_to_quote quote_id tag db
    = let '(i, w1) := get_or_create name db in
      match Sql.select_quote_tag quote_id i w1 with
      | Some _ => (Ok true, w1)
      | None =>
          match Sql.insert_quote_tag quote_id i w1 with
          | Ok (_, w2) => (Ok true, w2)
          | Raise e => (Raise e, db)
          end
      end).
  { rewrite (add_tag_to_quote_fits _ _ _ Hb Hfits).
    unfold with_connection. unfold bind at 1, fetch at 1. simpl.
    rewrite (select_quote_id_present _ _ Hq).
    unfold bind at 1. rewrite get_or_create_run. simpl. fold name.
    destruct (get_or_create name db) as [i w1]. simpl.
    unfold bind at 1, fetch at 1. simpl.
    destruct (Sql.select_quote_tag quote_id i w1); [reflexivity|].
    unfold bind at 1, execute at 1. simpl.
    destruct (Sql.insert_quote_tag quote_id i w1) as [[u w2]|e];
      reflexivity. }
  rewrite Hrun. clear Hrun.
  destruct (in_dec QuoteTagRow_eq_dec
              (mkQuoteTagRow quote_id (fst (get_or_create name db)))
              (quote_tags (snd (get_or_create name db)))) as [Hin | Hout].
  - pose proof (get_or_create_wf name db Hwf) as Hwf1.
    pose proof (get_or_create_quotes name db) as Eq.
    pose proof (get_or_create_select name db) as Hs.
    destruct (get_or_create name db) as [i w1]. simpl in *.
    rewrite (select_quote_tag_present _ _ _ Hin).
    exists w1. split; [reflexivity|]. split; [exact Hwf1|].
    split; [exact Eq|]. exists i. auto.
  - assert (Hnot : ~ carries db quote_id name).
    { intros Hc. apply (carries_linked _ _ _ Hwf) in Hc as (j & Hs & Hp).
      apply Hout. unfold get_or_create. rewrite Hs. exact Hp. }
    destruct (link_ok quote_id name db Hwf Hq Hnot)
      as (w2 & E & Hwf2 & Eq & _ & _ & _).
    pose proof (link_links _ _ _ _ E) as Hl.
    unfold link in E.
    destruct (get_or_create name db) as [i w1]. simpl in *.
    rewrite (select_quote_tag_absent _ _ _ Hout).
    destruct (Sql.insert_quote_tag quote_id i w1) as [[u w2']|e];
      [|discriminate].
    injection E as ->. exists w2. auto.
Qed.

(** C7, as the code has it: add_tag_to_quote is idempotent.  For a quote
    id in the store (which fits in 64 bits, as every id the database has
    handed out does) and a tag that is not blank, the first call returns
    true and leaves exactly one association between the quote and the tag
    of that (trimmed) name; the second call returns true and leaves the
    database as the first call left it, so the association is still there
    exactly once.  A tag that is blank raises InvalidInputError, whatever
    the quote id.  With a tag that is not blank, an id that is not in the
    store yields false when it fits in 64 bits and OverflowError when it
    does not.  In these cases the database is untouched. *)
Theorem add_tag_to_quote_idempotent :
  forall (db : Database) (quote_id : Z) (tag : string),
    wf_db db ->
    (PyStr.blank tag = false -> fits_int64 quote_id = true ->
     In quote_id (quote_ids db) ->
     exists db1,
       add_tag_to_quote quote_id tag db = (Ok true, db1)
       /\ association_count db1 quote_id (PyStr.strip tag) = 1%nat
       /\ add_tag_to_quote quote_id tag db1 = (Ok true, db1))
    /\ (PyStr.blank tag = true ->
        exists msg,
          add_tag_to_quote quote_id tag db = (Raise (InvalidInputError msg), db))
    /\ (PyStr.blank tag = false -> ~ In quote_id (quote_ids db) ->
        add_tag_to_quote quote_id tag db
        = (if fits_int64 quote_id then Ok false else Raise OverflowError,
           db)).
Proof.
  intros db quote_id tag Hwf. split; [|split].
  - intros Hb Hfits Hq.
    destruct (add_tag_to_quote_first db quote_id tag Hwf Hb Hfits Hq)
      as (db1 & E & Hwf1 & Eq & Hl).
    exists db1. split; [exact E|]. split.
    + apply association_count_carried; [exact Hwf1|].
      now apply linked_carries.
    + apply add_tag_to_quote_linked; auto.
      unfold quote_ids. now rewrite Eq.
  - intros Hb. unfold add_tag_to_quote. rewrite Hb. eexists. reflexivity.
  - intros Hb Hq. destruct (fits_int64 quote_id) eqn:Hfits.
    + rewrite (add_tag_to_quote_fits _ _ _ Hb Hfits). run_conn.
      now rewrite (select_quote_id_absent _ _ Hq).
    + now apply add_tag_to_quote_overflow.
Qed.

Lemma add_tag_to_quote_idempotent_witness :
  (exists db1,
     add_tag_to_quote 1 (" humor" ++ nbsp)%string two_quotes = (Ok true, db1)
     /\ association_count db1 1 "humor" = 1%nat
     /\ add_tag_to_quote 1 (" humor" ++ nbsp)%string db1 = (Ok true, db1))
  /\ (exists msg,
        add_tag_to_quote 1 (" " ++ nbsp)%string two_quotes
        = (Raise (InvalidInputError msg), two_quotes))
  /\ add_tag_to_quote 9 "humor" two_quotes = (Ok false, two_quotes).
Proof.
  assert (Hwf : wf_db two_quotes)
    by (apply wf_db_b_sound; vm_compute; reflexivity).
  destruct (add_tag_to_quote_idempotent two_quotes 1
              (" humor" ++ nbsp)%string Hwf)
    as (Hfirst & _ & _).
  destruct (add_tag_to_quote_idempotent two_quotes 1 (" " ++ nbsp)%string Hwf)
    as (_ & Hblank & _).
  destruct (add_tag_to_quote_idempotent two_quotes 9 "humor" Hwf)
    as (_ & _ & Habsent).
  split; [|split].
  - apply Hfirst; [reflexivity | reflexivity | vm_compute; left; reflexivity].
  - apply Hblank. reflexivity.
  - apply Habsent; [reflexivity|].
    vm_compute. intros [H | [H | []]]; discriminate H.
Defined.

(** C7, the claim as stated fails: the id 2^63 is not in the store, the
    tag is not blank, and add_tag_to_quote does not return false but
    raises OverflowError. *)
Lemma add_tag_to_quote_absent_id_overflows :
  ~ In beyond_int64 (quote_ids two_quotes)
  /\ add_tag_to_quote beyond_int64 "humor" two_quotes
     = (Raise OverflowError, two_quotes)
  /\ add_tag_to_quote beyond_int64 "humor" two_quotes
     <> (Ok false, two_quotes).
Proof.
  split; [|split].
  - vm_compute. intros [H | [H | []]]; discriminate H.
  - vm_compute. reflexivity.
  - vm_compute. discriminate.
Qed.

(** ** Listings *)

Lemma quotes_of_rows_run (clock : Clock) (rows : list QuoteRow) (c : Conn) :
  exists l, quotes_of_rows clock rows c = (Ok l, c)
            /\ List.length l = List.length rows.
Proof.
  induction rows as [|r rows (l & E & Hl)]; simpl.
  - exists []. auto.
  - exists (Models.from_row clock r (Sql.select_tag_names (row_id r) (txn c))
            :: l).
    split; [|simpl; now rewrite Hl].
    unfold bind, _get_tags_for_quote, fetch, ret. now rewrite E.
Qed.

Lemma get_all_quotes_run (clock : Clock) (db : Database) :
  exists l, get_all_quotes clock db = (Ok l, db)
            /\ List.length l = List.length (quotes db).
Proof.
  unfold get_all_quotes, with_connection. unfold bind, fetch. simpl.
  destruct (quotes_of_rows_run clock (Sql.select_all_quotes db)
              (mkConn db db)) as (l & E & Hl).
  exists l. rewrite E. split; [reflexivity|].
  rewrite Hl. apply order_by_length.
Qed.

(** ** seed_database *)

Lemma seed_entry_ok_spec (e : SeedQuote) :
  seed_entry_ok e = true ->
  year_fits (seed_year e) = true
  /\ PyStr.blank (seed_text e) = false
  /\ PyStr.blank (seed_author e) = false
  /\ PyStr.strip (seed_text e) = seed_text e
  /\ PyStr.strip (seed_author e) = seed_author e
  /\ NoDup (supplied_names (seed_tags e))
  /\ supplied_names (seed_tags e) = seed_tag_names e.
Proof.
  unfold seed_entry_ok. rewrite !andb_true_iff.
  intros [[[[[[H0 H1] H2] H3] H4] H5] H6].
  apply negb_true_iff in H1, H2. apply String.eqb_eq in H3, H4.
  repeat split; auto.
  - eapply distinct_b_NoDup; [apply String.eqb_eq | exact H5].
  - destruct (list_eq_dec _ _ _); [assumption | discriminate].
Qed.

Lemma fresh_quote_carries_nothing (db : Database) (seq : Z) (n : string) :
  wf_db db -> ~ carries db (Sql.next_rowid seq (quote_ids db)) n.
Proof.
  intros Hwf (t & _ & _ & Hp).
  pose proof (wf_fk_quote _ Hwf) as Hfk. rewrite Forall_forall in Hfk.
  apply Hfk in Hp. simpl in Hp. revert Hp. apply next_rowid_fresh.
Qed.

Lemma seed_loop_ok (clock : nat -> Clock) (entries : list SeedQuote) :
  forallb seed_entry_ok entries = true ->
  forall (k : nat) (added_count : Z) (db : Database),
    wf_db db ->
    exists db' rows,
      seed_loop clock k entries added_count db
      = (added_count + Z.of_nat (List.length entries), db')
      /\ wf_db db'
      /\ quotes db' = quotes db ++ rows
      /\ Forall2 (seeded_from db') rows entries
      /\ (forall q n, In q (quote_ids db) ->
                      (carries db' q n <-> carries db q n)).
Proof.
  induction entries as [|e rest IH]; intros Hok k added_count db Hwf.
  - exists db, []. simpl. rewrite Z.add_0_r, app_nil_r.
    split; [reflexivity|]. split; [exact Hwf|]. split; [reflexivity|].
    split; [constructor|]. intros q n _. tauto.
  - simpl in Hok. apply andb_true_iff in Hok as [He Hrest].
    apply seed_entry_ok_spec in He
      as (Hy & Ht & Ha & Est & Esa & Hnd & Etags).
    destruct (add_quote_ok (clock k) (seed_text e) (seed_author e)
                (seed_source e) (seed_year e) (seed_tags e) db
                Hwf Ht Ha Hy Hnd) as (db1 & E & Hwf1 & Eq & _ & Hc).
    destruct (IH Hrest (S k) (added_count + 1) db1 Hwf1)
      as (db' & rows & E' & Hwf' & Eq' & Hall & Hframe).
    set (row := new_quote_row (clock k) (seed_text e) (seed_author e)
                  (seed_source e) (seed_year e) db) in *.
    assert (Hrow : In (row_id row) (quote_ids db1)).
    { unfold quote_ids. rewrite Eq, map_app. apply in_or_app.
      right. left. reflexivity. }
    exists db', (row :: rows). simpl. rewrite E, E'.
    split; [f_equal; lia|]. split; [exact Hwf'|].
    split; [now rewrite Eq', Eq, <- app_assoc|].
    split.
    + constructor; [|exact Hall]. split.
      * unfold payload, seed_payload. subst row. simpl. now rewrite Est, Esa.
      * intros n. rewrite (Hframe _ n Hrow), Hc, Etags. split.
        -- intros [Hcar | [_ H]]; [|exact H].
           exfalso. revert Hcar. now apply fresh_quote_carries_nothing.
        -- intros H. right. auto.
    + intros q n Hq. rewrite Hframe.
      * rewrite Hc. split; [|now left].
        intros [H | [-> _]]; [exact H|].
        exfalso. revert Hq. apply next_rowid_fresh.
      * unfold quote_ids in *. rewrite Eq, map_app. apply in_or_app. now left.
Qed.

Lemma SEED_QUOTES_ok : forallb seed_entry_ok SEED_QUOTES = true.
Proof. vm_compute. reflexivity. Qed.

(** C8: on a store that holds at least one quote, seed_database with
    force=false inserts nothing, returns (0, number of quotes) and leaves
    the database as it is.  With force=true it runs add_quote on every
    entry of SEED_QUOTES; all of them succeed, so it returns the size of
    the seed set and the total grown by that size, and the quote table is
    the old one followed by one new row per entry, each with the entry's
    text, author, source, year and tags: entries already present are
    stored again, not merged. *)
Theorem seed_database_skips_or_duplicates :
  forall (clock : nat -> Clock) (db : Database),
    wf_db db -> quotes db <> [] ->
    seed_database clock false db
    = (Ok (0, Z.of_nat (List.length (quotes db))), db)
    /\ exists db' rows,
         seed_database clock true db
         = (Ok (Z.of_nat (List.length SEED_QUOTES),
                Z.of_nat (List.length (quotes db))
                + Z.of_nat (List.length SEED_QUOTES)), db')
         /\ quotes db' = quotes db ++ rows
         /\ Forall2 (seeded_from db') rows SEED_QUOTES.
Proof.
  intros clock db Hwf Hne. split.
  - unfold seed_database.
    assert (Hseeded : check_if_seeded db = true).
    { unfold check_if_seeded. destruct (quotes db); [contradiction|].
      apply Z.ltb_lt. cbn [List.length]. lia. }
    rewrite Hseeded. cbn [negb andb].
    destruct (get_all_quotes_run (clock O) db) as (l & E & Hl).
    rewrite E, Hl. reflexivity.
  - destruct (seed_loop_ok clock SEED_QUOTES SEED_QUOTES_ok O 0 db Hwf)
      as (db' & rows & E & Hwf' & Eq & Hall & _).
    exists db', rows. split; [|auto].
    unfold seed_database. cbn [negb andb]. rewrite E.
    destruct (get_all_quotes_run (clock (List.length SEED_QUOTES)) db')
      as (l & E' & Hl).
    rewrite E', Hl, Eq, length_app.
    apply Forall2_length in Hall. rewrite Hall.
    do 3 f_equal. lia.
Qed.

Lemma seed_database_skips_or_duplicates_witness :
  seed_database (fun _ => noon) false two_quotes
  = (Ok (0, 2), two_quotes)
  /\ exists db' rows,
       seed_database (fun _ => noon) true two_quotes = (Ok (20, 22), db')
       /\ quotes db' = quotes two_quotes ++ rows
       /\ Forall2 (seeded_from db') rows SEED_QUOTES.
Proof.
  apply (seed_database_skips_or_duplicates (fun _ => noon) two_quotes).
  - apply wf_db_b_sound. vm_compute. reflexivity.
  - vm_compute. discriminate.
Defined.

(** ** update_quote *)

Lemma assign_raises (fields : list Sql.Assignment) :
  forall (r : result QuoteRow) (e : exn),
    (forall e', r = Raise e' -> e' = IntegrityError) ->
    fold_left Sql.assign fields r = Raise e -> e = IntegrityError.
Proof.
  induction fields as [|a fields IH]; intros r e Hr; simpl.
  - apply Hr.
  - apply IH. intros e'. destruct r as [row|e0]; simpl.
    + destruct a as [[v|]|[v|]|v|v]; congruence.
    + intros H. injection H as <-. now apply Hr.
Qed.

Lemma update_rows_raises (fields : list Sql.Assignment) (quote_id : Z)
    (rows : list QuoteRow) (e : exn) :
  Sql.update_rows fields quote_id rows = Raise e -> e = IntegrityError.
Proof.
  induction rows as [|r rows IH]; simpl; [discriminate|].
  destruct (if Z.eqb (row_id r) quote_id
            then fold_left Sql.assign fields (Ok r) else Ok r)
    as [r'|e'] eqn:E.
  - destruct (Sql.update_rows fields quote_id rows); [discriminate|].
    intros H. injection H as <-. now apply IH.
  - intros H. injection H as <-.
    destruct (Z.eqb (row_id r) quote_id); [|discriminate].
    eapply assign_raises; [|exact E]. discriminate.
Qed.

Lemma apply_fields_raises (kwargs : Kwargs) (quote_id : Z) (w : Database)
    (e : exn) :
  apply_fields kwargs quote_id w = Raise e -> e = IntegrityError.
Proof.
  unfold apply_fields, Sql.update_quotes.
  destruct (update_fields kwargs) as [|a fields]; [discriminate|].
  destruct (Sql.update_rows (a :: fields) quote_id (quotes w)) eqn:E;
    [discriminate|].
  intros H. injection H as <-. eapply update_rows_raises, E.
Qed.

Lemma int_params_update_fields (kwargs : Kwargs) :
  forallb fits_int64 (Sql.int_params (update_fields kwargs))
  = kw_year_fits kwargs.
Proof.
  unfold update_fields, kw_year_fits, year_fits.
  destruct (kw_text kwargs), (kw_author kwargs), (kw_source kwargs),
           (kw_year kwargs) as [[y|]|]; simpl;
    rewrite ?andb_true_r; reflexivity.
Qed.

(** A year that cannot be bound stops update_quote at the UPDATE. *)
Lemma update_quote_overflow_year (quote_id : Z) (kwargs : Kwargs)
    (db : Database) :
  kw_blank (kw_text kwargs) = false ->
  kw_blank (kw_author kwargs) = false ->
  fits_int64 quote_id = true ->
  In quote_id (quote_ids db) ->
  kw_year_fits kwargs = false ->
  update_quote quote_id kwargs db = (Raise OverflowError, db).
Proof.
  intros Ht Ha Hfits Hq Hy. unfold update_quote. rewrite Ht, Ha.
  rewrite with_connection_binding_fits by (now rewrite fits_one).
  unfold with_connection. unfold bind at 1, fetch at 1. simpl.
  rewrite (select_quote_id_present _ _ Hq).
  unfold bind at 1.
  pose proof (int_params_update_fields kwargs) as Hp. rewrite Hy in Hp.
  destruct (update_fields kwargs) as [|a fields]; [discriminate Hp|].
  unfold bind at 1. now rewrite (binding_overflow _ _ Hp).
Qed.

(** update_quote as one step on the database. *)
Lemma update_quote_run (quote_id : Z) (kwargs : Kwargs) (db : Database) :
  kw_blank (kw_text kwargs) = false ->
  kw_blank (kw_author kwargs) = false ->
  fits_int64 quote_id = true ->
  kw_year_fits kwargs = true ->
  In quote_id (quote_ids db) ->
  update_quote quote_id kwargs db
  = match apply_fields kwargs quote_id db with
    | Raise e => (Raise e, db)
    | Ok w =>
        match replace_tags kwargs quote_id w with
        | Raise e => (Raise e, db)
        | Ok w' => (Ok true, w')
        end
    end.
Proof.
  intros Ht Ha Hfits Hy Hq. unfold update_quote. rewrite Ht, Ha.
  rewrite with_connection_binding_fits by (now rewrite fits_one).
  unfold with_connection. unfold bind at 1, fetch at 1. simpl.
  rewrite (select_quote_id_present _ _ Hq).
  unfold bind at 1.
  assert (Hfields :
    match update_fields kwargs with
    | [] => ret tt
    | (_ :: _) as fields =>
        binding (Sql.int_params fields);;
        execute (Sql.update_quotes fields quote_id)
    end (mkConn db db)
    = match apply_fields kwargs quote_id db with
      | Ok w => (Ok tt, mkConn db w)
      | Raise e => (Raise e, mkConn db db)
      end).
  { unfold apply_fields.
    pose proof (int_params_update_fields kwargs) as Hp. rewrite Hy in Hp.
    destruct (update_fields kwargs) as [|a fields]; [reflexivity|].
    unfold bind. rewrite (binding_fits _ _ Hp). unfold execute. simpl.
    destruct (Sql.update_quotes (a :: fields) quote_id db) as [[[] w]|e];
      reflexivity. }
  cbv zeta in Hfields. rewrite Hfields. clear Hfields.
  destruct (apply_fields kwargs quote_id db) as [w|e]; [|reflexivity].
  unfold bind at 1.
  assert (Htags :
    match replace_tags kwargs quote_id w with
    | Ok w' =>
        match kw_tags kwargs with
        | None => ret tt
        | Some v =>
            execute (Sql.delete_quote_tags quote_id);;
            match v with
            | Some ((_ :: _) as l) => update_quote_tags quote_id l
            | _ => ret tt
            end
        end (mkConn db w) = (Ok tt, mkConn db w')
    | Raise e =>
        exists w',
          match kw_tags kwargs with
          | None => ret tt
          | Some v =>
              execute (Sql.delete_quote_tags quote_id);;
              match v with
              | Some ((_ :: _) as l) => update_quote_tags quote_id l
              | _ => ret tt
              end
          end (mkConn db w) = (Raise e, mkConn db w')
    end).
  { unfold replace_tags. destruct (kw_tags kwargs) as [v|]; [|reflexivity].
    unfold bind, execute. simpl. fold (without_tags quote_id w).
    destruct v as [[|t l]|]; try reflexivity.
    exact (update_quote_tags_run quote_id (t :: l)
             (mkConn db (without_tags quote_id w))). }
  destruct (replace_tags kwargs quote_id w) as [w'|e].
  - rewrite Htags. reflexivity.
  - destruct Htags as [w' Htags]. rewrite Htags. reflexivity.
Qed.

Lemma update_quote_raises_on_duplicate (db : Database) (quote_id : Z)
    (kwargs : Kwargs) (supplied : option (list string)) :
  kw_blank (kw_text kwargs) = false ->
  kw_blank (kw_author kwargs) = false ->
  In quote_id (quote_ids db) ->
  kw_tags kwargs = Some supplied ->
  ~ NoDup (supplied_names supplied) ->
  update_quote quote_id kwargs db
  = (Raise (if fits_int64 quote_id && kw_year_fits kwargs
            then IntegrityError else OverflowError), db).
Proof.
  intros Ht Ha Hq Htags Hdup.
  destruct (fits_int64 quote_id) eqn:Hfits;
    [|now apply update_quote_overflow_id].
  destruct (kw_year_fits kwargs) eqn:Hy;
    [|now apply update_quote_overflow_year].
  rewrite (update_quote_run _ _ _ Ht Ha Hfits Hy Hq).
  destruct (apply_fields kwargs quote_id db) as [w|e] eqn:E.
  - unfold replace_tags. rewrite Htags.
    now rewrite link_all_duplicate.
  - now rewrite (apply_fields_raises _ _ _ _ E).
Qed.

(** C4 (the code departs from the claim): when the names supplied in the
    tags field of update_quote contain, once trimmed, a name twice, the
    loop inserts the same (quote_id, tag_id) twice; the second INSERT
    violates the primary key of quote_tags, update_quote raises
    IntegrityError, and since nothing was committed the quote keeps the
    associations it had: the tag set is not replaced.  (With an id or a
    year that does not fit in 64 bits the call fails earlier, with
    OverflowError; nothing changes either.) *)
Theorem update_quote_duplicate_tag_raises :
  forall (db : Database) (quote_id : Z) (kwargs : Kwargs)
         (supplied : option (list string)),
    kw_blank (kw_text kwargs) = false ->
    kw_blank (kw_author kwargs) = false ->
    In quote_id (quote_ids db) ->
    kw_tags kwargs = Some supplied ->
    ~ NoDup (supplied_names supplied) ->
    update_quote quote_id kwargs db
    = (Raise (if fits_int64 quote_id && kw_year_fits kwargs
              then IntegrityError else OverflowError), db).
Proof.
  intros db quote_id kwargs supplied.
  apply update_quote_raises_on_duplicate.
Qed.

Lemma update_quote_duplicate_tag_raises_witness :
  update_quote 1
    (mkKwargs None None None None (Some (Some ["humor"; "humor "])))
    two_quotes
  = (Raise IntegrityError, two_quotes).
Proof.
  apply (update_quote_duplicate_tag_raises two_quotes 1
           (mkKwargs None None None None (Some (Some ["humor"; "humor "])))
           (Some ["humor"; "humor "])).
  - reflexivity.
  - reflexivity.
  - vm_compute. left. reflexivity.
  - reflexivity.
  - vm_compute. intros H. apply NoDup_cons_iff in H as [H _].
    apply H. left. reflexivity.
Defined.

Lemma assign_ok (fields : list Sql.Assignment) :
  Forall assignment_ok fields ->
  forall r, exists r',
    fold_left Sql.assign fields (Ok r) = Ok r' /\ row_id r' = row_id r.
Proof.
  induction 1 as [|a fields Ha _ IH]; intros r; simpl.
  - exists r. auto.
  - destruct a as [[v|]|[v|]|v|v]; simpl in Ha; try contradiction;
      match goal with
      | |- context [fold_left _ _ (Ok ?x)] =>
          destruct (IH x) as (r' & E & Hid); exists r'; split;
          [exact E | exact Hid]
      end.
Qed.

Lemma update_rows_ok (fields : list Sql.Assignment) (quote_id : Z)
    (rows : list QuoteRow) :
  Forall assignment_ok fields ->
  exists rows',
    Sql.update_rows fields quote_id rows = Ok rows'
    /\ map row_id rows' = map row_id rows.
Proof.
  intros Hok. induction rows as [|r rows (rows' & E & Hids)]; simpl.
  - exists []. auto.
  - destruct (assign_ok fields Hok r) as (r' & Er & Hid).
    rewrite E.
    destruct (Z.eqb (row_id r) quote_id).
    + rewrite Er. exists (r' :: rows'). simpl. now rewrite Hid, Hids.
    + exists (r :: rows'). simpl. now rewrite Hids.
Qed.

Lemma update_fields_ok (kwargs : Kwargs) :
  kw_blank (kw_text kwargs) = false ->
  kw_blank (kw_author kwargs) = false ->
  Forall assignment_ok (update_fields kwargs).
Proof.
  intros Ht Ha. unfold update_fields.
  assert (Hstrip : forall v, kw_blank (Some v) = false ->
                             exists s, strip_if_truthy v = Some s).
  { intros [s|]; simpl; [|discriminate]. intros _.
    destruct (PyStr.truthy s); eexists; reflexivity. }
  apply Forall_app. split; [|apply Forall_app; split;
                              [|apply Forall_app; split]].
  - destruct (kw_text kwargs) as [v|]; [|constructor].
    destruct (Hstrip v Ht) as [s E]. rewrite E.
    constructor; [exact I | constructor].
  - destruct (kw_author kwargs) as [v|]; [|constructor].
    destruct (Hstrip v Ha) as [s E]. rewrite E.
    constructor; [exact I | constructor].
  - destruct (kw_source kwargs); constructor; [exact I | constructor].
  - destruct (kw_year kwargs); constructor; [exact I | constructor].
Qed.

Lemma apply_fields_ok (kwargs : Kwargs) (quote_id : Z) (db : Database) :
  kw_blank (kw_text kwargs) = false ->
  kw_blank (kw_author kwargs) = false ->
  exists w,
    apply_fields kwargs quote_id db = Ok w
    /\ quote_ids w = quote_ids db
    /\ tags w = tags db
    /\ quote_tags w = quote_tags db.
Proof.
  intros Ht Ha. unfold apply_fields, Sql.update_quotes.
  pose proof (update_fields_ok kwargs Ht Ha) as Hok.
  destruct (update_fields kwargs) as [|a fields].
  - exists db. auto.
  - destruct (update_rows_ok (a :: fields) quote_id (quotes db) Hok)
      as (rows' & E & Hids).
    rewrite E. eexists. split; [reflexivity|]. auto.
Qed.

Lemma wf_db_same_keys (db w : Database) :
  quote_ids w = quote_ids db -> tags w = tags db ->
  quote_tags w = quote_tags db -> wf_db db -> wf_db w.
Proof.
  intros Eq Et Ep [H1 H2 H3 H4 H5 H6].
  constructor; unfold tag_ids, tag_names in *; rewrite ?Eq, ?Et, ?Ep;
    assumption.
Qed.

Lemma without_tags_wf (quote_id : Z) (w : Database) :
  wf_db w -> wf_db (without_tags quote_id w).
Proof.
  intros [H1 H2 H3 H4 H5 H6].
  constructor; unfold quote_ids, tag_ids, tag_names in *; simpl;
    try assumption.
  - now apply NoDup_filter.
  - rewrite Forall_forall in *. intros qt Hqt.
    apply filter_In in Hqt as [Hqt _]. auto.
  - rewrite Forall_forall in *. intros qt Hqt.
    apply filter_In in Hqt as [Hqt _]. auto.
Qed.

Lemma without_tags_carries (quote_id : Z) (w : Database) (q : Z)
    (n : string) :
  carries (without_tags quote_id w) q n <-> carries w q n /\ q <> quote_id.
Proof.
  unfold carries. simpl. split.
  - intros (t & Ht & Hn & Hp). apply filter_In in Hp as [Hp Hne].
    simpl in Hne. apply negb_true_iff, Z.eqb_neq in Hne.
    split; [|exact Hne]. exists t. auto.
  - intros [(t & Ht & Hn & Hp) Hne]. exists t. repeat split; auto.
    apply filter_In. split; [exact Hp|]. simpl.
    now apply negb_true_iff, Z.eqb_neq.
Qed.

(** With names that are pairwise distinct once trimmed, update_quote does
    what the claim C4 says: the supplied names become the tags of the
    quote ([None] and the empty list leave it without tags), the other
    quotes keep theirs, and without the tags field no association and no
    tag row changes. *)
Lemma update_quote_replaces_distinct_tags (db : Database) (quote_id : Z)
    (kwargs : Kwargs) :
  wf_db db ->
  kw_blank (kw_text kwargs) = false ->
  kw_blank (kw_author kwargs) = false ->
  fits_int64 quote_id = true ->
  kw_year_fits kwargs = true ->
  In quote_id (quote_ids db) ->
  (forall supplied,
      kw_tags kwargs = Some supplied ->
      NoDup (supplied_names supplied) ->
      exists db',
        update_quote quote_id kwargs db = (Ok true, db')
        /\ wf_db db'
        /\ quote_ids db' = quote_ids db
        /\ (forall n, carries db' quote_id n
                      <-> In n (supplied_names supplied))
        /\ (forall q n, q <> quote_id ->
                        (carries db' q n <-> carries db q n))
        /\ Sql.select_tag_names quote_id db'
           = sort_names (supplied_names supplied))
  /\ (kw_tags kwargs = None ->
      exists db',
        update_quote quote_id kwargs db = (Ok true, db')
        /\ tags db' = tags db
        /\ quote_tags db' = quote_tags db).
Proof.
  intros Hwf Ht Ha Hfits Hy Hq.
  rewrite (update_quote_run _ _ _ Ht Ha Hfits Hy Hq).
  destruct (apply_fields_ok kwargs quote_id db Ht Ha)
    as (w & E & Eq & Etags & Ep).
  rewrite E. unfold replace_tags. split.
  - intros supplied Hs Hnd. rewrite Hs.
    assert (Hwfw : wf_db w) by (eapply wf_db_same_keys; eauto).
    assert (Hcw : forall q n, carries w q n <-> carries db q n).
    { intros q n. unfold carries. now rewrite Etags, Ep. }
    destruct (link_all_ok quote_id (supplied_names supplied)
                (without_tags quote_id w))
      as (db' & El & Hwf' & Eq' & _ & _ & Hc); auto.
    { now apply without_tags_wf. }
    { unfold quote_ids in *. simpl. now rewrite Eq. }
    { intros n _ Hcar. apply without_tags_carries in Hcar as [_ Hne].
      now apply Hne. }
    rewrite El. exists db'. split; [reflexivity|]. split; [exact Hwf'|].
    split; [unfold quote_ids in *; now rewrite Eq'|].
    assert (Hid : forall n, carries db' quote_id n
                            <-> In n (supplied_names supplied)).
    { intros n. rewrite Hc, without_tags_carries. split.
      - intros [[_ Hne] | [_ H]]; [now exfalso | exact H].
      - intros H. right. auto. }
    split; [exact Hid|]. split.
    + intros q n Hne. rewrite Hc, without_tags_carries, Hcw. split.
      * intros [[H _] | [Heq _]]; [exact H | contradiction].
      * intros H. left. auto.
    + now apply select_tag_names_of_carried.
  - intros Hs. rewrite Hs. exists w. auto.
Qed.

(** ** Counting through an injective relation *)

Section Counting.
Context {A B : Type}.
Variable R : A -> B -> Prop.

Lemma related_image (l : list A) (l' : list B) :
  (forall a, In a l -> exists b, R a b /\ In b l') ->
  exists bs, Forall2 R l bs /\ incl bs l'.
Proof.
  induction l as [|a l IH]; intros H.
  - exists []. split; [constructor | intros b []].
  - destruct (H a (or_introl eq_refl)) as (b & Hab & Hb).
    destruct IH as (bs & Hbs & Hincl).
    { intros a' Ha'. apply H. now right. }
    exists (b :: bs). split; [now constructor|].
    intros x [<- | Hx]; auto.
Qed.

Lemma Forall2_In_r (l : list A) (bs : list B) (b : B) :
  Forall2 R l bs -> In b bs -> exists a, In a l /\ R a b.
Proof.
  induction 1 as [|a b' l bs Hab _ IH]; intros Hin; [destruct Hin|].
  destruct Hin as [<- | Hin].
  - exists a. split; [now left | exact Hab].
  - destruct (IH Hin) as (a' & Ha' & HR). exists a'. split; [now right|auto].
Qed.

Lemma related_NoDup (l : list A) (bs : list B) :
  (forall a1 a2 b, In a1 l -> In a2 l -> R a1 b -> R a2 b -> a1 = a2) ->
  NoDup l -> Forall2 R l bs -> NoDup bs.
Proof.
  intros Hinj Hnd Hall. induction Hall as [|a b l bs Hab Hall IH].
  - constructor.
  - apply NoDup_cons_iff in Hnd as [Ha Hnd]. constructor.
    + intros Hb. destruct (Forall2_In_r _ _ _ Hall Hb) as (a' & Ha' & HR).
      apply Ha. rewrite (Hinj a a' b); auto; [now left | now right].
    + apply IH; auto. intros a1 a2 b0 H1 H2. apply Hinj; now right.
Qed.

(** A duplicate-free list related injectively into [l'] is no longer
    than [l']. *)
Lemma related_length (l : list A) (l' : list B) :
  NoDup l ->
  (forall a, In a l -> exists b, R a b /\ In b l') ->
  (forall a1 a2 b, In a1 l -> In a2 l -> R a1 b -> R a2 b -> a1 = a2) ->
  exists bs, Forall2 R l bs /\ NoDup bs /\ incl bs l'
             /\ (List.length l <= List.length l')%nat.
Proof.
  intros Hnd Himg Hinj.
  destruct (related_image l l' Himg) as (bs & Hall & Hincl).
  pose proof (related_NoDup l bs Hinj Hnd Hall) as Hbs.
  exists bs. repeat split; auto.
  rewrite (Forall2_length Hall). now apply NoDup_incl_length.
Qed.
End Counting.

Lemma nodup_length_le {A} (dec : forall x y : A, {x = y} + {x <> y})
    (l : list A) :
  (List.length (nodup dec l) <= List.length l)%nat.
Proof.
  induction l as [|x l IH]; simpl; [lia|].
  destruct (in_dec dec x l); simpl; lia.
Qed.

Lemma nodup_length_lt {A} (dec : forall x y : A, {x = y} + {x <> y})
    (l : list A) :
  ~ NoDup l -> (List.length (nodup dec l) < List.length l)%nat.
Proof.
  induction l as [|x l IH]; intros Hdup.
  - exfalso. apply Hdup. constructor.
  - simpl. destruct (in_dec dec x l) as [Hin | Hout].
    + pose proof (nodup_length_le dec l). lia.
    + simpl. apply -> Nat.succ_lt_mono. apply IH.
      intros Hnd. apply Hdup. now constructor.
Qed.

(** ** search_quotes with tags *)

Lemma quotes_join_tags_In (db : Database) (q : QuoteRow) (t : TagRow) :
  In (q, t) (Sql.quotes_join_tags db)
  <-> In q (quotes db) /\ In t (tags db)
      /\ In (mkQuoteTagRow (row_id q) (tag_id t)) (quote_tags db).
Proof.
  unfold Sql.quotes_join_tags. split.
  - intros H. apply in_flat_map in H as (q' & Hq' & H).
    apply in_flat_map in H as (qt & Hqt & H).
    apply in_map_iff in H as (t' & E & Ht'). injection E as -> ->.
    apply filter_In in Hqt as [Hqt Eq]. apply filter_In in Ht' as [Ht' Et].
    apply Z.eqb_eq in Eq, Et. repeat split; auto.
    destruct qt as [a b]. simpl in *. now subst.
  - intros (Hq & Ht & Hp). apply in_flat_map. exists q. split; [exact Hq|].
    apply in_flat_map. exists (mkQuoteTagRow (row_id q) (tag_id t)). split.
    + apply filter_In. split; [exact Hp|]. simpl. apply Z.eqb_refl.
    + apply in_map_iff. exists t. split; [reflexivity|].
      apply filter_In. split; [exact Ht|]. simpl. apply Z.eqb_refl.
Qed.

Lemma search_group_In (db : Database) (query author : option string)
    (names : list string) (k : Z) (q : QuoteRow) (t : TagRow) :
  In (q, t) (Sql.group_by_id k (Sql.search_where query author names db))
  <-> row_id q = k /\ In q (quotes db) /\ In t (tags db)
      /\ In (mkQuoteTagRow k (tag_id t)) (quote_tags db)
      /\ In (tag_name t) names
      /\ Sql.where_query query q = true
      /\ Sql.where_author author q = true.
Proof.
  unfold Sql.group_by_id, Sql.search_where.
  rewrite !filter_In, quotes_join_tags_In. simpl.
  rewrite !andb_true_iff, mem_string_In, Z.eqb_eq. split.
  - intros [[(Hq & Ht & Hp) [[Hn Hwq] Hwa]] <-]. repeat split; auto.
  - intros (<- & Hq & Ht & Hp & Hn & Hwq & Hwa). repeat split; auto.
Qed.

(** The distinct tag ids of a group are those of distinct names of the
    request. *)
Lemma count_distinct_le (db : Database) (query author : option string)
    (names : list string) (k : Z) :
  wf_db db ->
  (Sql.count_distinct_tag_ids
     (Sql.group_by_id k (Sql.search_where query author names db))
   <= Z.of_nat (List.length (nodup string_dec names)))%Z.
Proof.
  intros Hwf. unfold Sql.count_distinct_tag_ids.
  set (group := Sql.group_by_id k (Sql.search_where query author names db)).
  set (ids := nodup Z.eq_dec (map (fun r => tag_id (snd r)) group)).
  destruct (related_length (tag_called db) ids (nodup string_dec names))
    as (bs & _ & _ & _ & Hlen).
  - apply NoDup_nodup.
  - intros i Hi. apply nodup_In, in_map_iff in Hi as ([q t] & <- & Hin).
    apply search_group_In in Hin as (_ & _ & Ht & _ & Hn & _).
    exists (tag_name t). split.
    + unfold tag_called. simpl. now destruct t.
    + now apply nodup_In.
  - intros i1 i2 n _ _ H1 H2. unfold tag_called in *.
    assert (E : mkTagRow i1 n = mkTagRow i2 n).
    { apply (NoDup_map_inj_on tag_name (tags db)); auto.
      exact (wf_tag_unique _ Hwf). }
    congruence.
  - lia.
Qed.

Lemma flat_map_empty {A B} (f : A -> list B) (l : list A) :
  (forall x, In x l -> f x = []) -> flat_map f l = [].
Proof.
  induction l as [|x l IH]; simpl; intros H; [reflexivity|].
  rewrite (H x (or_introl eq_refl)). apply IH.
  intros y Hy. apply H. now right.
Qed.

Lemma search_duplicate_rows (db : Database) (query author : option string)
    (names : list string) :
  wf_db db -> ~ NoDup names ->
  Sql.search query author (Some names) db = [].
Proof.
  intros Hwf Hdup. destruct names as [|n names].
  { exfalso. apply Hdup. constructor. }
  unfold Sql.search.
  set (kept := Sql.search_where query author (n :: names) db).
  assert (E : flat_map (fun k =>
                if Sql.having_all_tags (n :: names) (Sql.group_by_id k kept)
                then firstn 1 (map fst (Sql.group_by_id k kept)) else [])
              (nodup Z.eq_dec (map (fun r => row_id (fst r)) kept)) = []).
  { apply flat_map_empty. intros k _.
    unfold Sql.having_all_tags.
    pose proof (count_distinct_le db query author (n :: names) k Hwf) as Hle.
    pose proof (nodup_length_lt string_dec (n :: names) Hdup) as Hlt.
    fold kept in Hle.
    destruct (Z.eqb_spec (Sql.count_distinct_tag_ids (Sql.group_by_id k kept))
                (Z.of_nat (List.length (n :: names)))) as [E|]; [|reflexivity].
    exfalso. lia. }
  cbv zeta. rewrite E. reflexivity.
Qed.

Lemma firstn_incl {A} (n : nat) (l : list A) (x : A) :
  In x (firstn n l) -> In x l.
Proof.
  revert l. induction n as [|n IH]; intros [|y l]; simpl; try tauto.
  intros [-> | H]; auto.
Qed.

Lemma count_distinct_all_carried (db : Database)
    (query author : option string) (names : list string) (k : Z) :
  wf_db db -> NoDup names ->
  Sql.having_all_tags names
    (Sql.group_by_id k (Sql.search_where query author names db)) = true ->
  forall n, In n names -> carries db k n.
Proof.
  intros Hwf Hnd Hhave. unfold Sql.having_all_tags in Hhave.
  apply Z.eqb_eq in Hhave. unfold Sql.count_distinct_tag_ids in Hhave.
  apply Nat2Z.inj in Hhave.
  set (group := Sql.group_by_id k (Sql.search_where query author names db))
    in *.
  set (ids := nodup Z.eq_dec (map (fun r => tag_id (snd r)) group)) in *.
  destruct (related_length (tag_called db) ids names)
    as (bs & Hall & Hbs & Hincl & _).
  - apply NoDup_nodup.
  - intros i Hi. apply nodup_In, in_map_iff in Hi as ([q t] & <- & Hin).
    apply search_group_In in Hin as (_ & _ & Ht & _ & Hn & _).
    exists (tag_name t). split; [|exact Hn].
    unfold tag_called. simpl. now destruct t.
  - intros i1 i2 n _ _ H1 H2. unfold tag_called in *.
    assert (E : mkTagRow i1 n = mkTagRow i2 n).
    { apply (NoDup_map_inj_on tag_name (tags db)); auto.
      exact (wf_tag_unique _ Hwf). }
    congruence.
  - intros n Hn.
    assert (Hsup : incl names bs).
    { apply NoDup_length_incl; auto.
      rewrite <- (Forall2_length Hall). now rewrite Hhave. }
    apply Hsup in Hn.
    destruct (Forall2_In_r _ _ _ _ Hall Hn) as (i & Hi & Hcalled).
    apply nodup_In, in_map_iff in Hi as ([q t] & Ei & Hin).
    apply search_group_In in Hin as (_ & _ & _ & Hp & _). simpl in Ei.
    exists (mkTagRow i n). repeat split; auto. simpl. now rewrite <- Ei.
Qed.

Lemma all_carried_count_distinct (db : Database)
    (query author : option string) (names : list string) (q : QuoteRow) :
  wf_db db -> NoDup names ->
  In q (quotes db) ->
  Sql.where_query query q = true -> Sql.where_author author q = true ->
  (forall n, In n names -> carries db (row_id q) n) ->
  Sql.having_all_tags names
    (Sql.group_by_id (row_id q) (Sql.search_where query author names db))
  = true.
Proof.
  intros Hwf Hnd Hq Hwq Hwa Hall. unfold Sql.having_all_tags.
  apply Z.eqb_eq.
  pose proof (count_distinct_le db query author names (row_id q) Hwf) as Hle.
  rewrite (nodup_fixed_point string_dec Hnd) in Hle.
  unfold Sql.count_distinct_tag_ids in *.
  set (group := Sql.group_by_id (row_id q)
                  (Sql.search_where query author names db)) in *.
  set (ids := nodup Z.eq_dec (map (fun r => tag_id (snd r)) group)) in *.
  destruct (related_length (fun n i => tag_called db i n) names ids Hnd)
    as (_ & _ & _ & _ & Hge).
  - intros n Hn. destruct (Hall n Hn) as (t & Ht & En & Hp).
    exists (tag_id t). split.
    + unfold tag_called. rewrite <- En. now destruct t.
    + apply nodup_In, in_map_iff. exists (q, t). split; [reflexivity|].
      apply search_group_In. rewrite En. repeat split; auto.
  - intros n1 n2 i _ _ H1 H2. unfold tag_called in *.
    assert (E : mkTagRow i n1 = mkTagRow i n2).
    { apply (NoDup_map_inj_on tag_id (tags db)); auto.
      exact (wf_tag_pk _ Hwf). }
    congruence.
  - lia.
Qed.

(** With names that are pairwise distinct, the statement has the AND
    semantics of the claim C1: a quote row is selected exactly when it
    passes the query and author clauses and carries every listed tag. *)
Lemma search_distinct_tags_rows (db : Database)
    (query author : option string) (names : list string) (q : QuoteRow) :
  wf_db db -> names <> [] -> NoDup names ->
  In q (Sql.search query author (Some names) db)
  <-> In q (quotes db)
      /\ Sql.where_query query q = true
      /\ Sql.where_author author q = true
      /\ forall n, In n names -> carries db (row_id q) n.
Proof.
  intros Hwf Hne Hnd. destruct names as [|n0 names0]; [contradiction|].
  unfold Sql.search. cbv zeta.
  set (names := n0 :: names0) in *.
  rewrite order_by_In, nodup_In, in_flat_map. split.
  - intros (k & _ & Hsel).
    destruct (Sql.having_all_tags names _) eqn:Hhave; [|destruct Hsel].
    apply firstn_incl, in_map_iff in Hsel as ([q' t] & E & Hin).
    simpl in E. subst q'.
    apply search_group_In in Hin as (Ek & Hq & _ & _ & _ & Hwq & Hwa).
    repeat split; auto. rewrite Ek.
    now apply (count_distinct_all_carried db query author names k).
  - intros (Hq & Hwq & Hwa & Hall).
    destruct (Hall n0 (or_introl eq_refl)) as (t0 & Ht0 & En0 & Hp0).
    assert (Hin0 : In (q, t0)
                     (Sql.group_by_id (row_id q)
                        (Sql.search_where query author names db))).
    { apply search_group_In. rewrite En0. repeat split; auto. now left. }
    exists (row_id q). split.
    + apply nodup_In, in_map_iff. exists (q, t0). split; [reflexivity|].
      unfold Sql.group_by_id in Hin0. now apply filter_In in Hin0 as [H _].
    + rewrite (all_carried_count_distinct db query author names q); auto.
      destruct (Sql.group_by_id (row_id q)
                  (Sql.search_where query author names db))
        as [|[q' t'] rest] eqn:Eg; [destruct Hin0|].
      simpl. left.
      assert (Hin' : In (q', t')
                       (Sql.group_by_id (row_id q)
                          (Sql.search_where query author names db))).
      { rewrite Eg. now left. }
      apply search_group_In in Hin' as (Ek & Hq' & _).
      apply (NoDup_map_inj_on row_id (quotes db)); auto.
      exact (wf_quote_pk _ Hwf).
Qed.

(** C1 (the code departs from the claim): HAVING compares the number of
    distinct matched tags with [len(tags)], the length of the list as it
    was passed, not with the number of distinct names in it.  When the
    list names a tag twice the count of distinct matched tags stays below
    that length for every quote, so search_quotes returns no quote at all,
    not even those that carry every listed tag. *)
Theorem search_quotes_duplicate_tag_finds_nothing :
  forall (clock : Clock) (db : Database) (query author : option string)
         (names : list string),
    wf_db db -> ~ NoDup names ->
    search_quotes clock query author (Some names) db = (Ok [], db).
Proof.
  intros clock db query author names Hwf Hdup.
  unfold search_quotes, with_connection, bind, fetch. cbn [txn].
  now rewrite (search_duplicate_rows db query author names Hwf Hdup).
Qed.

Lemma search_quotes_duplicate_tag_finds_nothing_witness :
  carries two_quotes 2 "humor"
  /\ search_quotes noon None None (Some ["humor"; "humor"]) two_quotes
     = (Ok [], two_quotes).
Proof.
  split.
  - exists (mkTagRow 2 "humor"). vm_compute. tauto.
  - apply search_quotes_duplicate_tag_finds_nothing.
    + apply wf_db_b_sound. vm_compute. reflexivity.
    + intros H. apply NoDup_cons_iff in H as [H _].
      apply H. left. reflexivity.
Defined.

(** ** The schema's constraints are an invariant *)

Lemma init_database_wf : wf_db init_database.
Proof. apply wf_db_b_sound. reflexivity. Qed.

Lemma link_all_Ok_NoDup (quote_id : Z) (names : list string)
    (w w' : Database) :
  link_all quote_id names w = Ok w' -> NoDup names.
Proof.
  intros E. destruct (NoDup_dec string_dec names) as [H | H]; [exact H|].
  rewrite (link_all_duplicate quote_id names w H) in E. discriminate.
Qed.

Lemma add_quote_wf (clock : Clock) (text author : string)
    (source : option string) (year : option Z)
    (supplied : option (list string)) (db : Database) :
  wf_db db ->
  wf_db (snd (add_quote clock text author source year supplied db)).
Proof.
  intros Hwf.
  destruct (PyStr.blank text) eqn:Ht.
  { unfold add_quote. now rewrite Ht. }
  destruct (PyStr.blank author) eqn:Ha.
  { unfold add_quote. now rewrite Ht, Ha. }
  destruct (year_fits year) eqn:Hy.
  2: { now rewrite (add_quote_overflow _ _ _ _ _ _ _ Ht Ha Hy). }
  pose proof (add_quote_run clock text author source year supplied db
                Ht Ha Hy)
    as Hrun. cbv zeta in Hrun.
  destruct (link_all _ _ _) as [w'|e] eqn:E.
  - apply link_all_Ok_NoDup in E.
    destruct (add_quote_ok clock text author source year supplied db
                Hwf Ht Ha Hy E) as (db' & E' & Hwf' & _).
    now rewrite E'.
  - now rewrite Hrun.
Qed.

Lemma update_quote_wf (quote_id : Z) (kwargs : Kwargs) (db : Database) :
  wf_db db -> wf_db (snd (update_quote quote_id kwargs db)).
Proof.
  intros Hwf.
  destruct (kw_blank (kw_text kwargs)) eqn:Ht.
  { unfold update_quote. now rewrite Ht. }
  destruct (kw_blank (kw_author kwargs)) eqn:Ha.
  { unfold update_quote. now rewrite Ht, Ha. }
  destruct (fits_int64 quote_id) eqn:Hfits.
  2: { now rewrite (update_quote_overflow_id _ _ _ Hfits Ht Ha). }
  destruct (in_dec Z.eq_dec quote_id (quote_ids db)) as [Hq | Hq].
  - destruct (kw_year_fits kwargs) eqn:Hy.
    2: { now rewrite (update_quote_overflow_year _ _ _ Ht Ha Hfits Hq Hy). }
    destruct (update_quote_replaces_distinct_tags db quote_id kwargs
                Hwf Ht Ha Hfits Hy Hq) as [Hsome Hnone].
    destruct (kw_tags kwargs) as [v|] eqn:Ev.
    + destruct (NoDup_dec string_dec (supplied_names v)) as [Hnd | Hdup].
      * destruct (Hsome v eq_refl Hnd) as (db' & E & Hwf' & _).
        now rewrite E.
      * now rewrite (update_quote_raises_on_duplicate db quote_id
                       kwargs v Ht Ha Hq Ev Hdup).
    + destruct (Hnone eq_refl) as (db' & E & Et & Ep).
      rewrite E. simpl.
      rewrite (update_quote_run _ _ _ Ht Ha Hfits Hy Hq) in E.
      destruct (apply_fields_ok kwargs quote_id db Ht Ha)
        as (w & Ew & Eq & Etw & Epw).
      rewrite Ew in E. unfold replace_tags in E. rewrite Ev in E.
      injection E as <-. eapply wf_db_same_keys; eauto.
  - now rewrite (update_quote_absent_id_aux db quote_id kwargs Hfits Hq Ht Ha).
Qed.

Lemma delete_quote_wf (quote_id : Z) (db : Database) :
  wf_db db -> wf_db (snd (delete_quote quote_id db)).
Proof.
  intros Hwf.
  destruct (fits_int64 quote_id) eqn:Hfits.
  2: { now rewrite (delete_quote_overflow _ _ Hfits). }
  destruct (in_dec Z.eq_dec quote_id (quote_ids db)) as [Hq | Hq].
  - rewrite (delete_quote_present _ _ Hfits Hq). simpl.
    destruct Hwf as [H1 H2 H3 H4 H5 H6].
    constructor; unfold quote_ids, tag_ids, tag_names in *; simpl;
      try assumption.
    + clear - H1. induction (quotes db) as [|r rows IH]; simpl; [constructor|].
      simpl in H1. apply NoDup_cons_iff in H1 as [Hr Hnd].
      destruct (Z.eqb (row_id r) quote_id); simpl; auto.
      constructor; auto. intros Hin. apply Hr.
      apply in_map_iff in Hin as (r' & E & Hin).
      apply filter_In in Hin as [Hin _]. rewrite <- E. now apply in_map.
    + now apply NoDup_filter.
    + rewrite Forall_forall in *. intros qt Hqt.
      apply filter_In in Hqt as [Hqt Hne].
      apply negb_true_iff, Z.eqb_neq in Hne.
      specialize (H5 qt Hqt). apply in_map_iff in H5 as (r & E & Hr).
      apply in_map_iff. exists r. split; [exact E|].
      apply filter_In. split; [exact Hr|].
      apply negb_true_iff, Z.eqb_neq. congruence.
    + rewrite Forall_forall in *. intros qt Hqt.
      apply filter_In in Hqt as [Hqt _]. auto.
  - now rewrite (delete_quote_absent _ _ Hfits Hq).
Qed.

Lemma add_tag_to_quote_wf (quote_id : Z) (tag : string) (db : Database) :
  wf_db db -> wf_db (snd (add_tag_to_quote quote_id tag db)).
Proof.
  intros Hwf.
  destruct (PyStr.blank tag) eqn:Hb.
  { unfold add_tag_to_quote. now rewrite Hb. }
  destruct (fits_int64 quote_id) eqn:Hfits.
  2: { now rewrite (add_tag_to_quote_overflow _ _ _ Hb Hfits). }
  destruct (in_dec Z.eq_dec quote_id (quote_ids db)) as [Hq | Hq].
  - destruct (add_tag_to_quote_first db quote_id tag Hwf Hb Hfits Hq)
      as (db1 & E & Hwf1 & _).
    now rewrite E.
  - rewrite (add_tag_to_quote_fits _ _ _ Hb Hfits). run_conn.
    now rewrite (select_quote_id_absent _ _ Hq).
Qed.

Lemma seed_loop_wf (clock : nat -> Clock) (entries : list SeedQuote) :
  forall (k : nat) (added_count : Z) (db : Database),
    wf_db db -> wf_db (snd (seed_loop clock k entries added_count db)).
Proof.
  induction entries as [|e rest IH]; intros k added_count db Hwf; simpl.
  - exact Hwf.
  - pose proof (add_quote_wf (clock k) (seed_text e) (seed_author e)
                  (seed_source e) (seed_year e) (seed_tags e) db Hwf) as H.
    destruct (add_quote (clock k) (seed_text e) (seed_author e)
                (seed_source e) (seed_year e) (seed_tags e) db)
      as [[q|ex] db1]; simpl in H; now apply IH.
Qed.

Lemma seed_database_wf (clock : nat -> Clock) (force : bool) (db : Database) :
  wf_db db -> wf_db (snd (seed_database clock force db)).
Proof.
  intros Hwf. unfold seed_database.
  destruct (negb force && check_if_seeded db).
  - destruct (get_all_quotes_run (clock O) db) as (l & E & _).
    now rewrite E.
  - pose proof (seed_loop_wf clock SEED_QUOTES O 0 db Hwf) as H.
    destruct (seed_loop clock O SEED_QUOTES 0 db) as [added db1].
    destruct (get_all_quotes_run (clock (List.length SEED_QUOTES)) db1)
      as (l & E & _).
    now rewrite E.
Qed.

(** Every database the program can build satisfies the constraints of the
    schema. *)
Lemma reachable_wf (db : Database) : reachable db -> wf_db db.
Proof.
  induction 1.
  - exact init_database_wf.
  - now apply add_quote_wf.
  - now apply update_quote_wf.
  - now apply delete_quote_wf.
  - now apply add_tag_to_quote_wf.
  - now apply seed_database_wf.
Qed.

(** ** Reading a quote back *)

Lemma select_quote_present (db : Database) (quote_id : Z) :
  In quote_id (quote_ids db) ->
  exists row, Sql.select_quote quote_id db = Some row
              /\ row_id row = quote_id.
Proof.
  intros H. unfold Sql.select_quote, quote_ids in *.
  apply in_map_iff in H as (r & Hr & Hin).
  destruct (find _ (quotes db)) as [r'|] eqn:E.
  - exists r'. split; [reflexivity|].
    apply find_some in E as [_ E]. now apply Z.eqb_eq in E.
  - exfalso. apply (find_none _ _ E) in Hin.
    rewrite Hr, Z.eqb_refl in Hin. discriminate.
Qed.

Lemma get_quote_by_id_present (clock : Clock) (db : Database) (quote_id : Z) :
  fits_int64 quote_id = true ->
  In quote_id (quote_ids db) ->
  exists stored,
    get_quote_by_id clock quote_id db = (Ok (Some stored), db)
    /\ Models.id stored = quote_id
    /\ Models.tags stored = Sql.select_tag_names quote_id db.
Proof.
  intros Hfits H.
  destruct (select_quote_present db quote_id H) as (row & E & Hid).
  rewrite (get_quote_by_id_fits _ _ _ Hfits). run_conn. rewrite E.
  eexists. split; [reflexivity|]. split; [exact Hid|].
  apply from_row_tags.
Qed.

(** What add_quote returns in the order of the call, get_quote_by_id
    returns in lexicographic order. *)
Lemma add_quote_read_back (clock clock' : Clock) (text author : string)
    (source : option string) (year : option Z)
    (supplied : option (list string)) (db db' : Database)
    (quote : Models.Quote) :
  wf_db db ->
  add_quote clock text author source year supplied db = (Ok quote, db') ->
  fits_int64 (Models.id quote) = true ->
  exists stored,
    get_quote_by_id clock' (Models.id quote) db' = (Ok (Some stored), db')
    /\ Models.tags stored = sort_names (Models.tags quote).
Proof.
  intros Hwf H Hfits.
  destruct (add_quote_Ok_inv _ _ _ _ _ _ _ _ _ H) as (Ht & Ha & Hy).
  pose proof (add_quote_run clock text author source year supplied db
                Ht Ha Hy)
    as Hrun. cbv zeta in Hrun.
  destruct (link_all _ _ _) as [w'|e] eqn:E; rewrite Hrun in H;
    [|discriminate].
  apply link_all_Ok_NoDup in E.
  destruct (add_quote_ok clock text author source year supplied db
              Hwf Ht Ha Hy E) as (db1 & E1 & Hwf1 & Eq & _ & Hc).
  rewrite Hrun in E1. injection E1 as <-. injection H as <- <-.
  set (row := new_quote_row clock text author source year db) in *.
  change (Models.id (Models.from_row clock row (supplied_names supplied)))
    with (row_id row) in *.
  destruct (get_quote_by_id_present clock' w' (row_id row) Hfits)
    as (stored & Eg & _ & Etags).
  { unfold quote_ids. rewrite Eq, map_app. apply in_or_app.
    right. left. reflexivity. }
  exists stored. split; [exact Eg|].
  rewrite Etags, from_row_tags.
  apply select_tag_names_of_carried; auto.
  intros n. rewrite Hc. split.
  - intros [Hcar | [_ Hn]]; [|exact Hn].
    exfalso. revert Hcar. now apply fresh_quote_carries_nothing.
  - intros Hn. right. auto.
Qed.

(** After an update_quote with pairwise distinct names get_quote_by_id
    shows them, sorted, as the tags of the quote; after [tags=[]] it shows
    no tag. *)
Lemma update_quote_read_back (clock : Clock) (db : Database) (quote_id : Z)
    (kwargs : Kwargs) (supplied : option (list string)) :
  wf_db db ->
  kw_blank (kw_text kwargs) = false ->
  kw_blank (kw_author kwargs) = false ->
  fits_int64 quote_id = true ->
  kw_year_fits kwargs = true ->
  In quote_id (quote_ids db) ->
  kw_tags kwargs = Some supplied ->
  NoDup (supplied_names supplied) ->
  exists db' stored,
    update_quote quote_id kwargs db = (Ok true, db')
    /\ get_quote_by_id clock quote_id db' = (Ok (Some stored), db')
    /\ Models.tags stored = sort_names (supplied_names supplied).
Proof.
  intros Hwf Ht Ha Hfits Hy Hq Hs Hnd.
  destruct (update_quote_replaces_distinct_tags db quote_id kwargs
              Hwf Ht Ha Hfits Hy Hq) as [Hsome _].
  destruct (Hsome supplied Hs Hnd) as (db' & E & _ & Eids & _ & _ & Esel).
  destruct (get_quote_by_id_present clock db' quote_id Hfits)
    as (stored & Eg & _ & Etags).
  { now rewrite Eids. }
  exists db', stored. split; [exact E|]. split; [exact Eg|].
  now rewrite Etags.
Qed.

(** ** Examples *)

(** The scenario of the test-suite: two quotes by Douglas Adams, listed
    most recent first. *)
Example get_all_quotes_most_recent_first :
  exists l, get_all_quotes noon two_quotes = (Ok l, two_quotes)
            /\ map Models.id l = [2; 1]
            /\ map Models.tags l = [["humor"]; ["philosophy"]].
Proof. eexists. split; [vm_compute; reflexivity|]. split; reflexivity. Qed.

Example search_quotes_by_author_ignores_case :
  exists l,
    search_quotes noon None (Some "douglas ADAMS") None two_quotes
    = (Ok l, two_quotes)
    /\ map Models.id l = [2; 1].
Proof. eexists. split; [vm_compute; reflexivity | reflexivity]. Qed.

Example search_quotes_one_tag :
  exists l,
    search_quotes noon None None (Some ["humor"]) two_quotes
    = (Ok l, two_quotes)
    /\ map Models.id l = [2].
Proof. eexists. split; [vm_compute; reflexivity | reflexivity]. Qed.

Example search_quotes_two_tags_excludes_partial_match :
  search_quotes noon None None (Some ["humor"; "philosophy"]) two_quotes
  = (Ok [], two_quotes).
Proof. vm_compute. reflexivity. Qed.

Example update_quote_empty_tags_clears :
  exists db' stored,
    update_quote 1 (mkKwargs None None None None (Some (Some []))) two_quotes
    = (Ok true, db')
    /\ get_quote_by_id noon 1 db' = (Ok (Some stored), db')
    /\ Models.tags stored = [].
Proof.
  eexists. eexists. split; [vm_compute; reflexivity|].
  split; [vm_compute; reflexivity | reflexivity].
Qed.

Example add_quote_drops_blank_tags :
  exists quote db',
    add_quote noon "Quote" "Author" None None (Some ["a"; ""; "  "; "b"])
              init_database = (Ok quote, db')
    /\ Models.tags quote = ["a"; "b"]
    /\ tag_names db' = ["a"; "b"].
Proof.
  eexists. eexists. split; [vm_compute; reflexivity|].
  split; reflexivity.
Qed.


(** * Further properties of the store and of the code around it *)

(** ** Sorting in general *)

Section Sorted.
Context {A : Type}.
Variable before : A -> A -> bool.
Hypothesis before_total : forall x y, before x y = true \/ before y x = true.
Hypothesis before_trans :
  forall x y z, before x y = true -> before y z = true -> before x z = true.

Let le (x y : A) : Prop := before x y = true.

Lemma insert_row_StronglySorted (x : A) (l : list A) :
  StronglySorted le l -> StronglySorted le (insert_row before x l).
Proof.
  induction 1 as [|y l Hs IH Hy]; simpl.
  - repeat constructor.
  - destruct (before x y) eqn:E.
    + constructor; [now constructor|].
      constructor; [exact E|].
      eapply Forall_impl; [|exact Hy]. intros z Hz.
      eapply before_trans; eassumption.
    + constructor; [exact IH|].
      assert (Hyx : le y x).
      { destruct (before_total x y) as [H|H]; [congruence | exact H]. }
      eapply Permutation_Forall.
      * apply Permutation_sym, insert_row_perm.
      * now constructor.
Qed.

Lemma order_by_StronglySorted (l : list A) :
  StronglySorted le (order_by before l).
Proof.
  induction l as [|x l IH]; simpl; [constructor|].
  now apply insert_row_StronglySorted.
Qed.

(** The first row of an ordered result comes before every row. *)
Lemma order_by_head (l : list A) (x : A) (rest : list A) :
  order_by before l = x :: rest -> forall y, In y l -> le x y.
Proof.
  intros E y Hy.
  pose proof (order_by_StronglySorted l) as Hs. rewrite E in Hs.
  apply (order_by_In before) in Hy. rewrite E in Hy.
  inversion Hs as [|? ? _ Hall]; subst.
  destruct Hy as [<- | Hy].
  - destruct (before_total x x); assumption.
  - rewrite Forall_forall in Hall. now apply Hall.
Qed.
End Sorted.

Lemma newest_first_total (a b : QuoteRow) :
  Sql.newest_first a b = true \/ Sql.newest_first b a = true.
Proof.
  unfold Sql.newest_first.
  destruct (String.leb_total (row_created_at a) (row_created_at b)); auto.
Qed.

Lemma newest_first_trans (a b c : QuoteRow) :
  Sql.newest_first a b = true -> Sql.newest_first b c = true ->
  Sql.newest_first a c = true.
Proof.
  unfold Sql.newest_first. intros H1 H2. eapply leb_trans; eassumption.
Qed.

Lemma newest_first_sorted (rows : list QuoteRow) :
  StronglySorted newest_first_le (order_by Sql.newest_first rows).
Proof.
  apply order_by_StronglySorted;
    [apply newest_first_total | apply newest_first_trans].
Qed.

(** ** Listings, exactly *)

Lemma quotes_of_rows_exact (clock : Clock) (rows : list QuoteRow) (c : Conn) :
  quotes_of_rows clock rows c
  = (Ok (map (quote_of_row clock (txn c)) rows), c).
Proof.
  induction rows as [|r rows IH]; simpl; [reflexivity|].
  unfold bind, _get_tags_for_quote, fetch, ret. now rewrite IH.
Qed.

Lemma listing_exact (clock : Clock) (select : Database -> list QuoteRow)
    (db : Database) :
  with_connection (rows <- fetch select;; quotes_of_rows clock rows) db
  = (Ok (map (quote_of_row clock db) (select db)), db).
Proof.
  unfold with_connection, bind, fetch. cbn [txn].
  now rewrite quotes_of_rows_exact.
Qed.

Lemma quote_of_row_id (clock : Clock) (db : Database) (rows : list QuoteRow) :
  map Models.id (map (quote_of_row clock db) rows) = map row_id rows.
Proof. rewrite map_map. reflexivity. Qed.

Lemma max_rowid_nonneg (ids : list Z) : 0 <= Sql.max_rowid ids.
Proof. induction ids as [|x ids IH]; simpl; lia. Qed.

Lemma next_rowid_positive (seq : Z) (ids : list Z) :
  0 < Sql.next_rowid seq ids.
Proof.
  unfold Sql.next_rowid. pose proof (max_rowid_nonneg ids). lia.
Qed.

(** ** add_quote: rejection, and the round trip with get_quote_by_id *)

(** X1: add_quote with a text or an author that is empty or only white
    space raises InvalidInputError, the text being checked first, and the
    database is left as it was: no quote row, tag row or association is
    created, whatever tags were supplied. *)
Theorem add_quote_blank_input_stores_nothing :
  forall (clock : Clock) (text author : string) (source : option string)
         (year : option Z) (supplied : option (list string)) (db : Database),
    whitespace_only text \/ whitespace_only author ->
    exists msg,
      add_quote clock text author source year supplied db
      = (Raise (InvalidInputError msg), db)
      /\ (whitespace_only text -> msg = "Quote text cannot be empty").
Proof.
  intros clock text author source year supplied db H.
  unfold add_quote.
  destruct (PyStr.blank text) eqn:Ht.
  - eexists. split; [reflexivity | auto].
  - destruct H as [H | H]; apply blank_spec in H; [congruence|].
    rewrite H. eexists. split; [reflexivity|].
    intros Hw. apply blank_spec in Hw. congruence.
Qed.

Lemma add_quote_blank_input_stores_nothing_witness :
  exists msg,
    add_quote noon (" " ++ nbsp)%string "Douglas Adams" None None
              (Some ["humor"]) two_quotes
    = (Raise (InvalidInputError msg), two_quotes)
    /\ (whitespace_only (" " ++ nbsp)%string ->
        msg = "Quote text cannot be empty").
Proof.
  apply add_quote_blank_input_stores_nothing. left.
  exists [list_ascii_of_string " "; list_ascii_of_string nbsp].
  split; reflexivity.
Defined.

(** X2: when text and author are not blank, the year is None or fits in
    64 bits and the surviving tag names are pairwise distinct, add_quote
    succeeds on every database that satisfies the schema's keys and whose
    next quote id still fits in 64 bits.  The id it returns is positive
    and was not in use, and get_quote_by_id on that id returns the quote
    as stored: text and author trimmed, source and year as given, the tags
    in lexicographic order. *)
Theorem add_quote_then_get_quote_by_id :
  forall (clock clock' : Clock) (text author : string)
         (source : option string) (year : option Z)
         (supplied : option (list string)) (db : Database),
    wf_db db ->
    PyStr.blank text = false -> PyStr.blank author = false ->
    year_fits year = true ->
    NoDup (supplied_names supplied) ->
    has_room db ->
    exists quote db' stored,
      add_quote clock text author source year supplied db = (Ok quote, db')
      /\ 0 < Models.id quote
      /\ ~ In (Models.id quote) (quote_ids db)
      /\ get_quote_by_id clock' (Models.id quote) db'
         = (Ok (Some stored), db')
      /\ Models.id stored = Models.id quote
      /\ Models.text stored = PyStr.strip text
      /\ Models.author stored = PyStr.strip author
      /\ Models.source stored = source
      /\ Models.year stored = year
      /\ Models.tags stored = sort_names (supplied_names supplied).
Proof.
  intros clock clock' text author source year supplied db Hwf Ht Ha Hy Hnd
         Hroom.
  destruct (add_quote_ok clock text author source year supplied db
              Hwf Ht Ha Hy Hnd) as (db' & E & Hwf' & Eq & _ & Hc).
  set (row := new_quote_row clock text author source year db) in *.
  assert (Hsel : Sql.select_quote (row_id row) db' = Some row).
  { unfold Sql.select_quote. rewrite Eq. apply select_new_quote.
    apply next_rowid_fresh. }
  assert (Htags : Sql.select_tag_names (row_id row) db'
                  = sort_names (supplied_names supplied)).
  { apply select_tag_names_of_carried; auto.
    intros n. rewrite Hc. split.
    - intros [Hcar | [_ Hn]]; [|exact Hn].
      exfalso. revert Hcar. now apply fresh_quote_carries_nothing.
    - intros Hn. right. auto. }
  exists (Models.from_row clock row (supplied_names supplied)), db',
         (Models.from_row clock' row (sort_names (supplied_names supplied))).
  split; [exact E|].
  split; [apply next_rowid_positive|].
  split; [apply next_rowid_fresh|].
  split.
  - change (Models.id (Models.from_row clock row (supplied_names supplied)))
      with (Sql.next_rowid (seq_quotes db) (quote_ids db)).
    rewrite (get_quote_by_id_fits _ _ _ Hroom). run_conn.
    change (Sql.next_rowid (seq_quotes db) (quote_ids db)) with (row_id row).
    rewrite Hsel. unfold _get_tags_for_quote, fetch. simpl.
    change (Sql.next_rowid (seq_quotes db) (quote_ids db)) with (row_id row).
    now rewrite Htags.
  - repeat split; try reflexivity. apply from_row_tags.
Qed.

Lemma add_quote_then_get_quote_by_id_witness :
  exists quote db' stored,
    add_quote noon " So long " " Douglas Adams " (Some "Book") (Some 1984)
              (Some ["thanks"; " fish "]) two_quotes = (Ok quote, db')
    /\ 0 < Models.id quote
    /\ ~ In (Models.id quote) (quote_ids two_quotes)
    /\ get_quote_by_id one_past_noon (Models.id quote) db'
       = (Ok (Some stored), db')
    /\ Models.id stored = Models.id quote
    /\ Models.text stored = PyStr.strip " So long "
    /\ Models.author stored = PyStr.strip " Douglas Adams "
    /\ Models.source stored = Some "Book"
    /\ Models.year stored = Some 1984
    /\ Models.tags stored
       = sort_names (supplied_names (Some ["thanks"; " fish "])).
Proof.
  apply add_quote_then_get_quote_by_id.
  - apply wf_db_b_sound. vm_compute. reflexivity.
  - reflexivity.
  - reflexivity.
  - reflexivity.
  - apply (distinct_b_NoDup String.eqb); [apply String.eqb_eq|].
    vm_compute. reflexivity.
  - reflexivity.
Defined.

(** ** What no operation undoes *)

Lemma grows_refl (db : Database) : grows db db.
Proof. split; [lia|]. exists []. now rewrite app_nil_r. Qed.

Lemma grows_trans (a b c : Database) : grows a b -> grows b c -> grows a c.
Proof.
  intros [H1 (e1 & E1)] [H2 (e2 & E2)]. split; [lia|].
  exists (e1 ++ e2). now rewrite E2, E1, app_assoc.
Qed.

Lemma grows_same (db db' : Database) :
  seq_quotes db' = seq_quotes db -> tags db' = tags db -> grows db db'.
Proof.
  intros Es Et. split; [lia|]. exists []. now rewrite app_nil_r.
Qed.

Lemma get_or_create_grows (name : string) (w : Database) :
  grows w (snd (get_or_create name w)).
Proof.
  split.
  - rewrite get_or_create_seq_quotes. lia.
  - destruct (get_or_create_tags name w) as [[_ E] | (_ & _ & E)].
    + exists []. now rewrite app_nil_r.
    + eexists. exact E.
Qed.

Lemma link_grows (quote_id : Z) (name : string) (w w2 : Database) :
  link quote_id name w = Ok w2 -> grows w w2.
Proof.
  intros E. apply link_Ok_inv in E. simpl in E. subst w2.
  eapply grows_trans; [apply (get_or_create_grows name w)|].
  now apply grows_same.
Qed.

Lemma link_all_grows (quote_id : Z) (names : list string) :
  forall w w', link_all quote_id names w = Ok w' -> grows w w'.
Proof.
  induction names as [|name rest IH]; intros w w'; simpl.
  - intros H. injection H as <-. apply grows_refl.
  - destruct (link quote_id name w) as [w2|e] eqn:E; [|discriminate].
    intros H. eapply grows_trans; [eapply link_grows, E | now apply IH].
Qed.

Lemma add_quote_Ok_id (clock : Clock) (text author : string)
    (source : option string) (year : option Z)
    (supplied : option (list string)) (db db' : Database)
    (quote : Models.Quote) :
  add_quote clock text author source year supplied db = (Ok quote, db') ->
  seq_quotes db < Models.id quote
  /\ seq_quotes db' = Models.id quote
  /\ grows db db'.
Proof.
  intros H.
  destruct (add_quote_Ok_inv _ _ _ _ _ _ _ _ _ H) as (Ht & Ha & Hy).
  pose proof (add_quote_run clock text author source year supplied db
                Ht Ha Hy)
    as Hrun. cbv zeta in Hrun.
  destruct (link_all _ _ _) as [w'|e] eqn:E; rewrite Hrun in H;
    [|discriminate].
  injection H as <- <-.
  pose proof (link_all_frame _ _ _ _ E) as [_ Es].
  pose proof (link_all_grows _ _ _ _ E) as Hg.
  assert (Hlt : seq_quotes db
                < row_id (new_quote_row clock text author source year db)).
  { simpl. unfold Sql.next_rowid. lia. }
  split; [exact Hlt|]. split; [exact Es|].
  eapply grows_trans; [|exact Hg].
  split; [simpl in *; lia|]. exists []. simpl. now rewrite app_nil_r.
Qed.

Lemma add_quote_grows (clock : Clock) (text author : string)
    (source : option string) (year : option Z)
    (supplied : option (list string)) (db : Database) :
  grows db (snd (add_quote clock text author source year supplied db)).
Proof.
  destruct (add_quote clock text author source year supplied db)
    as [[q|e] db'] eqn:E.
  - now apply add_quote_Ok_id in E as (_ & _ & Hg).
  - assert (Hdb : db' = db); [|subst; apply grows_refl].
    destruct (PyStr.blank text) eqn:Ht.
    { unfold add_quote in E. rewrite Ht in E. now injection E. }
    destruct (PyStr.blank author) eqn:Ha.
    { unfold add_quote in E. rewrite Ht, Ha in E. now injection E. }
    destruct (year_fits year) eqn:Hy.
    2: { rewrite (add_quote_overflow _ _ _ _ _ _ _ Ht Ha Hy) in E.
         now injection E. }
    pose proof (add_quote_run clock text author source year supplied db
                  Ht Ha Hy) as Hrun. cbv zeta in Hrun.
    destruct (link_all _ _ _); rewrite Hrun in E;
      [discriminate | now injection E].
Qed.

Lemma apply_fields_frame (kwargs : Kwargs) (quote_id : Z) (db w : Database) :
  apply_fields kwargs quote_id db = Ok w ->
  seq_quotes w = seq_quotes db /\ tags w = tags db
  /\ quote_tags w = quote_tags db.
Proof.
  unfold apply_fields, Sql.update_quotes.
  destruct (update_fields kwargs) as [|a fields].
  - intros H. injection H as <-. auto.
  - destruct (Sql.update_rows (a :: fields) quote_id (quotes db));
      [|discriminate].
    intros H. injection H as <-. auto.
Qed.

Lemma update_quote_grows (quote_id : Z) (kwargs : Kwargs) (db : Database) :
  grows db (snd (update_quote quote_id kwargs db)).
Proof.
  destruct (kw_blank (kw_text kwargs)) eqn:Ht.
  { unfold update_quote. rewrite Ht. apply grows_refl. }
  destruct (kw_blank (kw_author kwargs)) eqn:Ha.
  { unfold update_quote. rewrite Ht, Ha. apply grows_refl. }
  destruct (fits_int64 quote_id) eqn:Hfits.
  2: { rewrite (update_quote_overflow_id _ _ _ Hfits Ht Ha).
       apply grows_refl. }
  destruct (in_dec Z.eq_dec quote_id (quote_ids db)) as [Hq | Hq].
  - destruct (kw_year_fits kwargs) eqn:Hy.
    2: { rewrite (update_quote_overflow_year _ _ _ Ht Ha Hfits Hq Hy).
         apply grows_refl. }
    rewrite (update_quote_run _ _ _ Ht Ha Hfits Hy Hq).
    destruct (apply_fields kwargs quote_id db) as [w|e] eqn:E;
      [|apply grows_refl].
    apply apply_fields_frame in E as (Es & Et & _).
    unfold replace_tags. destruct (kw_tags kwargs) as [v|].
    + destruct (link_all _ _ _) as [w'|e] eqn:El; [|apply grows_refl].
      simpl. apply link_all_grows in El.
      eapply grows_trans; [|exact El]. now apply grows_same.
    + simpl. now apply grows_same.
  - rewrite (update_quote_absent_id_aux db quote_id kwargs Hfits Hq Ht Ha).
    apply grows_refl.
Qed.

Lemma delete_quote_grows (quote_id : Z) (db : Database) :
  grows db (snd (delete_quote quote_id db)).
Proof.
  destruct (fits_int64 quote_id) eqn:Hfits.
  - rewrite (delete_quote_fits _ _ Hfits). run_conn. now apply grows_same.
  - rewrite (delete_quote_overflow _ _ Hfits). apply grows_refl.
Qed.

(** add_tag_to_quote as one step on the database. *)
Lemma add_tag_to_quote_run (quote_id : Z) (tag : string) (db : Database) :
  PyStr.blank tag = false -> fits_int64 quote_id = true ->
  In quote_id (quote_ids db) ->
  add_tag_to_quote quote_id tag db
  = let '(i, w1) := get_or_create (PyStr.strip tag) db in
    match Sql.select_quote_tag quote_id i w1 with
    | Some _ => (Ok true, w1)
    | None =>
        match Sql.insert_quote_tag quote_id i w1 with
        | Ok (_, w2) => (Ok true, w2)
        | Raise e => (Raise e, db)
        end
    end.
Proof.
  intros Hb Hfits Hq. rewrite (add_tag_to_quote_fits _ _ _ Hb Hfits).
  unfold with_connection. unfold bind at 1, fetch at 1. simpl.
  rewrite (select_quote_id_present _ _ Hq).
  unfold bind at 1. rewrite get_or_create_run. simpl.
  destruct (get_or_create (PyStr.strip tag) db) as [i w1]. simpl.
  unfold bind at 1, fetch at 1. simpl.
  destruct (Sql.select_quote_tag quote_id i w1); [reflexivity|].
  unfold bind at 1, execute at 1. simpl.
  destruct (Sql.insert_quote_tag quote_id i w1) as [[u w2]|e]; reflexivity.
Qed.

Lemma add_tag_to_quote_grows (quote_id : Z) (tag : string) (db : Database) :
  grows db (snd (add_tag_to_quote quote_id tag db)).
Proof.
  destruct (PyStr.blank tag) eqn:Hb.
  { unfold add_tag_to_quote. rewrite Hb. apply grows_refl. }
  destruct (fits_int64 quote_id) eqn:Hfits.
  2: { rewrite (add_tag_to_quote_overflow _ _ _ Hb Hfits).
       apply grows_refl. }
  destruct (in_dec Z.eq_dec quote_id (quote_ids db)) as [Hq | Hq].
  - rewrite (add_tag_to_quote_run _ _ _ Hb Hfits Hq).
    pose proof (get_or_create_grows (PyStr.strip tag) db) as Hg.
    destruct (get_or_create (PyStr.strip tag) db) as [i w1]. simpl in Hg.
    destruct (Sql.select_quote_tag quote_id i w1); [exact Hg|].
    destruct (Sql.insert_quote_tag quote_id i w1) as [[u w2]|e] eqn:E;
      [|apply grows_refl].
    apply insert_quote_tag_Ok_inv in E. subst w2. simpl.
    eapply grows_trans; [exact Hg | now apply grows_same].
  - rewrite (add_tag_to_quote_fits _ _ _ Hb Hfits). run_conn.
    rewrite (select_quote_id_absent _ _ Hq). apply grows_refl.
Qed.

Lemma seed_loop_grows (clock : nat -> Clock) (entries : list SeedQuote) :
  forall (k : nat) (added_count : Z) (db : Database),
    grows db (snd (seed_loop clock k entries added_count db)).
Proof.
  induction entries as [|e rest IH]; intros k added_count db; simpl.
  - apply grows_refl.
  - pose proof (add_quote_grows (clock k) (seed_text e) (seed_author e)
                  (seed_source e) (seed_year e) (seed_tags e) db) as H.
    destruct (add_quote (clock k) (seed_text e) (seed_author e)
                (seed_source e) (seed_year e) (seed_tags e) db)
      as [[q|ex] db1]; simpl in H;
      (eapply grows_trans; [exact H | apply IH]).
Qed.

Lemma seed_database_grows (clock : nat -> Clock) (force : bool)
    (db : Database) :
  grows db (snd (seed_database clock force db)).
Proof.
  unfold seed_database.
  destruct (negb force && check_if_seeded db).
  - destruct (get_all_quotes_run (clock O) db) as (l & E & _).
    rewrite E. apply grows_refl.
  - pose proof (seed_loop_grows clock SEED_QUOTES O 0 db) as H.
    destruct (seed_loop clock O SEED_QUOTES 0 db) as [added db1].
    destruct (get_all_quotes_run (clock (List.length SEED_QUOTES)) db1)
      as (l & E & _).
    now rewrite E.
Qed.

Lemma evolves_grows (db db' : Database) : evolves db db' -> grows db db'.
Proof.
  induction 1.
  - apply grows_refl.
  - eapply grows_trans; [eassumption | apply add_quote_grows].
  - eapply grows_trans; [eassumption | apply update_quote_grows].
  - eapply grows_trans; [eassumption | apply delete_quote_grows].
  - eapply grows_trans; [eassumption | apply add_tag_to_quote_grows].
  - eapply grows_trans; [eassumption | apply seed_database_grows].
Qed.

(** X3: quote ids are never reused.  Whatever calls of add_quote,
    update_quote, delete_quote, add_tag_to_quote and seed_database come
    between two successful calls of add_quote -- deletions of the newest
    quote included -- the second call returns a strictly larger id. *)
Theorem quote_ids_never_reused :
  forall (clock1 clock2 : Clock) (text1 author1 text2 author2 : string)
         (source1 source2 : option string) (year1 year2 : option Z)
         (supplied1 supplied2 : option (list string))
         (db db1 db2 db3 : Database) (quote1 quote2 : Models.Quote),
    add_quote clock1 text1 author1 source1 year1 supplied1 db
    = (Ok quote1, db1) ->
    evolves db1 db2 ->
    add_quote clock2 text2 author2 source2 year2 supplied2 db2
    = (Ok quote2, db3) ->
    Models.id quote1 < Models.id quote2.
Proof.
  intros until quote2. intros H1 Hev H2.
  apply add_quote_Ok_id in H1 as (_ & E1 & _).
  apply add_quote_Ok_id in H2 as (Hlt & _ & _).
  apply evolves_grows in Hev as [Hle _]. lia.
Qed.

Lemma quote_ids_never_reused_witness :
  exists quote1 db1 db2 quote2 db3,
    add_quote noon "Share and Enjoy" "Sirius Cybernetics" None None None
              two_quotes = (Ok quote1, db1)
    /\ delete_quote (Models.id quote1) db1 = (Ok true, db2)
    /\ add_quote noon "Resistance is useless" "Vogon Guard" None None None
                 db2 = (Ok quote2, db3)
    /\ Models.id quote1 < Models.id quote2.
Proof.
  do 5 eexists.
  split; [vm_compute; reflexivity|].
  split; [vm_compute; reflexivity|].
  split; [vm_compute; reflexivity|].
  eapply (quote_ids_never_reused noon noon "Share and Enjoy"
            "Sirius Cybernetics" "Resistance is useless" "Vogon Guard"
            None None None None None None two_quotes _
            (snd (delete_quote 3 (snd (add_quote noon "Share and Enjoy"
                                         "Sirius Cybernetics" None None None
                                         two_quotes))))).
  - vm_compute. reflexivity.
  - apply evolves_delete_quote. apply evolves_refl.
  - vm_compute. reflexivity.
Defined.

(** X4: no operation deletes or renames a tag.  After any sequence of
    calls of the writing operations the tag table is the old one with new
    rows appended, so a tag whose quotes are all gone is still there. *)
Theorem tag_rows_are_never_removed :
  forall (db db' : Database),
    evolves db db' ->
    exists extra, tags db' = tags db ++ extra.
Proof.
  intros db db' Hev. now apply evolves_grows in Hev as [_ H].
Qed.

Lemma tag_rows_are_never_removed_witness :
  exists extra,
    tags (snd (delete_quote 2 (snd (update_quote 1
            (mkKwargs None None None None (Some (Some ["towel"])))
            two_quotes))))
    = tags two_quotes ++ extra.
Proof.
  apply tag_rows_are_never_removed.
  apply evolves_delete_quote, evolves_update_quote, evolves_refl.
Defined.

(** ** Reading by id *)

Lemma get_quote_by_id_absent (clock : Clock) (db : Database) (quote_id : Z) :
  fits_int64 quote_id = true ->
  ~ In quote_id (quote_ids db) ->
  get_quote_by_id clock quote_id db = (Ok None, db).
Proof.
  intros Hfits H. rewrite (get_quote_by_id_fits _ _ _ Hfits). run_conn.
  unfold Sql.select_quote.
  destruct (find _ (quotes db)) as [r|] eqn:E; [|reflexivity].
  exfalso. apply find_some in E as [Hin Heq]. apply Z.eqb_eq in Heq.
  apply H. unfold quote_ids. rewrite <- Heq. now apply in_map.
Qed.

(** X5: get_quote_by_id never changes the database.  For an id that is
    not in the store it returns None, not an error, when the id fits in
    64 bits, and raises OverflowError when it does not.  For an id in the
    store it returns the quote of that id, whose tags are the names the
    quote carries, each once, in lexicographic order. *)
Theorem get_quote_by_id_found_or_none :
  forall (clock : Clock) (db : Database) (quote_id : Z),
    wf_db db ->
    (~ In quote_id (quote_ids db) ->
     get_quote_by_id clock quote_id db
     = (if fits_int64 quote_id then Ok None else Raise OverflowError, db))
    /\ (In quote_id (quote_ids db) -> fits_int64 quote_id = true ->
        exists quote,
          get_quote_by_id clock quote_id db = (Ok (Some quote), db)
          /\ Models.id quote = quote_id
          /\ (forall n, In n (Models.tags quote) <-> carries db quote_id n)
          /\ NoDup (Models.tags quote)
          /\ StronglySorted name_le (Models.tags quote)).
Proof.
  intros clock db quote_id Hwf. split.
  { intros Habs. destruct (fits_int64 quote_id) eqn:Hfits.
    - now apply get_quote_by_id_absent.
    - now apply get_quote_by_id_overflow. }
  intros Hq Hfits.
  destruct (get_quote_by_id_present clock db quote_id Hfits Hq)
    as (quote & E & Hid & Htags).
  exists quote. split; [exact E|]. split; [exact Hid|].
  rewrite Htags, select_tag_names_joined. repeat split.
  - intros H. apply joined_names_In.
    eapply Permutation_in; [apply order_by_perm | exact H].
  - intros H. apply joined_names_In in H.
    eapply Permutation_in; [apply Permutation_sym, order_by_perm | exact H].
  - eapply Permutation_NoDup; [apply Permutation_sym, order_by_perm|].
    now apply joined_names_NoDup.
  - apply sort_names_sorted.
Qed.

Lemma get_quote_by_id_found_or_none_witness :
  get_quote_by_id noon 7 two_quotes = (Ok None, two_quotes)
  /\ get_quote_by_id noon beyond_int64 two_quotes
     = (Raise OverflowError, two_quotes)
  /\ exists quote,
       get_quote_by_id noon 2 two_quotes = (Ok (Some quote), two_quotes)
       /\ Models.id quote = 2
       /\ (forall n, In n (Models.tags quote) <-> carries two_quotes 2 n)
       /\ NoDup (Models.tags quote)
       /\ StronglySorted name_le (Models.tags quote).
Proof.
  assert (Hwf : wf_db two_quotes)
    by (apply wf_db_b_sound; vm_compute; reflexivity).
  destruct (get_quote_by_id_found_or_none noon two_quotes 7 Hwf) as [H7 _].
  destruct (get_quote_by_id_found_or_none noon two_quotes beyond_int64 Hwf)
    as [Hbeyond _].
  destruct (get_quote_by_id_found_or_none noon two_quotes 2 Hwf) as [_ H2].
  split; [|split].
  - apply H7. vm_compute. intros [H | [H | []]]; discriminate H.
  - apply Hbeyond. vm_compute. intros [H | [H | []]]; discriminate H.
  - apply H2; [vm_compute; right; left; reflexivity | reflexivity].
Defined.

(** X6: a deleted quote is gone for good.  For a quote id in the store
    (which fits in 64 bits, as every id the database has handed out
    does), delete_quote returns true, and afterwards get_quote_by_id on
    that id returns None, a second delete_quote returns false and changes
    nothing, and update_quote (with text and author that are absent or not
    blank) and add_tag_to_quote (with a tag that is not blank) on that id
    return false. *)
Theorem deleted_quote_is_not_found :
  forall (clock : Clock) (db : Database) (quote_id : Z),
    fits_int64 quote_id = true ->
    In quote_id (quote_ids db) ->
    exists db',
      delete_quote quote_id db = (Ok true, db')
      /\ get_quote_by_id clock quote_id db' = (Ok None, db')
      /\ delete_quote quote_id db' = (Ok false, db')
      /\ (forall kwargs,
             kw_blank (kw_text kwargs) = false ->
             kw_blank (kw_author kwargs) = false ->
             update_quote quote_id kwargs db' = (Ok false, db'))
      /\ (forall tag,
             PyStr.blank tag = false ->
             add_tag_to_quote quote_id tag db' = (Ok false, db')).
Proof.
  intros clock db quote_id Hfits Hq. eexists.
  split; [now apply delete_quote_present|].
  set (db' := mkDatabase _ _ _ _ _).
  assert (Habs : ~ In quote_id (quote_ids db')).
  { unfold quote_ids, db'. simpl. intros H.
    apply in_map_iff in H as (r & Hr & H).
    apply filter_In in H as [_ H].
    apply negb_true_iff, Z.eqb_neq in H. contradiction. }
  split; [now apply get_quote_by_id_absent|].
  split; [now apply delete_quote_absent|].
  split.
  - intros kwargs Ht Ha. now apply update_quote_absent_id_aux.
  - intros tag Hb. rewrite (add_tag_to_quote_fits _ _ _ Hb Hfits). run_conn.
    now rewrite (select_quote_id_absent _ _ Habs).
Qed.

Lemma deleted_quote_is_not_found_witness :
  exists db',
    delete_quote 1 two_quotes = (Ok true, db')
    /\ get_quote_by_id noon 1 db' = (Ok None, db')
    /\ delete_quote 1 db' = (Ok false, db')
    /\ (forall kwargs,
           kw_blank (kw_text kwargs) = false ->
           kw_blank (kw_author kwargs) = false ->
           update_quote 1 kwargs db' = (Ok false, db'))
    /\ (forall tag,
           PyStr.blank tag = false ->
           add_tag_to_quote 1 tag db' = (Ok false, db')).
Proof.
  apply deleted_quote_is_not_found; [reflexivity|].
  vm_compute. left. reflexivity.
Defined.

(** ** get_all_quotes *)

(** X7: get_all_quotes never fails and never changes the database; it
    returns every stored quote exactly once, ordered by created_at with
    the most recent first, each with the tags get_quote_by_id shows (an
    empty store gives the empty list). *)
Theorem get_all_quotes_lists_each_quote_once :
  forall (clock : Clock) (db : Database),
    exists rows,
      get_all_quotes clock db = (Ok (map (quote_of_row clock db) rows), db)
      /\ Permutation rows (quotes db)
      /\ StronglySorted newest_first_le rows.
Proof.
  intros clock db. exists (Sql.select_all_quotes db). split; [|split].
  - unfold get_all_quotes. apply listing_exact.
  - apply order_by_perm.
  - apply newest_first_sorted.
Qed.

(** ** update_quote: what changes and what stays *)

Lemma kw_blank_false_value (v : option string) :
  kw_blank (Some v) = false ->
  exists s, v = Some s /\ strip_if_truthy v = Some (PyStr.strip s).
Proof.
  destruct v as [s|]; simpl; [|discriminate]. intros Hb.
  exists s. split; [reflexivity|].
  apply blank_false_truthy, andb_true_iff in Hb as [Ht _]. now rewrite Ht.
Qed.

Lemma assign_patched (kwargs : Kwargs) (r : QuoteRow) :
  kw_blank (kw_text kwargs) = false ->
  kw_blank (kw_author kwargs) = false ->
  fold_left Sql.assign (update_fields kwargs) (Ok r) = Ok (patched kwargs r).
Proof.
  intros Ht Ha. unfold update_fields, patched.
  destruct kwargs as [kt ka ks ky ktags]. simpl in *.
  destruct kt as [vt|]; [apply kw_blank_false_value in Ht as (st & -> & Et);
                         rewrite Et|];
    (destruct ka as [va|];
     [apply kw_blank_false_value in Ha as (sa & -> & Ea); rewrite Ea|]);
    destruct ks as [vs|], ky as [vy|]; destruct r; reflexivity.
Qed.

Lemma update_rows_patched (kwargs : Kwargs) (quote_id : Z)
    (rows : list QuoteRow) :
  kw_blank (kw_text kwargs) = false ->
  kw_blank (kw_author kwargs) = false ->
  Sql.update_rows (update_fields kwargs) quote_id rows
  = Ok (map (fun r => if Z.eqb (row_id r) quote_id
                      then patched kwargs r else r) rows).
Proof.
  intros Ht Ha. induction rows as [|r rows IH]; simpl; [reflexivity|].
  rewrite IH. destruct (Z.eqb (row_id r) quote_id); [|reflexivity].
  now rewrite (assign_patched kwargs r Ht Ha).
Qed.

Lemma patched_nothing (kwargs : Kwargs) (r : QuoteRow) :
  update_fields kwargs = [] -> patched kwargs r = r.
Proof.
  unfold update_fields, patched.
  destruct kwargs as [kt ka ks ky ktags]. simpl.
  destruct kt, ka, ks, ky; simpl; try discriminate.
  intros _. now destruct r.
Qed.

Lemma apply_fields_patched (kwargs : Kwargs) (quote_id : Z) (db : Database) :
  kw_blank (kw_text kwargs) = false ->
  kw_blank (kw_author kwargs) = false ->
  apply_fields kwargs quote_id db
  = Ok (mkDatabase
          (map (fun r => if Z.eqb (row_id r) quote_id
                         then patched kwargs r else r) (quotes db))
          (tags db) (quote_tags db) (seq_quotes db) (seq_tags db)).
Proof.
  intros Ht Ha. unfold apply_fields, Sql.update_quotes.
  pose proof (update_rows_patched kwargs quote_id (quotes db) Ht Ha) as E.
  destruct (update_fields kwargs) as [|a fields] eqn:Ef.
  - f_equal. destruct db as [qs ts qts s1 s2]. simpl. f_equal.
    symmetry. etransitivity; [|apply map_id]. apply map_ext. intros r.
    destruct (Z.eqb (row_id r) quote_id); [|reflexivity].
    now apply patched_nothing.
  - now rewrite E.
Qed.

(** X8: update_quote is a partial update.  When it returns true, the row
    of the quote has the supplied columns replaced (text and author
    trimmed; a source or year supplied as None becomes NULL) and keeps the
    others, its id and its created_at; every other quote row is as it was,
    in the same place; without the tags field the tags and the
    associations are untouched as well. *)
Theorem update_quote_changes_only_supplied_fields :
  forall (db db' : Database) (quote_id : Z) (kwargs : Kwargs),
    update_quote quote_id kwargs db = (Ok true, db') ->
    quotes db'
    = map (fun r => if Z.eqb (row_id r) quote_id
                    then patched kwargs r else r) (quotes db)
    /\ (kw_tags kwargs = None ->
        tags db' = tags db /\ quote_tags db' = quote_tags db).
Proof.
  intros db db' quote_id kwargs H.
  destruct (kw_blank (kw_text kwargs)) eqn:Ht.
  { unfold update_quote in H. rewrite Ht in H. discriminate. }
  destruct (kw_blank (kw_author kwargs)) eqn:Ha.
  { unfold update_quote in H. rewrite Ht, Ha in H. discriminate. }
  destruct (fits_int64 quote_id) eqn:Hfits.
  2: { rewrite (update_quote_overflow_id _ _ _ Hfits Ht Ha) in H.
       discriminate. }
  destruct (in_dec Z.eq_dec quote_id (quote_ids db)) as [Hq | Hq].
  2: { rewrite (update_quote_absent_id_aux db quote_id kwargs Hfits Hq Ht Ha)
         in H.
       discriminate. }
  destruct (kw_year_fits kwargs) eqn:Hy.
  2: { rewrite (update_quote_overflow_year _ _ _ Ht Ha Hfits Hq Hy) in H.
       discriminate. }
  rewrite (update_quote_run _ _ _ Ht Ha Hfits Hy Hq) in H.
  rewrite (apply_fields_patched kwargs quote_id db Ht Ha) in H.
  unfold replace_tags in H.
  destruct (kw_tags kwargs) as [v|].
  - destruct (link_all _ _ _) as [w'|e] eqn:El; [|discriminate].
    injection H as <-.
    apply link_all_frame in El as [Eq _]. split; [exact Eq | discriminate].
  - injection H as <-. simpl. auto.
Qed.

Lemma update_quote_changes_only_supplied_fields_witness :
  exists db',
    update_quote 1 (mkKwargs (Some (Some (" Forty-two" ++ nbsp)%string)) None
                             (Some None) (Some (Some 1979)) None) two_quotes
    = (Ok true, db')
    /\ quotes db'
       = map (fun r => if Z.eqb (row_id r) 1
                       then patched
                              (mkKwargs
                                 (Some (Some (" Forty-two" ++ nbsp)%string))
                                 None (Some None) (Some (Some 1979)) None) r
                       else r) (quotes two_quotes)
    /\ tags db' = tags two_quotes
    /\ quote_tags db' = quote_tags two_quotes.
Proof.
  eexists. split; [vm_compute; reflexivity|].
  destruct (update_quote_changes_only_supplied_fields two_quotes
              (snd (update_quote 1
                      (mkKwargs (Some (Some (" Forty-two" ++ nbsp)%string))
                                None (Some None) (Some (Some 1979)) None)
                      two_quotes))
              1 (mkKwargs (Some (Some (" Forty-two" ++ nbsp)%string)) None
                          (Some None) (Some (Some 1979)) None)) as [Hq Ht].
  - vm_compute. reflexivity.
  - split; [exact Hq | exact (Ht eq_refl)].
Defined.

(** X9: with tag names that are pairwise distinct once trimmed (the empty
    list and None included), an id and a year that fit in 64 bits, and
    text and author absent or not blank, update_quote on a quote in the
    store returns true and replaces the tags of that quote by the supplied
    names: blank names are dropped, get_quote_by_id afterwards shows
    exactly the supplied names, trimmed, in lexicographic order (no tag
    for the empty list), and the tags of every other quote are as
    before. *)
Theorem update_quote_replaces_tags :
  forall (clock : Clock) (db : Database) (quote_id : Z) (kwargs : Kwargs)
         (supplied : option (list string)),
    wf_db db ->
    kw_blank (kw_text kwargs) = false ->
    kw_blank (kw_author kwargs) = false ->
    fits_int64 quote_id = true ->
    kw_year_fits kwargs = true ->
    In quote_id (quote_ids db) ->
    kw_tags kwargs = Some supplied ->
    NoDup (supplied_names supplied) ->
    exists db' stored,
      update_quote quote_id kwargs db = (Ok true, db')
      /\ get_quote_by_id clock quote_id db' = (Ok (Some stored), db')
      /\ Models.tags stored = sort_names (supplied_names supplied)
      /\ (forall n, carries db' quote_id n <-> In n (supplied_names supplied))
      /\ (forall q n, q <> quote_id ->
                      (carries db' q n <-> carries db q n)).
Proof.
  intros clock db quote_id kwargs supplied Hwf Ht Ha Hfits Hy Hq Hs Hnd.
  destruct (update_quote_replaces_distinct_tags db quote_id kwargs
              Hwf Ht Ha Hfits Hy Hq) as [Hsome _].
  destruct (Hsome supplied Hs Hnd)
    as (db' & E & _ & Eids & Hc & Hother & Esel).
  destruct (get_quote_by_id_present clock db' quote_id Hfits)
    as (stored & Eg & _ & Etags).
  { now rewrite Eids. }
  exists db', stored. split; [exact E|]. split; [exact Eg|].
  split; [now rewrite Etags|]. split; [exact Hc | exact Hother].
Qed.

Lemma update_quote_replaces_tags_witness :
  exists db' stored,
    update_quote 1 (mkKwargs None None None None
                             (Some (Some ["towel"; nbsp;
                                          (" answer" ++ nbsp)%string])))
                 two_quotes = (Ok true, db')
    /\ get_quote_by_id noon 1 db' = (Ok (Some stored), db')
    /\ Models.tags stored
       = sort_names (supplied_names
                       (Some ["towel"; nbsp; (" answer" ++ nbsp)%string]))
    /\ (forall n, carries db' 1 n
                  <-> In n (supplied_names
                              (Some ["towel"; nbsp;
                                     (" answer" ++ nbsp)%string])))
    /\ (forall q n, q <> 1 -> (carries db' q n <-> carries two_quotes q n)).
Proof.
  apply update_quote_replaces_tags.
  - apply wf_db_b_sound. vm_compute. reflexivity.
  - reflexivity.
  - reflexivity.
  - reflexivity.
  - reflexivity.
  - vm_compute. left. reflexivity.
  - reflexivity.
  - apply (distinct_b_NoDup String.eqb); [apply String.eqb_eq|].
    vm_compute. reflexivity.
Defined.

(** ** search_quotes: the three filters *)

Lemma matches_percent (p s : list ascii) :
  Like.matches ("%"%char :: p) s
  = Like.matches p s
    || match s with
       | [] => false
       | _ :: s' => Like.matches ("%"%char :: p) s'
       end.
Proof. destruct s; reflexivity. Qed.

Lemma matches_literal (c : ascii) (p s : list ascii) :
  c <> "%"%char -> c <> "_"%char ->
  Like.matches (c :: p) s
  = match s with
    | [] => false
    | d :: s' => Like.same_char c d && Like.matches p s'
    end.
Proof.
  intros H1 H2. simpl.
  apply Ascii.eqb_neq in H1, H2. rewrite H1, H2. reflexivity.
Qed.

Lemma matches_percent_iff (p s : list ascii) :
  Like.matches ("%"%char :: p) s = true
  <-> exists pre rest, s = pre ++ rest /\ Like.matches p rest = true.
Proof.
  induction s as [|c s IH]; rewrite matches_percent.
  - rewrite orb_false_r. split.
    + intros H. exists [], []. auto.
    + intros (pre & rest & E & H).
      symmetry in E. apply app_eq_nil in E as [_ ->]. exact H.
  - rewrite orb_true_iff, IH. split.
    + intros [H | (pre & rest & -> & H)].
      * exists [], (c :: s). auto.
      * exists (c :: pre), rest. auto.
    + intros (pre & rest & E & H). destruct pre as [|d pre]; simpl in E.
      * left. now subst rest.
      * right. injection E as _ ->. exists pre, rest. auto.
Qed.

Lemma matches_prefix_iff (q : list ascii) :
  literal_query q ->
  forall s,
    Like.matches (q ++ ["%"%char]) s = true
    <-> exists mid post, s = mid ++ post /\ same_text q mid.
Proof.
  induction 1 as [|c q (H1 & H2 & _) _ IH]; intros s.
  - simpl app. rewrite matches_percent_iff. split.
    + intros _. exists [], s. split; [reflexivity | constructor].
    + intros _. exists s, []. split; [now rewrite app_nil_r | reflexivity].
  - simpl app. rewrite (matches_literal c _ s H1 H2). split.
    + destruct s as [|d s]; [discriminate|].
      intros H. apply andb_true_iff in H as [Hc H].
      apply IH in H as (mid & post & -> & Hmid).
      exists (d :: mid), post. split; [reflexivity | now constructor].
    + intros (mid & post & -> & Hmid).
      inversion Hmid as [|? d ? mid' Hc Hmid']; subst. simpl.
      rewrite Hc. simpl. apply IH. exists mid', post. auto.
Qed.

Lemma list_ascii_of_string_app (a b : string) :
  list_ascii_of_string (a ++ b)
  = list_ascii_of_string a ++ list_ascii_of_string b.
Proof. induction a as [|c a IH]; simpl; [reflexivity | now rewrite IH]. Qed.

(** A pattern without NUL is read to its end. *)
Lemma until_nul_app (l rest : list ascii) :
  Forall (fun c => c <> Ascii.zero) l ->
  Like.until_nul (l ++ rest) = l ++ Like.until_nul rest.
Proof.
  induction 1 as [|c l Hc _ IH]; simpl; [reflexivity|].
  apply Ascii.eqb_neq in Hc. now rewrite Hc, IH.
Qed.

Lemma c_string_pattern (q : string) :
  Forall (fun c => c <> Ascii.zero) (list_ascii_of_string q) ->
  Like.c_string ("%" ++ q ++ "%")
  = "%"%char :: list_ascii_of_string q ++ ["%"%char].
Proof.
  intros H. unfold Like.c_string.
  rewrite !list_ascii_of_string_app. cbn [list_ascii_of_string app].
  change (Like.until_nul ("%"%char :: ?l)) with ("%"%char :: Like.until_nul l).
  now rewrite (until_nul_app _ _ H).
Qed.

Lemma literal_query_no_nul (q : list ascii) :
  literal_query q -> Forall (fun c => c <> Ascii.zero) q.
Proof. apply Forall_impl. tauto. Qed.

Lemma like_contains (text q : string) :
  literal_query (list_ascii_of_string q) ->
  Like.like text ("%" ++ q ++ "%") = true <-> contains_caseless text q.
Proof.
  intros Hlit. unfold Like.like, contains_caseless.
  rewrite (c_string_pattern q (literal_query_no_nul _ Hlit)).
  rewrite matches_percent_iff. split.
  - intros (pre & rest & E & H).
    apply (matches_prefix_iff _ Hlit) in H as (mid & post & -> & Hmid).
    exists pre, mid, post. auto.
  - intros (pre & mid & post & E & Hmid).
    exists pre, (mid ++ post). split; [exact E|].
    apply (matches_prefix_iff _ Hlit). exists mid, post. auto.
Qed.

(** X10: the query filter of search_quotes is a substring search that
    ignores the case of ASCII letters, on the text or on the author, as
    far as LIKE reads them (up to their first NUL).  This holds for a
    query without the characters % and _, which LIKE reads as wildcards,
    without NUL, and short enough for the pattern to stay within SQLite's
    limit: such a query selects a row exactly when the text or the author
    contains it up to case. *)
Theorem search_query_is_caseless_substring :
  forall (query : string) (r : QuoteRow),
    query <> EmptyString ->
    literal_query (list_ascii_of_string query) ->
    within_like_limit (Some query) ->
    Sql.where_query (Some query) r = true
    <-> contains_caseless (row_text r) query
        \/ contains_caseless (row_author r) query.
Proof.
  intros query r Hne Hlit _. unfold Sql.where_query.
  destruct query as [|c query]; [contradiction|].
  cbn [PyStr.truthy]. rewrite orb_true_iff.
  now rewrite !(like_contains _ _ Hlit).
Qed.

Lemma search_query_is_caseless_substring_witness :
  Sql.where_query (Some "ANSWER")
    (mkQuoteRow 1 "The answer is 42" "Douglas Adams" None None "") = true
  <-> contains_caseless "The answer is 42" "ANSWER"
      \/ contains_caseless "Douglas Adams" "ANSWER".
Proof.
  apply (search_query_is_caseless_substring "ANSWER"
           (mkQuoteRow 1 "The answer is 42" "Douglas Adams" None None "")).
  - discriminate.
  - repeat constructor; discriminate.
  - vm_compute. discriminate.
Defined.

(** X11: what LIKE does with the other queries: % and _ in the query are
    wildcards, not characters to look for.  A query made of % signs only,
    short enough for the pattern to stay within SQLite's limit, selects
    every quote, so search_quotes returns what get_all_quotes returns. *)
Theorem search_percent_query_matches_everything :
  forall (clock : Clock) (db : Database) (query : string),
    wf_db db ->
    query <> EmptyString ->
    Forall (fun c => c = "%"%char) (list_ascii_of_string query) ->
    within_like_limit (Some query) ->
    search_quotes clock (Some query) None None db = get_all_quotes clock db.
Proof.
  intros clock db query Hwf Hne Hall _.
  unfold search_quotes, get_all_quotes. rewrite !listing_exact.
  assert (Hmatch : forall text p,
             Forall (fun c => c = "%"%char) p ->
             Like.matches (p ++ ["%"%char]) text = true).
  { intros text p Hp. induction Hp as [|c p -> _ IH]; simpl app.
    - apply matches_percent_iff. exists text, []. split;
        [now rewrite app_nil_r | reflexivity].
    - apply matches_percent_iff. exists [], text. auto. }
  assert (Hnul : Forall (fun c => c <> Ascii.zero)
                        (list_ascii_of_string query)).
  { eapply Forall_impl; [|exact Hall]. intros c ->. discriminate. }
  assert (Hq : forall r, Sql.where_query (Some query) r = true).
  { intros r. unfold Sql.where_query.
    destruct query as [|c query]; [contradiction|]. cbn [PyStr.truthy].
    apply orb_true_iff. left. unfold Like.like.
    rewrite (c_string_pattern _ Hnul).
    apply matches_percent_iff.
    exists [], (Like.c_string (row_text r)). split; [reflexivity|].
    now apply Hmatch. }
  unfold Sql.search, Sql.select_all_quotes.
  rewrite filter_all.
  - rewrite nodup_fixed_point; [reflexivity | now apply wf_quotes_NoDup].
  - intros r _. now rewrite Hq.
Qed.

Lemma search_percent_query_matches_everything_witness :
  search_quotes noon (Some "%") None None two_quotes
  = get_all_quotes noon two_quotes.
Proof.
  apply search_percent_query_matches_everything.
  - apply wf_db_b_sound. vm_compute. reflexivity.
  - discriminate.
  - repeat constructor.
  - vm_compute. discriminate.
Defined.




(** ** list_all_tags *)

Lemma filter_block {A B} (eqb : A -> A -> bool) (block : A -> list (A * B))
    (l : list A) (k : A) :
  (forall x y, eqb x y = true <-> x = y) ->
  (forall t r, In r (block t) -> fst r = t) ->
  NoDup l -> In k l ->
  filter (fun r => eqb (fst r) k) (flat_map block l) = block k.
Proof.
  intros Heqb Hblock. induction l as [|t l IH]; intros Hnd Hk; [destruct Hk|].
  apply NoDup_cons_iff in Hnd as [Ht Hnd]. simpl. rewrite filter_app.
  assert (Hother : forall l', ~ In k l' ->
                     filter (fun r => eqb (fst r) k) (flat_map block l') = []).
  { intros l' Hk'. apply filter_none. intros r Hr.
    apply in_flat_map in Hr as (t' & Ht' & Hr). apply Hblock in Hr.
    destruct (eqb (fst r) k) eqn:E; [|reflexivity].
    apply Heqb in E. subst. contradiction. }
  destruct Hk as [-> | Hk].
  - rewrite (Hother l Ht), app_nil_r. apply filter_all.
    intros r Hr. apply Heqb. now apply Hblock.
  - rewrite (IH Hnd Hk).
    replace (filter (fun r => eqb (fst r) k) (block t)) with (@nil (A * B));
      [reflexivity|].
    symmetry. apply filter_none. intros r Hr. apply Hblock in Hr.
    destruct (eqb (fst r) k) eqn:E; [|reflexivity].
    apply Heqb in E. subst. contradiction.
Qed.

Lemma TagRow_eqb_eq (a b : TagRow) : Sql.TagRow_eqb a b = true <-> a = b.
Proof.
  unfold Sql.TagRow_eqb. destruct (Sql.TagRow_eq_dec a b); split;
    congruence.
Qed.

Lemma wf_tags_NoDup (db : Database) : wf_db db -> NoDup (tags db).
Proof.
  intros H. apply (NoDup_map_inv tag_id). exact (wf_tag_pk _ H).
Qed.

Lemma left_join_block_fst (db : Database) (t : TagRow)
    (r : TagRow * option QuoteTagRow) :
  In r (match filter (fun qt => Z.eqb (tag_id t) (qt_tag_id qt))
                     (quote_tags db) with
        | [] => [(t, None)]
        | matched => map (fun qt => (t, Some qt)) matched
        end) ->
  fst r = t.
Proof.
  destruct (filter _ (quote_tags db)) as [|qt l].
  - intros [<- | []]. reflexivity.
  - intros H. apply in_map_iff in H as (qt' & <- & _). reflexivity.
Qed.

Lemma tag_group_count (db : Database) (t : TagRow) :
  wf_db db -> In t (tags db) ->
  Sql.count_quote_id
    (filter (fun r => Sql.TagRow_eqb (fst r) t)
            (Sql.tags_left_join_quote_tags db))
  = uses db t.
Proof.
  intros Hwf Ht. unfold Sql.tags_left_join_quote_tags.
  rewrite (filter_block Sql.TagRow_eqb); auto.
  - unfold Sql.count_quote_id, uses.
    destruct (filter (fun qt => Z.eqb (tag_id t) (qt_tag_id qt))
                     (quote_tags db)) as [|qt l]; [reflexivity|].
    rewrite filter_all; [now rewrite length_map|].
    intros r Hr. apply in_map_iff in Hr as (qt' & <- & _). reflexivity.
  - apply TagRow_eqb_eq.
  - intros t' r. apply left_join_block_fst.
  - now apply wf_tags_NoDup.
Qed.

Lemma left_join_keys (db : Database) (t : TagRow) :
  In t (map fst (Sql.tags_left_join_quote_tags db)) <-> In t (tags db).
Proof.
  unfold Sql.tags_left_join_quote_tags. split.
  - intros H. apply in_map_iff in H as (r & <- & Hr).
    apply in_flat_map in Hr as (t' & Ht' & Hr).
    apply left_join_block_fst in Hr. now subst.
  - intros H. apply in_map_iff.
    destruct (filter (fun qt => Z.eqb (tag_id t) (qt_tag_id qt))
                     (quote_tags db)) as [|qt l] eqn:E.
    + exists (t, None). split; [reflexivity|].
      apply in_flat_map. exists t. split; [exact H|]. rewrite E. now left.
    + exists (t, Some qt). split; [reflexivity|].
      apply in_flat_map. exists t. split; [exact H|]. rewrite E. now left.
Qed.

Lemma by_name_total (a b : string * Z) :
  String.leb (fst a) (fst b) = true \/ String.leb (fst b) (fst a) = true.
Proof. apply String.leb_total. Qed.

Lemma by_name_trans (a b c : string * Z) :
  String.leb (fst a) (fst b) = true -> String.leb (fst b) (fst c) = true ->
  String.leb (fst a) (fst c) = true.
Proof. apply leb_trans. Qed.

Lemma select_tag_counts_perm (db : Database) :
  wf_db db ->
  Permutation (Sql.select_tag_counts db)
    (map (fun t => (tag_name t, uses db t)) (tags db)).
Proof.
  intros Hwf. unfold Sql.select_tag_counts.
  eapply perm_trans; [apply order_by_perm|].
  set (g := fun k => (tag_name k,
                      Sql.count_quote_id
                        (filter (fun r => Sql.TagRow_eqb (fst r) k)
                                (Sql.tags_left_join_quote_tags db)))).
  eapply perm_trans.
  - apply (Permutation_map g). apply NoDup_Permutation.
    + apply NoDup_nodup.
    + apply (wf_tags_NoDup _ Hwf).
    + intros t. rewrite nodup_In. apply left_join_keys.
  - rewrite (map_ext_in g (fun t => (tag_name t, uses db t)));
      [apply Permutation_refl|].
    intros t Ht. unfold g. now rewrite tag_group_count.
Qed.

(** X13: list_all_tags lists every tag row exactly once, the tags without
    quotes included, each with the number of associations it has at the
    time of the call, in lexicographic order of the names; it does not
    change the database. *)
Theorem list_all_tags_counts_every_tag :
  forall (db : Database),
    wf_db db ->
    exists counts,
      list_all_tags db = (Ok counts, db)
      /\ Permutation counts
           (map (fun t => (tag_name t, uses db t)) (tags db))
      /\ StronglySorted by_name_le counts.
Proof.
  intros db Hwf. exists (Sql.select_tag_counts db).
  split; [reflexivity|]. split.
  - now apply select_tag_counts_perm.
  - apply (order_by_StronglySorted
             (fun a b : string * Z => String.leb (fst a) (fst b)));
      [apply by_name_total | apply by_name_trans].
Qed.

Lemma list_all_tags_counts_every_tag_witness :
  exists counts,
    list_all_tags (snd (delete_quote 2 two_quotes))
    = (Ok counts, snd (delete_quote 2 two_quotes))
    /\ Permutation counts
         (map (fun t => (tag_name t, uses (snd (delete_quote 2 two_quotes)) t))
              (tags (snd (delete_quote 2 two_quotes))))
    /\ StronglySorted by_name_le counts.
Proof.
  apply list_all_tags_counts_every_tag.
  apply wf_db_b_sound. vm_compute. reflexivity.
Defined.

(** ** get_quotes_by_author and get_quotes_by_tag *)

Lemma eqb_lower (a b : string) :
  String.eqb a b = true ->
  String.eqb (PyStr.lower a) (PyStr.lower b) = true.
Proof.
  intros E. apply String.eqb_eq in E. subst. apply String.eqb_refl.
Qed.

(** X14: get_quotes_by_author never fails and never changes the database;
    it returns exactly the stored quotes whose author column equals the
    argument character for character, newest first, and every one of them
    is also among the quotes search_quotes finds with the same author
    (whose comparison ignores the case of ASCII letters). *)
Theorem get_quotes_by_author_is_exact_match :
  forall (clock : Clock) (db : Database) (a : string),
    exists rows found,
      get_quotes_by_author clock a db
      = (Ok (map (quote_of_row clock db) rows), db)
      /\ (forall r, In r rows <-> In r (quotes db) /\ row_author r = a)
      /\ StronglySorted newest_first_le rows
      /\ search_quotes clock None (Some a) None db = (Ok found, db)
      /\ incl (map (quote_of_row clock db) rows) found.
Proof.
  intros clock db a.
  exists (SqlRead.select_by_author a db),
         (map (quote_of_row clock db) (Sql.search None (Some a) None db)).
  split; [apply listing_exact|]. split; [|split; [|split]].
  - intros r. unfold SqlRead.select_by_author.
    rewrite order_by_In, filter_In, String.eqb_eq. reflexivity.
  - apply newest_first_sorted.
  - apply listing_exact.
  - apply incl_map. intros r Hr.
    unfold SqlRead.select_by_author in Hr.
    apply order_by_In, filter_In in Hr as [Hr E].
    unfold Sql.search. apply order_by_In, nodup_In, filter_In.
    split; [exact Hr|]. cbn [Sql.where_query andb]. unfold Sql.where_author.
    destruct (PyStr.truthy a); [|reflexivity]. now apply eqb_lower.
Qed.

Lemma select_tag_names_In (db : Database) (quote_id : Z) (n : string) :
  In n (Sql.select_tag_names quote_id db) <-> carries db quote_id n.
Proof.
  rewrite select_tag_names_joined. unfold sort_names.
  rewrite order_by_In. apply joined_names_In.
Qed.

Lemma tagged_In (db : Database) (tag : string) (q : QuoteRow) :
  In q (SqlRead.tagged tag db)
  <-> In q (quotes db) /\ carries db (row_id q) tag.
Proof.
  unfold SqlRead.tagged. rewrite nodup_In, in_map_iff. split.
  - intros ([q' t] & E & H). simpl in E. subst q'.
    apply filter_In in H as [H En]. simpl in En. apply String.eqb_eq in En.
    apply quotes_join_tags_In in H as (Hq & Ht & Hp).
    split; [exact Hq|]. exists t. auto.
  - intros (Hq & t & Ht & En & Hp). exists (q, t). split; [reflexivity|].
    apply filter_In. split.
    + apply quotes_join_tags_In. auto.
    + simpl. now apply String.eqb_eq.
Qed.

Lemma order_by_NoDup {A} (before : A -> A -> bool) (l : list A) :
  NoDup l -> NoDup (order_by before l).
Proof.
  intros H. eapply Permutation_NoDup; [|exact H].
  apply Permutation_sym, order_by_perm.
Qed.

(** X15: on a database that satisfies the schema's constraints,
    get_quotes_by_tag returns the quotes that search_quotes returns for the
    one-element tag list, each once (the two are permutations of each other
    and both are ordered newest first), and every quote returned shows the
    tag among its tags. *)
Theorem get_quotes_by_tag_agrees_with_search :
  forall (clock : Clock) (db : Database) (tag : string),
    wf_db db ->
    exists rows found,
      get_quotes_by_tag clock tag db
      = (Ok (map (quote_of_row clock db) rows), db)
      /\ search_quotes clock None None (Some [tag]) db
         = (Ok (map (quote_of_row clock db) found), db)
      /\ Permutation rows found
      /\ StronglySorted newest_first_le rows
      /\ StronglySorted newest_first_le found
      /\ (forall r, In r rows <->
                    In r (quotes db) /\ carries db (row_id r) tag)
      /\ (forall r, In r rows ->
                    In tag (Models.tags (quote_of_row clock db r))).
Proof.
  intros clock db tag Hwf.
  exists (SqlRead.select_by_tag tag db),
         (Sql.search None None (Some [tag]) db).
  assert (Hrows : forall r, In r (SqlRead.select_by_tag tag db) <->
                            In r (quotes db) /\ carries db (row_id r) tag).
  { intros r. unfold SqlRead.select_by_tag. rewrite order_by_In.
    apply tagged_In. }
  split; [apply listing_exact|]. split; [apply listing_exact|].
  split; [|split; [|split; [|split]]].
  - apply NoDup_Permutation.
    + apply order_by_NoDup, NoDup_nodup.
    + unfold Sql.search. apply order_by_NoDup, NoDup_nodup.
    + intros r. rewrite Hrows.
      rewrite (search_distinct_tags_rows db None None [tag] r Hwf);
        [|discriminate | repeat constructor; intros []].
      split.
      * intros [Hq Hc]. repeat split; auto. intros n [<- | []]. exact Hc.
      * intros (Hq & _ & _ & Hc). split; [exact Hq|]. apply Hc. now left.
  - apply newest_first_sorted.
  - unfold Sql.search. apply newest_first_sorted.
  - exact Hrows.
  - intros r Hr. unfold quote_of_row. rewrite from_row_tags.
    apply select_tag_names_In. now apply Hrows.
Qed.

Lemma get_quotes_by_tag_agrees_with_search_witness :
  exists rows found,
    get_quotes_by_tag noon "humor" two_quotes
    = (Ok (map (quote_of_row noon two_quotes) rows), two_quotes)
    /\ search_quotes noon None None (Some ["humor"%string]) two_quotes
       = (Ok (map (quote_of_row noon two_quotes) found), two_quotes)
    /\ Permutation rows found
    /\ StronglySorted newest_first_le rows
    /\ StronglySorted newest_first_le found
    /\ (forall r, In r rows <->
                  In r (quotes two_quotes)
                  /\ carries two_quotes (row_id r) "humor")
    /\ (forall r, In r rows ->
                  In "humor"%string
                     (Models.tags (quote_of_row noon two_quotes r))).
Proof.
  apply get_quotes_by_tag_agrees_with_search.
  apply wf_db_b_sound. vm_compute. reflexivity.
Defined.

Lemma NoDup_map_on {A B} (f : A -> B) (l : list A) :
  (forall a b, In a l -> In b l -> f a = f b -> a = b) ->
  NoDup l -> NoDup (map f l).
Proof.
  induction l as [|x l IH]; intros Hinj Hnd; simpl; [constructor|].
  apply NoDup_cons_iff in Hnd as [Hx Hnd]. constructor.
  - intros Hin. apply in_map_iff in Hin as (y & E & Hy).
    apply Hx. rewrite (Hinj x y); auto; [now left | now right].
  - apply IH; auto. intros a b Ha Hb. apply Hinj; now right.
Qed.

Lemma tagged_length (db : Database) (t : TagRow) :
  wf_db db -> In t (tags db) ->
  Z.of_nat (List.length (SqlRead.tagged (tag_name t) db)) = uses db t.
Proof.
  intros Hwf Ht. unfold uses. f_equal.
  rewrite <- (length_map row_id).
  rewrite <- (length_map qt_quote_id
                (filter (fun qt => Z.eqb (tag_id t) (qt_tag_id qt))
                        (quote_tags db))).
  apply Permutation_length, NoDup_Permutation.
  - apply NoDup_map_on; [|apply NoDup_nodup].
    intros a b Ha Hb E. apply tagged_In in Ha as [Ha _], Hb as [Hb _].
    apply (NoDup_map_inj_on row_id (quotes db)); auto.
    exact (wf_quote_pk _ Hwf).
  - apply NoDup_map_on.
    + intros [qa ta] [qb tb] Ha Hb E. simpl in E. subst qb.
      apply filter_In in Ha as [_ Ea], Hb as [_ Eb]. simpl in Ea, Eb.
      apply Z.eqb_eq in Ea, Eb. congruence.
    + apply NoDup_filter. exact (wf_quote_tag_pk _ Hwf).
  - intros k. rewrite !in_map_iff. split.
    + intros (q & <- & Hq). apply tagged_In in Hq as (Hq & t' & Ht' & En & Hp).
      assert (t' = t) as ->.
      { apply (NoDup_map_inj_on tag_name (tags db)); auto.
        exact (wf_tag_unique _ Hwf). }
      exists (mkQuoteTagRow (row_id q) (tag_id t)). split; [reflexivity|].
      apply filter_In. split; [exact Hp|]. simpl. apply Z.eqb_refl.
    + intros ([qa ta] & <- & Hqt). apply filter_In in Hqt as [Hqt E].
      simpl in E. apply Z.eqb_eq in E. subst ta. simpl.
      pose proof (wf_fk_quote _ Hwf) as Hfk. rewrite Forall_forall in Hfk.
      specialize (Hfk _ Hqt). simpl in Hfk.
      apply in_map_iff in Hfk as (q & Eq & Hq). exists q.
      split; [exact Eq|]. apply tagged_In. split; [exact Hq|].
      exists t. rewrite Eq. auto.
Qed.

(** X16: on a database that satisfies the schema's constraints, the count
    list_all_tags shows for a tag is the number of quotes
    get_quotes_by_tag returns for its name. *)
Theorem list_all_tags_count_is_number_of_quotes_by_tag :
  forall (clock : Clock) (db : Database) (t : TagRow),
    wf_db db -> In t (tags db) ->
    exists counts found,
      list_all_tags db = (Ok counts, db)
      /\ get_quotes_by_tag clock (tag_name t) db = (Ok found, db)
      /\ In (tag_name t, Z.of_nat (List.length found)) counts.
Proof.
  intros clock db t Hwf Ht.
  exists (Sql.select_tag_counts db),
         (map (quote_of_row clock db) (SqlRead.select_by_tag (tag_name t) db)).
  split; [reflexivity|]. split; [apply listing_exact|].
  rewrite length_map. unfold SqlRead.select_by_tag.
  rewrite order_by_length, (tagged_length db t Hwf Ht).
  eapply Permutation_in;
    [apply Permutation_sym, (select_tag_counts_perm db Hwf)|].
  apply in_map_iff. exists t. auto.
Qed.

Lemma list_all_tags_count_is_number_of_quotes_by_tag_witness :
  exists counts found,
    list_all_tags two_quotes = (Ok counts, two_quotes)
    /\ get_quotes_by_tag noon (tag_name (mkTagRow 2 "humor")) two_quotes
       = (Ok found, two_quotes)
    /\ In (tag_name (mkTagRow 2 "humor"), Z.of_nat (List.length found))
          counts.
Proof.
  apply list_all_tags_count_is_number_of_quotes_by_tag.
  - apply wf_db_b_sound. vm_compute. reflexivity.
  - vm_compute. right. left. reflexivity.
Defined.

(** ** get_random_quote *)

Lemma get_random_quote_run (clock : Clock) (randbelow : nat -> nat)
    (tag : option string) (db : Database) :
  get_random_quote clock randbelow tag db
  = match (match tag with
           | Some t => if PyStr.truthy t then SqlRead.tagged t else quotes
           | None => quotes
           end) db with
    | [] => (Ok None, db)
    | first :: rest =>
        (Ok (Some (quote_of_row clock db (random_choice randbelow first rest))),
         db)
    end.
Proof.
  unfold get_random_quote, with_connection, bind, fetch. cbn [txn].
  destruct ((match tag with
             | Some t => if PyStr.truthy t then SqlRead.tagged t else quotes
             | None => quotes
             end) db) as [|first rest]; reflexivity.
Qed.

Lemma random_choice_In {A} (randbelow : nat -> nat) (first : A)
    (rest : list A) :
  In (random_choice randbelow first rest) (first :: rest).
Proof.
  unfold random_choice. apply nth_In. apply Nat.mod_upper_bound.
  simpl. discriminate.
Qed.

Lemma candidates_In (tag : option string) (db : Database) (r : QuoteRow) :
  In r ((match tag with
         | Some t => if PyStr.truthy t then SqlRead.tagged t else quotes
         | None => quotes
         end) db)
  <-> In r (quotes db)
      /\ forall t, tag = Some t -> PyStr.truthy t = true ->
                   carries db (row_id r) t.
Proof.
  destruct tag as [t|].
  - destruct (PyStr.truthy t) eqn:E.
    + rewrite tagged_In. split.
      * intros [Hr Hc]. split; [exact Hr|]. intros t' [= <-] _. exact Hc.
      * intros [Hr Hc]. split; [exact Hr|]. now apply Hc.
    + split; [|tauto]. intros Hr. split; [exact Hr|].
      intros t' [= <-] Ht. congruence.
  - split; [|tauto]. intros Hr. split; [exact Hr|]. discriminate.
Qed.

(** X17: get_random_quote never fails and never changes the database.
    What it returns is one of the stored quotes, with the tags
    get_quote_by_id shows, and when a non-empty tag is given that tag is
    among them; it returns None exactly when no stored quote qualifies
    (no quote at all, or none that carries the given tag). *)
Theorem get_random_quote_returns_a_qualifying_quote :
  forall (clock : Clock) (randbelow : nat -> nat) (tag : option string)
         (db : Database),
    exists res,
      get_random_quote clock randbelow tag db = (Ok res, db)
      /\ (forall q, res = Some q ->
            exists r, In r (quotes db) /\ q = quote_of_row clock db r
                      /\ forall t, tag = Some t -> PyStr.truthy t = true ->
                                   In t (Models.tags q))
      /\ (res = None <->
          forall r, In r (quotes db) ->
                    exists t, tag = Some t /\ PyStr.truthy t = true
                              /\ ~ carries db (row_id r) t).
Proof.
  intros clock randbelow tag db. rewrite get_random_quote_run.
  pose proof (candidates_In tag db) as Hcand.
  destruct ((match tag with
             | Some t => if PyStr.truthy t then SqlRead.tagged t else quotes
             | None => quotes
             end) db) as [|first rest].
  - exists None. split; [reflexivity|]. split; [discriminate|].
    split; [|reflexivity]. intros _ r Hr.
    destruct tag as [t|].
    + destruct (PyStr.truthy t) eqn:E.
      * exists t. repeat split; auto. intros Hc.
        apply (proj2 (Hcand r)). split; [exact Hr|].
        intros t' [= <-] _. exact Hc.
      * exfalso. apply (proj2 (Hcand r)). split; [exact Hr|].
        intros t' [= <-] Ht. congruence.
    + exfalso. apply (proj2 (Hcand r)). split; [exact Hr|]. discriminate.
  - exists (Some (quote_of_row clock db (random_choice randbelow first rest))).
    split; [reflexivity|].
    pose proof (random_choice_In randbelow first rest) as Hin.
    apply Hcand in Hin as [Hr Hc]. split.
    + intros q [= <-]. eexists. split; [exact Hr|]. split; [reflexivity|].
      intros t Et Ht. unfold quote_of_row. rewrite from_row_tags.
      apply select_tag_names_In. now apply Hc.
    + split; [discriminate|]. intros Hnone. exfalso.
      destruct (proj1 (Hcand first) (or_introl eq_refl)) as [Hf Hcf].
      destruct (Hnone first Hf) as (t & Et & Ht & Hn).
      apply Hn. now apply Hcf.
Qed.

(** X18: get_random_quote can return every qualifying quote: for each
    stored quote (that carries the tag, when a non-empty tag is given)
    there is a draw of the random generator with which get_random_quote
    returns that quote. *)
Theorem get_random_quote_can_return_any_qualifying_quote :
  forall (clock : Clock) (tag : option string) (db : Database)
         (r : QuoteRow),
    In r (quotes db) ->
    (forall t, tag = Some t -> PyStr.truthy t = true ->
               carries db (row_id r) t) ->
    exists randbelow,
      get_random_quote clock randbelow tag db
      = (Ok (Some (quote_of_row clock db r)), db).
Proof.
  intros clock tag db r Hr Hc.
  assert (Hin : In r ((match tag with
                       | Some t => if PyStr.truthy t then SqlRead.tagged t
                                   else quotes
                       | None => quotes
                       end) db)).
  { apply candidates_In. auto. }
  destruct (In_nth _ _ r Hin) as (n & Hn & En).
  exists (fun _ => n). rewrite get_random_quote_run.
  destruct ((match tag with
             | Some t => if PyStr.truthy t then SqlRead.tagged t else quotes
             | None => quotes
             end) db) as [|first rest]; [destruct Hin|].
  unfold random_choice. cbv zeta. rewrite Nat.mod_small by exact Hn.
  rewrite (nth_indep _ first r Hn), En. reflexivity.
Qed.

Lemma get_random_quote_can_return_any_qualifying_quote_witness :
  exists randbelow,
    get_random_quote noon randbelow (Some "humor"%string) two_quotes
    = (Ok (Some (quote_of_row noon two_quotes
                   (mkQuoteRow 2 "Don't Panic" "Douglas Adams" None None
                               "2024-05-25 12:00:01"))), two_quotes).
Proof.
  apply get_random_quote_can_return_any_qualifying_quote.
  - vm_compute. right. left. reflexivity.
  - intros t [= <-] _. exists (mkTagRow 2 "humor").
    vm_compute. repeat split; right; left; reflexivity.
Defined.

(** ** get_statistics *)

Lemma most_first_total (a b : string * Z) :
  SqlRead.most_first a b = true \/ SqlRead.most_first b a = true.
Proof. unfold SqlRead.most_first. rewrite !Z.leb_le. lia. Qed.

Lemma most_first_trans (a b c : string * Z) :
  SqlRead.most_first a b = true -> SqlRead.most_first b c = true ->
  SqlRead.most_first a c = true.
Proof. unfold SqlRead.most_first. rewrite !Z.leb_le. lia. Qed.

Lemma most_first_head (l : list (string * Z)) (x : string * Z)
    (rest : list (string * Z)) :
  order_by SqlRead.most_first l = x :: rest ->
  forall y, In y l -> (snd y <= snd x)%Z.
Proof.
  intros E y Hy. apply Z.leb_le.
  exact (order_by_head SqlRead.most_first most_first_total most_first_trans
           l x rest E y Hy).
Qed.

Lemma order_by_nil {A} (before : A -> A -> bool) (l : list A) :
  order_by before l = [] -> l = [].
Proof.
  intros E. apply length_zero_iff_nil.
  rewrite <- (order_by_length before), E. reflexivity.
Qed.

Lemma quotes_by_absent (db : Database) (b : string) :
  ~ In b (map row_author (quotes db)) -> quotes_by db b = 0%Z.
Proof.
  intros Hb. unfold quotes_by. rewrite filter_none; [reflexivity|].
  intros r Hr. destruct (String.eqb (row_author r) b) eqn:E; [|reflexivity].
  apply String.eqb_eq in E. exfalso. apply Hb. rewrite <- E.
  now apply in_map.
Qed.

Lemma get_statistics_run (db : Database) :
  get_statistics db
  = (Ok (mkStatistics (Z.of_nat (List.length (quotes db)))
           (SqlRead.count_authors db)
           (Z.of_nat (List.length (tags db)))
           (top_or_na (SqlRead.author_counts db))
           (top_or_na (SqlRead.tag_counts db))), db).
Proof. reflexivity. Qed.

(** X19: get_statistics never fails and never changes the database.  On a
    store without quotes most_quoted_author is N/A; otherwise it names an
    author of a stored quote together with the number of that author's
    quotes, and no author has more. *)
Theorem get_statistics_most_quoted_author_is_maximal :
  forall (db : Database),
    exists s,
      get_statistics db = (Ok s, db)
      /\ (quotes db = [] -> most_quoted_author s = "N/A"%string)
      /\ (quotes db <> [] ->
          exists a,
            In a (map row_author (quotes db))
            /\ most_quoted_author s
               = (a ++ " (" ++ py_str (quotes_by db a) ++ " quotes)")%string
            /\ forall b, (quotes_by db b <= quotes_by db a)%Z).
Proof.
  intros db. rewrite get_statistics_run. eexists. split; [reflexivity|].
  cbn [most_quoted_author]. split.
  - intros E. unfold SqlRead.author_counts. rewrite E. reflexivity.
  - intros Hne.
    set (g := fun a : string => (a, quotes_by db a)).
    assert (Ecounts : SqlRead.author_counts db
                      = order_by SqlRead.most_first
                          (map g (order_by String.leb
                                    (nodup string_dec
                                       (map row_author (quotes db)))))).
    { reflexivity. }
    assert (Hmem : forall b, In b (map row_author (quotes db)) ->
                     In (g b) (map g (order_by String.leb
                                        (nodup string_dec
                                           (map row_author (quotes db)))))).
    { intros b Hb. apply in_map. apply order_by_In. now apply nodup_In. }
    destruct (SqlRead.author_counts db) as [|[a c] rest] eqn:Eh.
    + exfalso. symmetry in Ecounts. apply order_by_nil in Ecounts.
      destruct (quotes db) as [|r rs]; [now apply Hne|].
      specialize (Hmem (row_author r) (or_introl eq_refl)).
      rewrite Ecounts in Hmem. destruct Hmem.
    + assert (Hin : In (a, c)
                      (map g (order_by String.leb
                                (nodup string_dec
                                   (map row_author (quotes db)))))).
      { apply (order_by_In SqlRead.most_first). rewrite <- Ecounts.
        now left. }
      apply in_map_iff in Hin as (a' & E & Ha'). unfold g in E.
      injection E as -> <-.
      apply order_by_In, nodup_In in Ha'.
      exists a. split; [exact Ha'|]. split; [reflexivity|].
      intros b.
      destruct (in_dec string_dec b (map row_author (quotes db)))
        as [Hb | Hb].
      * symmetry in Ecounts.
        exact (most_first_head _ _ _ Ecounts (g b) (Hmem b Hb)).
      * rewrite (quotes_by_absent db b Hb). unfold quotes_by. lia.
Qed.

Lemma tag_block_fst (db : Database) (t : TagRow) (r : TagRow * QuoteTagRow) :
  In r (map (fun qt => (t, qt))
            (filter (fun qt => Z.eqb (tag_id t) (qt_tag_id qt))
                    (quote_tags db))) ->
  fst r = t.
Proof. intros H. apply in_map_iff in H as (qt & <- & _). reflexivity. Qed.

Lemma tag_join_group_count (db : Database) (t : TagRow) :
  wf_db db -> In t (tags db) ->
  Z.of_nat (List.length (filter (fun r => Sql.TagRow_eqb (fst r) t)
                                (Sql.tags_join_quote_tags db)))
  = uses db t.
Proof.
  intros Hwf Ht. unfold Sql.tags_join_quote_tags.
  rewrite (filter_block Sql.TagRow_eqb
             (fun t => map (fun qt => (t, qt))
                           (filter (fun qt => Z.eqb (tag_id t) (qt_tag_id qt))
                                   (quote_tags db)))); auto.
  - now rewrite length_map.
  - apply TagRow_eqb_eq.
  - intros t' r. apply tag_block_fst.
  - now apply wf_tags_NoDup.
Qed.

Lemma tag_join_keys (db : Database) (t : TagRow) :
  In t (map fst (Sql.tags_join_quote_tags db))
  <-> In t (tags db) /\ (0 < uses db t)%Z.
Proof.
  unfold Sql.tags_join_quote_tags, uses. split.
  - intros H. apply in_map_iff in H as (r & <- & Hr).
    apply in_flat_map in Hr as (t' & Ht' & Hr).
    pose proof (tag_block_fst _ _ _ Hr) as E. subst t'.
    split; [exact Ht'|].
    destruct (filter _ (quote_tags db)); [destruct Hr | simpl; lia].
  - intros [Ht Hu].
    destruct (filter (fun qt => Z.eqb (tag_id t) (qt_tag_id qt))
                     (quote_tags db)) as [|qt l] eqn:E;
      [simpl in Hu; lia|].
    apply in_map_iff. exists (t, qt). split; [reflexivity|].
    apply in_flat_map. exists t. split; [exact Ht|]. rewrite E. now left.
Qed.

Lemma uses_nonneg (db : Database) (t : TagRow) : (0 <= uses db t)%Z.
Proof. unfold uses. lia. Qed.

(** X20: on a database that satisfies the schema's constraints,
    most_common_tag of get_statistics is N/A when no quote has a tag;
    otherwise it names a tag together with the number of quotes that
    carry it, which is positive, and no tag has more. *)
Theorem get_statistics_most_common_tag_is_maximal :
  forall (db : Database),
    wf_db db ->
    exists s,
      get_statistics db = (Ok s, db)
      /\ (quote_tags db = [] -> most_common_tag s = "N/A"%string)
      /\ (quote_tags db <> [] ->
          exists t,
            In t (tags db)
            /\ most_common_tag s
               = (tag_name t ++ " (" ++ py_str (uses db t) ++ " quotes)")%string
            /\ (0 < uses db t)%Z
            /\ forall t', In t' (tags db) -> (uses db t' <= uses db t)%Z).
Proof.
  intros db Hwf. rewrite get_statistics_run. eexists.
  split; [reflexivity|]. cbn [most_common_tag]. split.
  - intros E. unfold SqlRead.tag_counts, Sql.tags_join_quote_tags.
    rewrite E. rewrite flat_map_empty; [reflexivity|]. reflexivity.
  - intros Hne.
    set (joined := Sql.tags_join_quote_tags db).
    set (g := fun k : TagRow =>
                (tag_name k,
                 Z.of_nat (List.length
                             (filter (fun r => Sql.TagRow_eqb (fst r) k)
                                     joined)))).
    assert (Ecounts : SqlRead.tag_counts db
                      = order_by SqlRead.most_first
                          (map g (nodup Sql.TagRow_eq_dec (map fst joined)))).
    { reflexivity. }
    assert (Hg : forall k, In k (tags db) -> g k = (tag_name k, uses db k)).
    { intros k Hk. unfold g, joined. now rewrite tag_join_group_count. }
    destruct (SqlRead.tag_counts db) as [|[n c] rest] eqn:Eh.
    + exfalso. symmetry in Ecounts. apply order_by_nil, map_eq_nil in Ecounts.
      destruct (quote_tags db) as [|qt qts] eqn:Eqt; [now apply Hne|].
      pose proof (wf_fk_tag _ Hwf) as Hfk. rewrite Eqt in Hfk.
      apply Forall_inv in Hfk. apply in_map_iff in Hfk as (t & Et & Ht).
      assert (Hk : In t (nodup Sql.TagRow_eq_dec (map fst joined))).
      { apply nodup_In, tag_join_keys. split; [exact Ht|].
        unfold uses. rewrite Eqt. simpl. rewrite Et, Z.eqb_refl. simpl. lia. }
      rewrite Ecounts in Hk. destruct Hk.
    + assert (Hin : In (n, c)
                      (map g (nodup Sql.TagRow_eq_dec (map fst joined)))).
      { apply (order_by_In SqlRead.most_first). rewrite <- Ecounts.
        now left. }
      apply in_map_iff in Hin as (t & E & Hk).
      apply nodup_In, tag_join_keys in Hk as [Ht Hpos].
      rewrite (Hg t Ht) in E. injection E as <- <-.
      exists t. split; [exact Ht|]. split; [reflexivity|].
      split; [exact Hpos|]. intros t' Ht'.
      destruct (Z.eq_dec (uses db t') 0) as [E0 | Hn0]; [lia|].
      assert (Hk' : In (g t')
                      (map g (nodup Sql.TagRow_eq_dec (map fst joined)))).
      { apply in_map, nodup_In, tag_join_keys. split; [exact Ht'|].
        pose proof (uses_nonneg db t'). lia. }
      symmetry in Ecounts.
      pose proof (most_first_head _ _ _ Ecounts (g t') Hk') as Hle.
      rewrite (Hg t' Ht') in Hle. exact Hle.
Qed.

Lemma get_statistics_most_common_tag_is_maximal_witness :
  exists s,
    get_statistics two_quotes = (Ok s, two_quotes)
    /\ (quote_tags two_quotes = [] -> most_common_tag s = "N/A"%string)
    /\ (quote_tags two_quotes <> [] ->
        exists t,
          In t (tags two_quotes)
          /\ most_common_tag s
             = (tag_name t ++ " (" ++ py_str (uses two_quotes t)
                ++ " quotes)")%string
          /\ (0 < uses two_quotes t)%Z
          /\ forall t', In t' (tags two_quotes) ->
                        (uses two_quotes t' <= uses two_quotes t)%Z).
Proof.
  apply get_statistics_most_common_tag_is_maximal.
  apply wf_db_b_sound. vm_compute. reflexivity.
Defined.

(** ** The statistics resource against get_statistics *)

Lemma nodup_perm_length {A} (dec : forall x y : A, {x = y} + {x <> y})
    (l l' : list A) :
  Permutation l l' ->
  List.length (nodup dec l) = List.length (nodup dec l').
Proof.
  intros Hp. apply Permutation_length, NoDup_Permutation;
    try apply NoDup_nodup.
  intros x. rewrite !nodup_In. split; apply Permutation_in; auto.
  now apply Permutation_sym.
Qed.

Lemma _get_stats_run (clock : Clock) (db : Database) :
  _get_stats clock db
  = (Ok (mkStatistics
           (Z.of_nat (List.length (Sql.select_all_quotes db)))
           (Z.of_nat (List.length
                        (nodup string_dec
                           (map row_author (Sql.select_all_quotes db)))))
           (Z.of_nat (List.length (Sql.select_tag_counts db)))
           (top_item_or_na
              (fold_left count_up
                 (map row_author (Sql.select_all_quotes db)) []))
           (top_item_or_na (Sql.select_tag_counts db))), db).
Proof.
  unfold _get_stats, get_all_quotes. rewrite listing_exact.
  change (list_all_tags db) with (Ok (Sql.select_tag_counts db), db).
  cbv beta iota. rewrite !length_map, !map_map. reflexivity.
Qed.

(** X21: on a database that satisfies the schema's constraints, the
    statistics of the resource module (_get_stats, computed from
    get_all_quotes and list_all_tags) and get_statistics (computed by SQL)
    agree on the numbers of quotes, of authors and of tags, and both say
    N/A for the most quoted author of an empty store. *)
Theorem resource_stats_totals_agree_with_get_statistics :
  forall (clock : Clock) (db : Database),
    wf_db db ->
    exists s s',
      get_statistics db = (Ok s, db)
      /\ _get_stats clock db = (Ok s', db)
      /\ total_quotes s' = total_quotes s
      /\ total_authors s' = total_authors s
      /\ total_tags s' = total_tags s
      /\ (quotes db = [] ->
          most_quoted_author s' = "N/A"%string
          /\ most_quoted_author s = "N/A"%string).
Proof.
  intros clock db Hwf. rewrite get_statistics_run, _get_stats_run.
  do 2 eexists. split; [reflexivity|]. split; [reflexivity|].
  cbn [total_quotes total_authors total_tags most_quoted_author].
  split; [|split; [|split]].
  - unfold Sql.select_all_quotes. now rewrite order_by_length.
  - unfold SqlRead.count_authors. f_equal. apply nodup_perm_length.
    apply Permutation_map. unfold Sql.select_all_quotes. apply order_by_perm.
  - f_equal. rewrite (Permutation_length (select_tag_counts_perm db Hwf)).
    apply length_map.
  - intros E. unfold Sql.select_all_quotes, SqlRead.author_counts.
    rewrite E. split; reflexivity.
Qed.

Lemma resource_stats_totals_agree_with_get_statistics_witness :
  exists s s',
    get_statistics two_quotes = (Ok s, two_quotes)
    /\ _get_stats noon two_quotes = (Ok s', two_quotes)
    /\ total_quotes s' = total_quotes s
    /\ total_authors s' = total_authors s
    /\ total_tags s' = total_tags s
    /\ (quotes two_quotes = [] ->
        most_quoted_author s' = "N/A"%string
        /\ most_quoted_author s = "N/A"%string).
Proof.
  apply resource_stats_totals_agree_with_get_statistics.
  apply wf_db_b_sound. vm_compute. reflexivity.
Defined.

Lemma max_by_count_In (first : string * Z) (rest : list (string * Z)) :
  In (max_by_count first rest) (first :: rest).
Proof.
  unfold max_by_count. revert first.
  induction rest as [|x rest IH]; intros first; simpl; [now left|].
  destruct (snd first <? snd x)%Z.
  - right. apply IH.
  - destruct (IH first) as [H | H]; [now left | right; now right].
Qed.

Lemma uses_zero (db : Database) (t : TagRow) :
  quote_tags db = [] -> uses db t = 0%Z.
Proof. intros E. unfold uses. rewrite E. reflexivity. Qed.

(** X22: the two statistics differ on tags that no quote carries.  On a
    database that satisfies the schema's constraints, has at least one tag
    row and no association (the state after the last tagged quote was
    deleted, say), get_statistics reports N/A as the most common tag while
    the resource's statistics name one of the tags with 0 quotes. *)
Theorem resource_stats_name_an_unused_tag :
  forall (clock : Clock) (db : Database),
    wf_db db -> quote_tags db = [] -> tags db <> [] ->
    exists s s',
      get_statistics db = (Ok s, db)
      /\ _get_stats clock db = (Ok s', db)
      /\ most_common_tag s = "N/A"%string
      /\ exists t, In t (tags db)
                   /\ most_common_tag s'
                      = (tag_name t ++ " (0 quotes)")%string.
Proof.
  intros clock db Hwf Eqt Hne. rewrite get_statistics_run, _get_stats_run.
  do 2 eexists. split; [reflexivity|]. split; [reflexivity|].
  cbn [most_common_tag]. split.
  - unfold SqlRead.tag_counts, Sql.tags_join_quote_tags.
    rewrite Eqt. rewrite flat_map_empty; [reflexivity|]. reflexivity.
  - pose proof (select_tag_counts_perm db Hwf) as Hp.
    destruct (Sql.select_tag_counts db) as [|first rest] eqn:Ec.
    + exfalso. apply Permutation_nil, map_eq_nil in Hp. contradiction.
    + pose proof (max_by_count_In first rest) as Hin.
      apply (Permutation_in _ Hp), in_map_iff in Hin as (t & Et & Ht).
      exists t. split; [exact Ht|].
      unfold top_item_or_na. cbv zeta. rewrite <- Et.
      cbn [fst snd]. rewrite (uses_zero db t Eqt). reflexivity.
Qed.

Lemma resource_stats_name_an_unused_tag_witness :
  exists s s',
    get_statistics (snd (delete_quote 1 (snd (delete_quote 2 two_quotes))))
    = (Ok s, snd (delete_quote 1 (snd (delete_quote 2 two_quotes))))
    /\ _get_stats noon (snd (delete_quote 1 (snd (delete_quote 2 two_quotes))))
       = (Ok s', snd (delete_quote 1 (snd (delete_quote 2 two_quotes))))
    /\ most_common_tag s = "N/A"%string
    /\ exists t,
         In t (tags (snd (delete_quote 1 (snd (delete_quote 2 two_quotes)))))
         /\ most_common_tag s' = (tag_name t ++ " (0 quotes)")%string.
Proof.
  apply resource_stats_name_an_unused_tag.
  - apply wf_db_b_sound. vm_compute. reflexivity.
  - vm_compute. reflexivity.
  - vm_compute. discriminate.
Defined.

(** ** The database file: init_database, check_if_seeded,
       get_schema_version, setup_database *)

Lemma init_database_shape (clock : Clock) (file : Schema.File) :
  exists vs,
    Schema.init_database clock file
    = Schema.Initialised (Schema.mkStore vs (stored file))
    /\ existsb (fun v => Z.eqb (fst v) Schema.SCHEMA_VERSION) vs = true.
Proof.
  destruct file as [| |[vs d]]; simpl.
  - eexists. split; reflexivity.
  - eexists. split; reflexivity.
  - destruct (existsb _ vs) eqn:E.
    + exists vs. split; [reflexivity | exact E].
    + eexists. split; [reflexivity|].
      rewrite existsb_app. simpl. apply orb_true_r.
Qed.

Lemma init_database_recorded (clock : Clock) (vs : list (Z * string))
    (d : Database) :
  existsb (fun v => Z.eqb (fst v) Schema.SCHEMA_VERSION) vs = true ->
  Schema.init_database clock (Schema.Initialised (Schema.mkStore vs d))
  = Schema.Initialised (Schema.mkStore vs d).
Proof. intros E. simpl. now rewrite E. Qed.

Lemma fold_left_max_ge (vs : list Z) :
  forall v x, In x (v :: vs) -> (x <= fold_left Z.max vs v)%Z.
Proof.
  induction vs as [|y vs IH]; intros v x Hx; simpl.
  - destruct Hx as [-> | []]. lia.
  - pose proof (IH (Z.max v y) (Z.max v y) (or_introl eq_refl)) as Hm.
    destruct Hx as [-> | [-> | Hx]]; [lia | lia |].
    apply IH. now right.
Qed.

(** X23: init_database turns every file into an initialised one that
    holds the tables the file had (empty tables for a missing or blank
    file), so it neither removes data nor changes whether the store counts
    as seeded; afterwards get_schema_version reports a version, at least
    SCHEMA_VERSION, and a second init_database changes nothing. *)
Theorem init_database_keeps_data_and_is_idempotent :
  forall (clock clock' : Clock) (file : Schema.File),
    (exists vs,
       Schema.init_database clock file
       = Schema.Initialised (Schema.mkStore vs (stored file)))
    /\ Schema.check_if_seeded (Schema.init_database clock file)
       = Schema.check_if_seeded file
    /\ (exists v,
          Schema.get_schema_version (Schema.init_database clock file) = Some v
          /\ (Schema.SCHEMA_VERSION <= v)%Z)
    /\ Schema.init_database clock' (Schema.init_database clock file)
       = Schema.init_database clock file.
Proof.
  intros clock clock' file.
  destruct (init_database_shape clock file) as (vs & E & Hvs).
  rewrite E. split; [eauto|]. split; [|split].
  - destruct file as [| |s]; reflexivity.
  - apply existsb_exists in Hvs as ([v ts] & Hin & Ev).
    simpl in Ev. apply Z.eqb_eq in Ev. subst v.
    apply (in_map fst) in Hin. cbn [Schema.get_schema_version Schema.versions].
    destruct (map fst vs) as [|v0 rest]; [destruct Hin|].
    pose proof (fold_left_max_ge rest v0 _ Hin) as Hge. cbn [fst] in Hge.
    destruct (Z.eqb (fold_left Z.max rest v0) 0) eqn:E0.
    + apply Z.eqb_eq in E0. unfold Schema.SCHEMA_VERSION in Hge. lia.
    + eexists. split; [reflexivity | exact Hge].
  - now apply init_database_recorded.
Qed.

Lemma unseeded_empty (db : Database) :
  check_if_seeded db = false -> quotes db = [].
Proof.
  unfold check_if_seeded. intros E. apply Z.ltb_ge in E.
  destruct (quotes db); [reflexivity | simpl in E; lia].
Qed.

Lemma seed_database_unseeded (clock : nat -> Clock) (db : Database) :
  wf_db db -> check_if_seeded db = false ->
  exists db',
    seed_database clock false db
    = (Ok (Z.of_nat (List.length SEED_QUOTES),
           Z.of_nat (List.length SEED_QUOTES)), db')
    /\ wf_db db'
    /\ Forall2 (seeded_from db') (quotes db') SEED_QUOTES.
Proof.
  intros Hwf Hun.
  destruct (seed_loop_ok clock SEED_QUOTES SEED_QUOTES_ok O 0 db Hwf)
    as (db' & rows & E & Hwf' & Eq & Hall & _).
  rewrite (unseeded_empty db Hun) in Eq. cbn [app] in Eq.
  exists db'. unfold seed_database. rewrite Hun. cbn [negb andb]. rewrite E.
  destruct (get_all_quotes_run (clock (List.length SEED_QUOTES)) db')
    as (l & E' & Hl).
  rewrite <- Eq in Hall. rewrite E', Hl.
  split; [|split; [exact Hwf' | exact Hall]].
  rewrite (Forall2_length Hall). reflexivity.
Qed.

(** X24: setup_database with auto-seeding on, on a file that is missing,
    blank, or holds a database satisfying the schema's constraints, leaves
    an initialised and seeded store that satisfies them.  A store that
    already held a quote keeps its tables unchanged; one that held none
    holds exactly the entries of SEED_QUOTES afterwards, in their order.
    Running setup_database again, with whatever setting, changes
    nothing. *)
Theorem setup_database_seeds_an_unseeded_store_once :
  forall (clock : Clock) (seed_clock : nat -> Clock) (file : Schema.File),
    wf_db (stored file) ->
    exists s',
      setup_database clock seed_clock true file = Schema.Initialised s'
      /\ wf_db (Schema.data s')
      /\ Schema.check_if_seeded (Schema.Initialised s') = true
      /\ (Schema.check_if_seeded file = true ->
          Schema.data s' = stored file)
      /\ (Schema.check_if_seeded file = false ->
          Forall2 (seeded_from (Schema.data s'))
                  (quotes (Schema.data s')) SEED_QUOTES)
      /\ forall clock' seed_clock' auto_seed',
           setup_database clock' seed_clock' auto_seed'
             (Schema.Initialised s')
           = Schema.Initialised s'.
Proof.
  intros clock seed_clock file Hwf.
  destruct (init_database_shape clock file) as (vs & E & Hvs).
  assert (Eseeded : Schema.check_if_seeded file = check_if_seeded (stored file)).
  { destruct file as [| |s]; reflexivity. }
  assert (Hagain : forall d, check_if_seeded d = true ->
            forall clock' seed_clock' auto_seed',
              setup_database clock' seed_clock' auto_seed'
                (Schema.Initialised (Schema.mkStore vs d))
              = Schema.Initialised (Schema.mkStore vs d)).
  { intros d Hd clock' seed_clock' auto_seed'. unfold setup_database.
    rewrite (init_database_recorded clock' vs d Hvs). cbv zeta.
    cbn [Schema.check_if_seeded Schema.data]. unfold Schema.has_quotes.
    rewrite Hd. cbn [negb]. rewrite andb_false_r. reflexivity. }
  unfold setup_database. rewrite E. cbv zeta.
  cbn [Schema.check_if_seeded Schema.data Schema.versions].
  unfold Schema.has_quotes. rewrite Eseeded.
  destruct (check_if_seeded (stored file)) eqn:Hs; cbn [negb andb].
  - eexists. split; [reflexivity|]. cbn [Schema.data].
    split; [exact Hwf|]. split; [exact Hs|]. split; [reflexivity|].
    split; [discriminate|]. now apply Hagain.
  - destruct (seed_database_unseeded seed_clock (stored file) Hwf Hs)
      as (db' & Eseed & Hwf' & Hall).
    rewrite Eseed. cbn [snd]. eexists. split; [reflexivity|].
    cbn [Schema.data].
    assert (Hs' : check_if_seeded db' = true).
    { unfold check_if_seeded. apply Z.ltb_lt.
      rewrite (Forall2_length Hall). vm_compute. reflexivity. }
    split; [exact Hwf'|]. split; [exact Hs'|]. split; [discriminate|].
    split; [intros _; exact Hall|]. now apply Hagain.
Qed.

Lemma setup_database_seeds_an_unseeded_store_once_witness :
  exists s',
    setup_database noon (fun _ => one_past_noon) true Schema.Missing
    = Schema.Initialised s'
    /\ wf_db (Schema.data s')
    /\ Schema.check_if_seeded (Schema.Initialised s') = true
    /\ (Schema.check_if_seeded Schema.Missing = true ->
        Schema.data s' = stored Schema.Missing)
    /\ (Schema.check_if_seeded Schema.Missing = false ->
        Forall2 (seeded_from (Schema.data s'))
                (quotes (Schema.data s')) SEED_QUOTES)
    /\ forall clock' seed_clock' auto_seed',
         setup_database clock' seed_clock' auto_seed' (Schema.Initialised s')
         = Schema.Initialised s'.
Proof.
  apply setup_database_seeds_an_unseeded_store_once.
  apply wf_db_b_sound. vm_compute. reflexivity.
Defined.

(** ** The tool handlers *)

(** X25: when handle_update_quote refuses an update it answers with an
    error text and leaves the database as it was.  The reasons are tried
    in this order: no field supplied, blank text, blank author, unknown
    id (for an id that fits in 64 bits); so without fields the other
    arguments are not looked at, and update_quote's InvalidInputError
    comes back as text, not as an exception. *)
Theorem handle_update_quote_refusals :
  forall (quote_id : Z) (kwargs : Kwargs) (db : Database),
    Tools.no_fields kwargs = true
    \/ kw_blank (kw_text kwargs) = true
    \/ kw_blank (kw_author kwargs) = true
    \/ (fits_int64 quote_id = true /\ ~ In quote_id (quote_ids db)) ->
    exists msg,
      Tools.handle_update_quote quote_id kwargs db
      = (Ok ("Error: " ++ msg)%string, db)
      /\ msg
         = if Tools.no_fields kwargs then
             "No fields specified for update"%string
           else if kw_blank (kw_text kwargs) then
             "Quote text cannot be empty"%string
           else if kw_blank (kw_author kwargs) then
             "Author name cannot be empty"%string
           else ("Quote with ID " ++ py_str quote_id ++ " not found")%string.
Proof.
  intros quote_id kwargs db Hwhy. unfold Tools.handle_update_quote.
  destruct (Tools.no_fields kwargs) eqn:Hn.
  - eexists. split; reflexivity.
  - destruct (kw_blank (kw_text kwargs)) eqn:Ht.
    + unfold update_quote. rewrite Ht. eexists. split; reflexivity.
    + destruct (kw_blank (kw_author kwargs)) eqn:Ha.
      * unfold update_quote. rewrite Ht, Ha. eexists. split; reflexivity.
      * destruct Hwhy as [H | [H | [H | [Hfits Habs]]]]; try discriminate.
        rewrite (update_quote_absent_id_aux db quote_id kwargs
                   Hfits Habs Ht Ha).
        eexists. split; reflexivity.
Qed.

Lemma handle_update_quote_refusals_witness :
  exists msg,
    Tools.handle_update_quote 999
      (mkKwargs (Some (Some nbsp)) (Some (Some " ")) None None None)
      two_quotes
    = (Ok ("Error: " ++ msg)%string, two_quotes)
    /\ msg
       = if Tools.no_fields
              (mkKwargs (Some (Some nbsp)) (Some (Some " ")) None None None)
         then "No fields specified for update"%string
         else if kw_blank
                   (kw_text (mkKwargs (Some (Some nbsp)) (Some (Some " "))
                                      None None None))
         then "Quote text cannot be empty"%string
         else if kw_blank
                   (kw_author (mkKwargs (Some (Some nbsp)) (Some (Some " "))
                                        None None None))
         then "Author name cannot be empty"%string
         else ("Quote with ID " ++ py_str 999 ++ " not found")%string.
Proof.
  apply handle_update_quote_refusals.
  right. left. reflexivity.
Defined.

(** X26: handle_update_quote catches InvalidInputError only.  When the
    tags supplied for a stored quote contain, once trimmed, a name twice,
    the IntegrityError of update_quote leaves the handler as an exception;
    with an id or a year that does not fit in 64 bits it is the
    OverflowError of the binding that does.  Either way the database is
    as it was. *)
Theorem handle_update_quote_lets_integrity_error_escape :
  forall (quote_id : Z) (kwargs : Kwargs) (supplied : option (list string))
         (db : Database),
    kw_blank (kw_text kwargs) = false ->
    kw_blank (kw_author kwargs) = false ->
    In quote_id (quote_ids db) ->
    kw_tags kwargs = Some supplied ->
    ~ NoDup (supplied_names supplied) ->
    Tools.handle_update_quote quote_id kwargs db
    = (Raise (if fits_int64 quote_id && kw_year_fits kwargs
              then IntegrityError else OverflowError), db).
Proof.
  intros quote_id kwargs supplied db Ht Ha Hq Htags Hdup.
  unfold Tools.handle_update_quote.
  assert (Hn : Tools.no_fields kwargs = false).
  { unfold Tools.no_fields. rewrite Htags.
    destruct (kw_text kwargs), (kw_author kwargs), (kw_source kwargs),
             (kw_year kwargs); reflexivity. }
  rewrite Hn.
  rewrite (update_quote_raises_on_duplicate db quote_id kwargs supplied)
    by assumption.
  destruct (fits_int64 quote_id && kw_year_fits kwargs); reflexivity.
Qed.

Lemma handle_update_quote_lets_integrity_error_escape_witness :
  Tools.handle_update_quote 1
    (mkKwargs None None None None
              (Some (Some ["humor"; (nbsp ++ "humor")%string])))
    two_quotes
  = (Raise IntegrityError, two_quotes).
Proof.
  apply (handle_update_quote_lets_integrity_error_escape 1
           (mkKwargs None None None None
                     (Some (Some ["humor"; (nbsp ++ "humor")%string])))
           (Some ["humor"; (nbsp ++ "humor")%string]) two_quotes).
  - reflexivity.
  - reflexivity.
  - vm_compute. left. reflexivity.
  - reflexivity.
  - vm_compute. intros H. inversion H as [|? ? Hx _]. apply Hx. now left.
Defined.

(** ** add_tag_to_quote, then get_quotes_by_tag *)

(** X27: on a database that satisfies the schema's constraints, after
    add_tag_to_quote has tagged a stored quote (whose id fits in 64 bits,
    as every id the database has handed out does) with a name that is not
    blank, get_quotes_by_tag finds that quote under the trimmed name, and
    the quote it returns shows the trimmed name among its tags. *)
Theorem add_tag_to_quote_then_get_quotes_by_tag :
  forall (clock : Clock) (db : Database) (r : QuoteRow) (tag : string),
    wf_db db -> PyStr.blank tag = false ->
    fits_int64 (row_id r) = true -> In r (quotes db) ->
    exists db1 found,
      add_tag_to_quote (row_id r) tag db = (Ok true, db1)
      /\ get_quotes_by_tag clock (PyStr.strip tag) db1 = (Ok found, db1)
      /\ In (quote_of_row clock db1 r) found
      /\ In (PyStr.strip tag) (Models.tags (quote_of_row clock db1 r)).
Proof.
  intros clock db r tag Hwf Hb Hfits Hr.
  destruct (add_tag_to_quote_first db (row_id r) tag Hwf Hb Hfits)
    as (db1 & E & Hwf1 & Eq & Hl).
  { unfold quote_ids. now apply in_map. }
  apply linked_carries in Hl.
  exists db1, (map (quote_of_row clock db1)
                   (SqlRead.select_by_tag (PyStr.strip tag) db1)).
  split; [exact E|]. split; [apply listing_exact|]. split.
  - apply in_map. unfold SqlRead.select_by_tag.
    apply order_by_In, tagged_In. rewrite Eq. auto.
  - unfold quote_of_row. rewrite from_row_tags.
    now apply select_tag_names_In.
Qed.

Lemma add_tag_to_quote_then_get_quotes_by_tag_witness :
  exists db1 found,
    add_tag_to_quote
      (row_id (mkQuoteRow 2 "Don't Panic" "Douglas Adams" None None
                          "2024-05-25 12:00:01"))
      (" towel" ++ nbsp)%string two_quotes = (Ok true, db1)
    /\ get_quotes_by_tag noon (PyStr.strip (" towel" ++ nbsp)%string) db1
       = (Ok found, db1)
    /\ In (quote_of_row noon db1
             (mkQuoteRow 2 "Don't Panic" "Douglas Adams" None None
                         "2024-05-25 12:00:01")) found
    /\ In (PyStr.strip (" towel" ++ nbsp)%string)
          (Models.tags
             (quote_of_row noon db1
                (mkQuoteRow 2 "Don't Panic" "Douglas Adams" None None
                            "2024-05-25 12:00:01"))).
Proof.
  apply add_tag_to_quote_then_get_quotes_by_tag.
  - apply wf_db_b_sound. vm_compute. reflexivity.
  - reflexivity.
  - reflexivity.
  - vm_compute. right. left. reflexivity.
Defined.

(** ** The readers on the sample store *)

Lemma get_quotes_by_author_is_exact_match_witness :
  exists rows found,
    get_quotes_by_author noon "Douglas Adams" two_quotes
    = (Ok (map (quote_of_row noon two_quotes) rows), two_quotes)
    /\ (forall r, In r rows <->
                  In r (quotes two_quotes)
                  /\ row_author r = "Douglas Adams"%string)
    /\ StronglySorted newest_first_le rows
    /\ search_quotes noon None (Some "Douglas Adams"%string) None two_quotes
       = (Ok found, two_quotes)
    /\ incl (map (quote_of_row noon two_quotes) rows) found.
Proof.
  apply (get_quotes_by_author_is_exact_match noon two_quotes "Douglas Adams").
Defined.

Lemma get_random_quote_returns_a_qualifying_quote_witness :
  exists res,
    get_random_quote noon (fun n => Nat.pred n) (Some "humor"%string)
                     two_quotes
    = (Ok res, two_quotes)
    /\ (forall q, res = Some q ->
          exists r, In r (quotes two_quotes)
                    /\ q = quote_of_row noon two_quotes r
                    /\ forall t, Some "humor"%string = Some t ->
                                 PyStr.truthy t = true ->
                                 In t (Models.tags q))
    /\ (res = None <->
        forall r, In r (quotes two_quotes) ->
                  exists t, Some "humor"%string = Some t
                            /\ PyStr.truthy t = true
                            /\ ~ carries two_quotes (row_id r) t).
Proof.
  apply (get_random_quote_returns_a_qualifying_quote noon
           (fun n => Nat.pred n) (Some "humor"%string) two_quotes).
Defined.

Lemma get_statistics_most_quoted_author_is_maximal_witness :
  exists s,
    get_statistics two_quotes = (Ok s, two_quotes)
    /\ (quotes two_quotes = [] -> most_quoted_author s = "N/A"%string)
    /\ (quotes two_quotes <> [] ->
        exists a,
          In a (map row_author (quotes two_quotes))
          /\ most_quoted_author s
             = (a ++ " (" ++ py_str (quotes_by two_quotes a)
                ++ " quotes)")%string
          /\ forall b, (quotes_by two_quotes b <= quotes_by two_quotes a)%Z).
Proof.
  apply (get_statistics_most_quoted_author_is_maximal two_quotes).
Defined.
